(** * passkit-generator: the pass assembly pipeline of [src/pass.ts]

    A shallow embedding of the [Pass] class (constructor, builder methods,
    [_patch] and [generate]) and of the model checks of [src/parser.ts],
    with the properties of the bundle assembly, the manifest and the
    localization merge that the specification states about them.

    Conventions of the embedding
    - a JavaScript record used as a dictionary is an association list in
      property-creation order, which is [Object.keys] order for the
      names met here (no array index, no [__proto__]); writing an
      existing key keeps its position, writing a new key appends it;
    - a [Buffer] is a string of 8-bit characters, and so is a JavaScript
      string;
    - an exception is a value of [Error] carried by [result];
    - instance fields mutated by a method are returned as the new [Pass];
      the localization bundle, which the instance shares with its caller,
      lives in a [Heap] and is addressed through a reference;
    - the modules imported from outside [src/] are the fields of the
      class [Collaborators], or are modelled where a comment says so. *)

From Stdlib Require Import List String Ascii Bool Arith ZArith Lia DecimalString.
Import ListNotations.
Local Open Scope list_scope.
Local Open Scope string_scope.

Set Implicit Arguments.

(* ================================================================== *)
(** * Strings *)
(* ================================================================== *)

Module Str.

(** [String.prototype.startsWith] *)
Definition startsWith (s p : string) : bool := String.prefix p s.

(** [String.prototype.includes] *)
Fixpoint includes (s sub : string) : bool :=
  String.prefix sub s ||
  match s with
  | EmptyString => false
  | String _ r => includes r sub
  end.

(** [String.prototype.toLowerCase], on the ASCII letters. *)
Definition lower_char (c : ascii) : ascii :=
  let n := nat_of_ascii c in
  if Nat.leb 65 n && Nat.leb n 90 then ascii_of_nat (n + 32) else c.

Fixpoint toLowerCase (s : string) : string :=
  match s with
  | EmptyString => EmptyString
  | String c r => String (lower_char c) (toLowerCase r)
  end.

Fixpoint contains_char (c : ascii) (s : string) : bool :=
  match s with
  | EmptyString => false
  | String a r => Ascii.eqb a c || contains_char c r
  end.

(** [String.prototype.split] on a one-character separator. *)
Fixpoint split_on (c : ascii) (s : string) : list string :=
  match s with
  | EmptyString => [EmptyString]
  | String a r =>
      if Ascii.eqb a c then EmptyString :: split_on c r
      else match split_on c r with
           | x :: xs => String a x :: xs
           | [] => [String a EmptyString]
           end
  end.

(** [Array.prototype.join] *)
Fixpoint join (sep : string) (l : list string) : string :=
  match l with
  | [] => EmptyString
  | [x] => x
  | x :: r => x ++ sep ++ join sep r
  end.

(** [s.replace(/c/, by)] without the [g] flag: the first occurrence only. *)
Fixpoint replace_first (c : ascii) (by_ : ascii) (s : string) : string :=
  match s with
  | EmptyString => EmptyString
  | String a r => if Ascii.eqb a c then String by_ r
                  else String a (replace_first c by_ r)
  end.

Definition first_char (s : string) : option ascii :=
  match s with EmptyString => None | String a _ => Some a end.

Fixpoint last_char (s : string) : option ascii :=
  match s with
  | EmptyString => None
  | String a EmptyString => Some a
  | String _ r => last_char r
  end.

Definition slash : ascii := "/"%char.
Definition backslash : ascii := "\"%char.

End Str.

(* ================================================================== *)
(** * Node's [path.join] (POSIX flavour) *)
(* ================================================================== *)

Module Path.

(** [normalizeString]: drops empty and [.] segments and resolves [..]
    against the segments kept so far ([acc], most recent first). *)
Fixpoint normalize_segments (allowAboveRoot : bool)
         (acc : list string) (segs : list string) : list string :=
  match segs with
  | [] => rev acc
  | s :: rest =>
      if (s =? "") || (s =? ".") then normalize_segments allowAboveRoot acc rest
      else if s =? ".." then
        match acc with
        | top :: acc' =>
            if top =? ".." then
              normalize_segments allowAboveRoot
                (if allowAboveRoot then ".." :: acc else acc) rest
            else normalize_segments allowAboveRoot acc' rest
        | [] =>
            normalize_segments allowAboveRoot
              (if allowAboveRoot then [".."] else []) rest
        end
      else normalize_segments allowAboveRoot (s :: acc) rest
  end.

Definition is_slash (o : option ascii) : bool :=
  match o with Some c => Ascii.eqb c Str.slash | None => false end.

(** [path.posix.normalize] *)
Definition normalize (p : string) : string :=
  if p =? "" then "."
  else
    let isAbsolute := is_slash (Str.first_char p) in
    let trailingSeparator := is_slash (Str.last_char p) in
    let body := Str.join "/"
                  (normalize_segments (negb isAbsolute) []
                     (Str.split_on Str.slash p)) in
    if body =? "" then
      (if isAbsolute then "/" else if trailingSeparator then "./" else ".")
    else
      let body' := if trailingSeparator then body ++ "/" else body in
      if isAbsolute then "/" ++ body' else body'.

(** [path.posix.join] of two arguments: empty arguments are skipped. *)
Definition join (a b : string) : string :=
  if a =? "" then (if b =? "" then "." else normalize b)
  else if b =? "" then normalize a
  else normalize (a ++ "/" ++ b).

(** A name that is one path segment: not empty, not [.] or [..], and
    free of both separators. *)
Definition plain (s : string) : bool :=
  negb (s =? "") && negb (s =? ".") && negb (s =? "..")
  && negb (Str.contains_char Str.slash s)
  && negb (Str.contains_char Str.backslash s).

End Path.

(* ================================================================== *)
(** * JavaScript records used as dictionaries *)
(* ================================================================== *)

Module Obj.

Section Defs.
Variable V : Type.

Definition t := list (string * V).

(** [o[k]] *)
Fixpoint get (k : string) (o : t) : option V :=
  match o with
  | [] => None
  | (k', v) :: r => if k' =? k then Some v else get k r
  end.

Definition has (k : string) (o : t) : bool :=
  match get k o with Some _ => true | None => false end.

(** [o[k] = v] *)
Fixpoint set (k : string) (v : V) (o : t) : t :=
  match o with
  | [] => [(k, v)]
  | (k', v') :: r =>
      if k' =? k then (k, v) :: r else (k', v') :: set k v r
  end.

(** [delete o[k]] *)
Definition delete (k : string) (o : t) : t :=
  filter (fun kv => negb (fst kv =? k)) o.

(** [Object.keys(o)] *)
Definition keys (o : t) : list string := map fst o.

(** [Object.assign(target, src)] *)
Definition assign (target src : t) : t :=
  fold_left (fun acc kv => set (fst kv) (snd kv) acc) src target.

(** [{ ...o }] *)
Definition spread (o : t) : t := assign [] o.

(** A record has each key once. *)
Definition wf (o : t) : Prop := NoDup (keys o).
End Defs.

Arguments get {V} k o.
Arguments has {V} k o.
Arguments set {V} k v o.
Arguments delete {V} k o.
Arguments keys {V} o.
Arguments assign {V} target src.
Arguments spread {V} o.
Arguments wf {V} o.

End Obj.

(* ================================================================== *)
(** * Values, errors and buffers *)
(* ================================================================== *)

(** A [Buffer]: a sequence of bytes.  [Buffer.concat] is [append] and
    [Buffer.alloc(0)] the empty string. *)
Abbreviation Buffer := string (only parsing).

(** JavaScript values as far as the pipeline looks into them.  Numeric
    leaves are only ever tested for truthiness or copied. *)
#[warnings="-register-all"]
Inductive JSValue : Type :=
| JUndefined
| JNull
| JBool (b : bool)
| JNumber (n : Z)
| JString (s : string)
| JArray (l : list JSValue)
| JObject (o : list (string * JSValue)).

(** The errors a call can throw: the [ERROR.*] messages [pass.ts]
    formats, the engine's own [TypeError] and [SyntaxError] (from
    [JSON.parse]), a failure of [Signature.create], the field
    collection's [DuplicateKey], and the [ERROR.MODEL_UNINITIALIZED] of
    [parser.ts]. *)
Inductive Error : Type :=
| REQUIR_VALID_FAILED
| PASSFILE_VALIDATION_FAILED
| OVV_KEYS_BADFORMAT
| NO_PASS_TYPE
| TRSTYPE_REQUIRED
| TypeError
| SyntaxError
| SignatureError
| DuplicateKey
| MODEL_UNINITIALIZED.

Inductive result (A : Type) : Type :=
| Ok (a : A)
| Err (e : Error).
Arguments Ok {A} a.
Arguments Err {A} e.

Definition bind {A B} (r : result A) (f : A -> result B) : result B :=
  match r with Ok a => f a | Err e => Err e end.

Notation "'let*' x ':=' r 'in' k" := (bind r (fun x => k))
  (at level 10, x pattern, r at level 100, k at level 200).

Module JS.

(** Truthiness, as [if (v)], [!v], [v && w] and [v || w] test it. *)
Definition truthy (v : JSValue) : bool :=
  match v with
  | JUndefined | JNull => false
  | JBool b => b
  | JNumber n => negb (n =? 0)%Z
  | JString s => negb (s =? "")
  | JArray _ | JObject _ => true
  end.

(** [v[k]] for the property names [pass.ts] reads, none of which is
    an array index, [length] or inherited: a read on [null] or
    [undefined] throws, a read on another value without the property
    gives [undefined]. *)
Definition prop (v : JSValue) (k : string) : result JSValue :=
  match v with
  | JUndefined | JNull => Err TypeError
  | JObject o => Ok (match Obj.get k o with Some x => x | None => JUndefined end)
  | _ => Ok JUndefined
  end.

(** [Object.keys(v).length] *)
Definition keys_length (v : JSValue) : result nat :=
  match v with
  | JUndefined | JNull => Err TypeError
  | JObject o => Ok (List.length o)
  | JArray l => Ok (List.length l)
  | JString s => Ok (String.length s)
  | _ => Ok 0
  end.

(** [v instanceof Object] *)
Definition instanceofObject (v : JSValue) : bool :=
  match v with JArray _ | JObject _ => true | _ => false end.

(** [Array.prototype.filter] with a predicate that may throw. *)
Fixpoint filterM (f : JSValue -> result bool) (l : list JSValue)
  : result (list JSValue) :=
  match l with
  | [] => Ok []
  | x :: r =>
      let* b := f x in
      let* r' := filterM f r in
      Ok (if b then x :: r' else r')
  end.

End JS.

(* ================================================================== *)
(** * The modules [pass.ts] imports *)
(* ================================================================== *)

Module Schemas.

(** The Joi shapes [pass.ts] validates against. *)
Inductive Schema : Type :=
| Barcode | Beacon | Location | NFC | Field | TransitType | Personalization.

(** [Schemas.CertificatesSchema]: the signing identity. *)
Record CertificatesSchema : Type := {
  wwdr : string;
  signerCert : string;
  signerKey : string;
  signerKeyPassphrase : option string;
}.

Abbreviation BundleUnit := (Obj.t Buffer) (only parsing).
Abbreviation L10nBundle := (Obj.t BundleUnit) (only parsing).
Abbreviation Manifest := (Obj.t string) (only parsing).

End Schemas.
Import Schemas.

(** The shared store.  [options.model.l10nBundle] is handed to the
    instance by reference (line 67), so the record it denotes is a cell
    of the heap; a reference without a cell stands for [undefined]. *)
Definition ref := nat.
Definition Heap := list L10nBundle.

Definition heap_read (r : ref) (h : Heap) : option L10nBundle := nth_error h r.

Fixpoint heap_write (r : ref) (v : L10nBundle) (h : Heap) : Heap :=
  match h, r with
  | [], _ => []
  | _ :: t, O => v :: t
  | x :: t, S r' => x :: heap_write r' v t
  end.

(** [Schemas.PartitionedBundle] and the constructor's [options]. *)
Record PartitionedBundle : Type := {
  pb_bundle : BundleUnit;
  l10nBundle : ref;
}.

Record PassInstance : Type := {
  model : PartitionedBundle;
  certificates : CertificatesSchema;
  overrides : option (Obj.t JSValue);
}.

(** What the pipeline takes from outside [src/]: Joi validation
    ([./schemas]), the RGB test of [./utils], [./signature], node-forge's
    SHA-1 and the engine's JSON codec.  [overridable] is the table of
    keys of [Schemas.OverridesSupportedOptions] and [override_ok] its
    per-key format test. *)
Class Collaborators : Type := {
  isValid : Schema -> JSValue -> bool;
  getValidated : Schema -> JSValue -> option JSValue;
  isValidPassInstance : PassInstance -> bool;
  overridable : string -> bool;
  override_ok : string -> JSValue -> bool;
  isValidRGB : JSValue -> bool;
  Signature_create : Manifest -> CertificatesSchema -> option Buffer;
  sha1 : Buffer -> Buffer;
  JSON_parse : Buffer -> option JSValue;
  JSON_stringify : JSValue -> Buffer;
}.

(** ** [./utils] and node-forge *)

Module Utils.

Definition dquote : ascii := ascii_of_nat 34.
Definition EOL : string := String (ascii_of_nat 10) EmptyString.

(** Modelled from the spec: [generateStringFile] of [./utils], which is
    not among the sources.  The staged mapping is rendered one pair per
    line as [key = "value";]; an empty mapping renders to no bytes. *)
Definition generateStringFile (lang : Obj.t string) : Buffer :=
  Str.join EOL
    (map (fun kv =>
            fst kv ++ " = " ++ String dquote (snd kv ++ String dquote ";"))
         lang).

(** Modelled from the spec: [getAllFilesWithName] of [./utils] in its
    [startsWith] mode, the one [pass.ts] and [parser.ts] call: the
    names of [source] that start with [name]. *)
Definition getAllFilesWithName (name : string) (source : list string)
  : list string :=
  filter (fun file => Str.startsWith file name) source.

(** [hasFilesWithName] of [./utils], same mode (used by [parser.ts]). *)
Definition hasFilesWithName (name : string) (source : list string) : bool :=
  existsb (fun file => Str.startsWith file name) source.

(** Modelled from the spec: [deletePersonalization] of [./utils]:
    deletes the descriptor file and every listed logo file, as its
    inlined twin at [parser.ts] lines 81-83 does. *)
Definition deletePersonalization (source : BundleUnit)
           (logosNames : list string) : BundleUnit :=
  fold_left (fun b file => Obj.delete file b)
            (logosNames ++ ["personalization.json"])%list source.

(** node-forge's [ByteBuffer.toHex]: two lowercase digits per byte. *)
Definition hex_digit (n : nat) : ascii :=
  nth n ["0"; "1"; "2"; "3"; "4"; "5"; "6"; "7"; "8"; "9";
         "a"; "b"; "c"; "d"; "e"; "f"]%char "0"%char.

Fixpoint toHex (b : Buffer) : string :=
  match b with
  | EmptyString => EmptyString
  | String c r =>
      let n := nat_of_ascii c in
      String (hex_digit (n / 16)) (String (hex_digit (n mod 16)) (toHex r))
  end.

Definition is_lower_hex (c : ascii) : bool :=
  existsb (Ascii.eqb c)
    ["0"; "1"; "2"; "3"; "4"; "5"; "6"; "7"; "8"; "9";
     "a"; "b"; "c"; "d"; "e"; "f"]%char.

Fixpoint all_chars (f : ascii -> bool) (s : string) : bool :=
  match s with
  | EmptyString => true
  | String c r => f c && all_chars f r
  end.

End Utils.

(** ** [./fieldsArray] *)

Module FieldsArray.

Definition Field := JSValue.

(** The key of a field that passed [Schemas.Field]. *)
Definition key (f : Field) : string :=
  match JS.prop f "key" with
  | Ok (JString k) => k
  | _ => EmptyString
  end.

(** The five slots, which share one pool of keys ([Pass.fieldsKeys],
    line 46, handed to every [FieldsArray] at lines 158-165). *)
Inductive SlotName : Type :=
| primaryFields | secondaryFields | auxiliaryFields | backFields | headerFields.

Definition slot_name (s : SlotName) : string :=
  match s with
  | primaryFields => "primaryFields"
  | secondaryFields => "secondaryFields"
  | auxiliaryFields => "auxiliaryFields"
  | backFields => "backFields"
  | headerFields => "headerFields"
  end.

(** [Pass._fields] *)
Definition _fields : list SlotName :=
  [primaryFields; secondaryFields; auxiliaryFields; backFields; headerFields].

Record t : Type := {
  fieldsKeys : list string;
  primary : list Field;
  secondary : list Field;
  auxiliary : list Field;
  back : list Field;
  header : list Field;
}.

Definition empty : t :=
  {| fieldsKeys := []; primary := []; secondary := []; auxiliary := [];
     back := []; header := [] |}.

Definition slot (s : SlotName) (c : t) : list Field :=
  match s with
  | primaryFields => primary c
  | secondaryFields => secondary c
  | auxiliaryFields => auxiliary c
  | backFields => back c
  | headerFields => header c
  end.

Definition with_slot (s : SlotName) (l : list Field) (pool : list string)
           (c : t) : t :=
  {| fieldsKeys := pool;
     primary := match s with primaryFields => l | _ => primary c end;
     secondary := match s with secondaryFields => l | _ => secondary c end;
     auxiliary := match s with auxiliaryFields => l | _ => auxiliary c end;
     back := match s with backFields => l | _ => back c end;
     header := match s with headerFields => l | _ => header c end |}.

Definition slot_eqb (a b : SlotName) : bool :=
  match a, b with
  | primaryFields, primaryFields
  | secondaryFields, secondaryFields
  | auxiliaryFields, auxiliaryFields
  | backFields, backFields
  | headerFields, headerFields => true
  | _, _ => false
  end.

Definition pool_has (k : string) (pool : list string) : bool :=
  existsb (String.eqb k) pool.

(** Modelled from the spec: the insertion of [./fieldsArray], which is
    not among the sources.  [insert] fails with [DuplicateKey] when the
    field's key is already in the pool shared by the five slots, and
    otherwise records the key and appends the field to the target
    slot.  The collection it returns beside the outcome is the state
    the call leaves behind. *)
Definition insert (s : SlotName) (f : Field) (c : t) : t * result unit :=
  if pool_has (key f) (fieldsKeys c) then (c, Err DuplicateKey)
  else (with_slot s (slot s c ++ [f])%list (fieldsKeys c ++ [key f])%list c,
        Ok tt).

(** Modelled from the spec: [new FieldsArray(pool, ...fields)] puts the
    template's fields into its slot one by one, through [insert]; a
    repeated key is the construction-time violation of section 3. *)
Fixpoint create (s : SlotName) (fields : list Field) (c : t) : result t :=
  match fields with
  | [] => Ok c
  | f :: r =>
      match insert s f c with
      | (c', Ok _) => create s r c'
      | (_, Err e) => Err e
      end
  end.

(** All keys held by the five slots. *)
Definition all_keys (c : t) : list string :=
  flat_map (fun s => map key (slot s c)) _fields.

(** The pool mirrors the slots. *)
Definition pool_ok (c : t) : Prop :=
  forall k, In k (fieldsKeys c) <-> In k (all_keys c).

End FieldsArray.

(* ================================================================== *)
(** * [class Pass] *)
(* ================================================================== *)

Record Pass : Type := {
  bundle : BundleUnit;
  l10nBundles : ref;
  passProps : Obj.t JSValue;
  type : string;
  passCore : JSValue;
  fields : FieldsArray.t;
  Certificates : CertificatesSchema;
  transitType : JSValue;
  l10nTranslations : Obj.t (Obj.t string);
}.

Definition with_bundle (b : BundleUnit) (p : Pass) : Pass :=
  {| bundle := b; l10nBundles := l10nBundles p; passProps := passProps p;
     type := type p; passCore := passCore p; fields := fields p;
     Certificates := Certificates p; transitType := transitType p;
     l10nTranslations := l10nTranslations p |}.

Definition with_passProps (x : Obj.t JSValue) (p : Pass) : Pass :=
  {| bundle := bundle p; l10nBundles := l10nBundles p; passProps := x;
     type := type p; passCore := passCore p; fields := fields p;
     Certificates := Certificates p; transitType := transitType p;
     l10nTranslations := l10nTranslations p |}.

Definition with_transitType (x : JSValue) (p : Pass) : Pass :=
  {| bundle := bundle p; l10nBundles := l10nBundles p; passProps := passProps p;
     type := type p; passCore := passCore p; fields := fields p;
     Certificates := Certificates p; transitType := x;
     l10nTranslations := l10nTranslations p |}.

Definition with_l10nTranslations (x : Obj.t (Obj.t string)) (p : Pass) : Pass :=
  {| bundle := bundle p; l10nBundles := l10nBundles p; passProps := passProps p;
     type := type p; passCore := passCore p; fields := fields p;
     Certificates := Certificates p; transitType := transitType p;
     l10nTranslations := x |}.

Definition with_fields (x : FieldsArray.t) (p : Pass) : Pass :=
  {| bundle := bundle p; l10nBundles := l10nBundles p; passProps := passProps p;
     type := type p; passCore := passCore p; fields := x;
     Certificates := Certificates p; transitType := transitType p;
     l10nTranslations := l10nTranslations p |}.

(** [{ ...acc, [k]: v }] *)
Definition extend {V} (acc : Obj.t V) (k : string) (v : V) : Obj.t V :=
  Obj.set k v (Obj.spread acc).

(** [propsSchemaMap] (lines 26-32) *)
Definition propsSchemaMap (k : string) : option Schema :=
  if k =? "barcodes" then Some Barcode
  else if k =? "barcode" then Some Barcode
  else if k =? "beacons" then Some Beacon
  else if k =? "locations" then Some Location
  else if k =? "nfc" then Some NFC
  else None.

(** The pattern of line 89, [test]ed unanchored. *)
Definition is_type_key (k : string) : bool :=
  existsb (Str.includes k)
          ["boardingPass"; "eventTicket"; "coupon"; "generic"; "storeCard"].

Section PassMethods.

Context {C : Collaborators}.

(** Modelled from the spec: [Schemas.getValidated] against
    [Schemas.OverridesSupportedOptions] ([./schemas] is not among the
    sources).  Keys outside the whitelist are dropped silently; the
    outcome is [null] -- which the constructor reports as
    [OVV_KEYS_BADFORMAT], line 84 -- when a whitelisted key holds a
    value of the wrong format. *)
Definition getValidatedOverrides (o : Obj.t JSValue) : option (Obj.t JSValue) :=
  let known := filter (fun kv => overridable (fst kv)) o in
  if forallb (fun kv => override_ok (fst kv) (snd kv)) known
  then Some known else None.

(** [getValidInArray] (lines 681-689) *)
Definition getValidInArray (schemaName : Schema) (contents : list JSValue)
  : result (list JSValue) :=
  JS.filterM (fun current =>
                let* n := JS.keys_length current in
                Ok (negb (n =? 0)%nat && isValid schemaName current))
             contents.

(** The reducer of lines 101-142. *)
Definition validate_key (type_ : string) (passCore_ : Obj.t JSValue)
           (acc : Obj.t JSValue) (current : string) : result (Obj.t JSValue) :=
  if type_ =? current then Ok acc
  else
    let v := match Obj.get current passCore_ with
             | Some x => x | None => JUndefined end in
    match propsSchemaMap current with
    | None => Ok (extend acc current v)
    | Some currentSchema =>
        match v with
        | JArray l =>
            let* valid := getValidInArray currentSchema l in
            Ok (extend acc current (JArray valid))
        | _ =>
            Ok (extend acc current
                       (if isValid currentSchema v && JS.truthy v
                        then v else JUndefined))
        end
    end.

Fixpoint validatedPassKeys (type_ : string) (passCore_ : Obj.t JSValue)
         (acc : Obj.t JSValue) (keys : list string) : result (Obj.t JSValue) :=
  match keys with
  | [] => Ok acc
  | current :: rest =>
      let* acc' := validate_key type_ passCore_ acc current in
      validatedPassKeys type_ passCore_ acc' rest
  end.

(** [(passCore[type][fieldName] || []).filter(isValid Field)] *)
Definition template_fields (sub : JSValue) (s : FieldsArray.SlotName)
  : result (list JSValue) :=
  let* v := JS.prop sub (FieldsArray.slot_name s) in
  if JS.truthy v then
    match v with
    | JArray l => Ok (filter (isValid Field) l)
    | _ => Err TypeError
    end
  else Ok [].

(** Lines 158-165. *)
Fixpoint create_fields (sub : JSValue) (names : list FieldsArray.SlotName)
         (c : FieldsArray.t) : result FieldsArray.t :=
  match names with
  | [] => Ok c
  | s :: rest =>
      let* l := template_fields sub s in
      let* c' := FieldsArray.create s l c in
      create_fields sub rest c'
  end.

(** [new Pass(options)] (lines 61-166) *)
Definition construct (options : PassInstance) : result Pass :=
  if negb (isValidPassInstance options) then Err REQUIR_VALID_FAILED
  else
    let bundle_ := Obj.spread (pb_bundle (model options)) in
    match
      match Obj.get "pass.json" bundle_ with
      | Some b => JSON_parse b
      | None => None
      end
    with
    | None => Err PASSFILE_VALIDATION_FAILED
    | Some passCore_ =>
        match
          getValidatedOverrides
            (match overrides options with Some o => o | None => [] end)
        with
        | None => Err OVV_KEYS_BADFORMAT
        | Some validOverrides =>
            match passCore_ with
            | JUndefined | JNull => Err TypeError
            | JObject core =>
                match find is_type_key (Obj.keys core) with
                | None => Err NO_PASS_TYPE
                | Some type_ =>
                    let* validated :=
                      validatedPassKeys type_ core [] (Obj.keys core) in
                    let props_ :=
                      Obj.assign (Obj.spread validated) validOverrides in
                    let* sub := JS.prop passCore_ type_ in
                    let* transit :=
                      if type_ =? "boardingPass" then
                        let* t := JS.prop sub "transitType" in
                        Ok (if JS.truthy t then t else JString "")
                      else Ok (JString "") in
                    let* fields_ :=
                      create_fields sub FieldsArray._fields
                                    FieldsArray.empty in
                    Ok {| bundle := bundle_;
                          l10nBundles := l10nBundle (model options);
                          passProps := props_;
                          type := type_;
                          passCore := passCore_;
                          fields := fields_;
                          Certificates := certificates options;
                          transitType := transit;
                          l10nTranslations := [] |}
                end
            | _ => Err NO_PASS_TYPE
            end
        end
    end.

(** [localize] (lines 312-325).  A language code is a string, and the
    mapping, when given, a record. *)
Definition localize (lang : string) (translations : option (Obj.t string))
           (p : Pass) : Pass :=
  if negb (lang =? "") then
    with_l10nTranslations
      (Obj.set lang (match translations with Some t => t | None => [] end)
               (l10nTranslations p)) p
  else p.

(** [void] (lines 357-360) *)
Definition void (p : Pass) : Pass :=
  with_passProps (Obj.set "voided" (JBool true) (passProps p)) p.

(** [barcodesFromUncompleteData] (lines 664-679); a [null] outcome of
    the validation stays in the array. *)
Definition barcodesFromUncompleteData (message : JSValue) : list JSValue :=
  match message with
  | JString m =>
      if m =? "" then []
      else
        map (fun format =>
               match getValidated Barcode
                       (JObject [("format", JString format);
                                 ("message", JString m)]) with
               | Some v => v
               | None => JNull
               end)
            ["PKBarcodeFormatQR"; "PKBarcodeFormatPDF417";
             "PKBarcodeFormatAztec"; "PKBarcodeFormatCode128"]
  | _ => []
  end.

(** The reducer of lines 467-491. *)
Definition validBarcodes (data : list JSValue) : list JSValue :=
  fold_left
    (fun acc current =>
       if negb (JS.truthy current && JS.instanceofObject current) then acc
       else
         match getValidated Barcode current with
         | Some validated =>
             if JS.truthy validated && JS.instanceofObject validated
                && match JS.keys_length validated with
                   | Ok n => negb (n =? 0)%nat
                   | Err _ => false
                   end
             then (acc ++ [validated])%list
             else acc
         | None => acc
         end)
    data [].

(** [barcodes] (lines 443-499) *)
Definition barcodes (data : list JSValue) (p : Pass) : Pass :=
  match data with
  | JNull :: _ => with_passProps (Obj.delete "barcodes" (passProps p)) p
  | JString m :: _ =>
      let autogen := barcodesFromUncompleteData (JString m) in
      match autogen with
      | [] => p
      | _ => with_passProps
               (Obj.set "barcodes" (JArray autogen) (passProps p)) p
      end
  | _ =>
      match validBarcodes data with
      | [] => p
      | l => with_passProps (Obj.set "barcodes" (JArray l) (passProps p)) p
      end
  end.

(** [barcodes.findIndex(b => b.format.toLowerCase().includes(...))]:
    the first matching entry, if any. *)
Fixpoint findBarcode (chosenFormat : string) (l : list JSValue)
  : result (option JSValue) :=
  match l with
  | [] => Ok None
  | b :: r =>
      let* f := JS.prop b "format" in
      match f with
      | JString format =>
          if Str.includes (Str.toLowerCase format)
                          (Str.toLowerCase chosenFormat)
          then Ok (Some b)
          else findBarcode chosenFormat r
      | _ => Err TypeError
      end
  end.

(** [barcode] (lines 511-546).  A pool that is not an array but has a
    truthy [length] has no [findIndex]: the call throws. *)
Definition barcode (chosenFormat : JSValue) (p : Pass) : result Pass :=
  match chosenFormat with
  | JNull => Ok (with_passProps (Obj.delete "barcode" (passProps p)) p)
  | JString format =>
      if format =? "PKBarcodeFormatCode128" then Ok p
      else
        match Obj.get "barcodes" (passProps p) with
        | Some (JArray (b :: r)) =>
            let* found := findBarcode format (b :: r) in
            match found with
            | None => Ok p
            | Some x =>
                Ok (with_passProps (Obj.set "barcode" x (passProps p)) p)
            end
        | Some (JString s) => if s =? "" then Ok p else Err TypeError
        | Some (JObject o) =>
            match Obj.get "length" o with
            | Some n => if JS.truthy n then Err TypeError else Ok p
            | None => Ok p
            end
        | _ => Ok p
        end
  | _ => Ok p
  end.

(** [nfc] (lines 557-578) *)
Definition nfc (data : JSValue) (p : Pass) : Pass :=
  match data with
  | JNull => with_passProps (Obj.delete "nfc" (passProps p)) p
  | JObject _ =>
      if isValid NFC data
      then with_passProps (Obj.set "nfc" data (passProps p)) p
      else p
  | _ => p
  end.

(** [set transitType] (lines 641-649) *)
Definition set_transitType (value : JSValue) (p : Pass) : Pass :=
  if negb (isValid TransitType value) then
    with_transitType
      (if JS.truthy (transitType p) then transitType p else JString "") p
  else with_transitType value p.


(** ** [_patch] (lines 600-639) *)

Definition passColors : list string :=
  ["backgroundColor"; "foregroundColor"; "labelColor"].

(** Lines 618-623: the colour keys that hold a truthy value which is
    not an RGB string are deleted from the properties. *)
Definition prune_colors (props_ : Obj.t JSValue) : Obj.t JSValue :=
  fold_left (fun acc v => Obj.delete v acc)
    (filter (fun v =>
               match Obj.get v props_ with
               | Some x => JS.truthy x && negb (isValidRGB x)
               | None => false
               end) passColors)
    props_.

(** Lines 628-630: [passFile[type][field] = this[field]]. *)
Definition patch_fields (sub : Obj.t JSValue) (c : FieldsArray.t)
  : Obj.t JSValue :=
  fold_left
    (fun acc s =>
       Obj.set (FieldsArray.slot_name s) (JArray (FieldsArray.slot s c)) acc)
    FieldsArray._fields sub.

(** When the properties hold the category key themselves,
    [Object.assign] makes [passFile[type]] and [props[type]] one
    record, and what is written to the former shows in the latter. *)
Definition alias_write (type_ : string) (sub : Obj.t JSValue) (p : Pass)
  : Pass :=
  if Obj.has type_ (passProps p)
  then with_passProps (Obj.set type_ (JObject sub) (passProps p)) p
  else p.

(** The body of [_patch] up to the record it serializes.  The method
    is strict code (a class body): writing a property on a primitive
    throws, as reading one from [null] or [undefined] does.  Named
    properties written on an array are not serialized, so an array
    under the category key goes out unchanged. *)
Definition patch_passFile (passCoreBuffer : Buffer) (p : Pass)
  : Pass * result (Obj.t JSValue) :=
  match JSON_parse passCoreBuffer with
  | None => (p, Err SyntaxError)
  | Some parsed =>
      let p1 :=
        if negb (List.length (passProps p) =? 0)%nat
        then with_passProps (prune_colors (passProps p)) p else p in
      match parsed with
      | JObject passFile =>
          let passFile1 :=
            if negb (List.length (passProps p) =? 0)%nat
            then Obj.assign passFile (passProps p1) else passFile in
          let missing := (type p =? "boardingPass")
                         && negb (JS.truthy (transitType p)) in
          match Obj.get (type p) passFile1 with
          | Some (JObject sub) =>
              let sub1 := patch_fields sub (fields p) in
              let p2 := alias_write (type p) sub1 p1 in
              if missing then (p2, Err TRSTYPE_REQUIRED)
              else
                let sub2 := Obj.set "transitType" (transitType p) sub1 in
                let p3 := alias_write (type p) sub2 p2 in
                (p3, Ok (Obj.set (type p) (JObject sub2) passFile1))
          | Some (JArray _) =>
              if missing then (p1, Err TRSTYPE_REQUIRED)
              else (p1, Ok passFile1)
          | _ => (p1, Err TypeError)
          end
      | _ => (p1, Err TypeError)
      end
  end.

Definition _patch (passCoreBuffer : Buffer) (p : Pass)
  : Pass * result Buffer :=
  match patch_passFile passCoreBuffer p with
  | (p', Ok passFile) => (p', Ok (JSON_stringify (JObject passFile)))
  | (p', Err e) => (p', Err e)
  end.

(** ** [generate] (lines 175-297) *)

(** One turn of the loop of lines 208-262, on the localization bundle
    and the final bundle. *)
Definition l10n_step (translations : Obj.t (Obj.t string)) (lang : string)
           (st : L10nBundle * BundleUnit) : L10nBundle * BundleUnit :=
  let (l10n, finalBundle) := st in
  let strings :=
    Utils.generateStringFile
      (match Obj.get lang translations with Some t => t | None => [] end) in
  let languageBundleDirname := lang ++ ".lproj" in
  let l10n1 :=
    if negb (String.length strings =? 0)%nat then
      let languageBundleUnit :=
        match Obj.get languageBundleDirname l10n with
        | Some u => u
        | None => []
        end in
      Obj.set languageBundleDirname
        (Obj.set "pass.strings"
           ((match Obj.get "pass.strings" languageBundleUnit with
             | Some b => b
             | None => EmptyString
             end) ++ strings)
           languageBundleUnit)
        l10n
    else l10n in
  match Obj.get languageBundleDirname l10n1 with
  | None => (l10n1, finalBundle)
  | Some unit_ =>
      if (List.length unit_ =? 0)%nat then (l10n1, finalBundle)
      else
        let bundleRelativeL10NPaths :=
          fold_left
            (fun acc entry =>
               let fullPath :=
                 Str.replace_first Str.backslash Str.slash
                   (Path.join languageBundleDirname (fst entry)) in
               extend acc fullPath (snd entry))
            unit_ [] in
        (l10n1, Obj.assign finalBundle bundleRelativeL10NPaths)
  end.

(** The [for] of lines 208-212 walks the codes from the last to the
    first and stops at a falsy one; [codes] is already reversed. *)
Fixpoint l10n_loop (translations : Obj.t (Obj.t string))
         (codes : list string) (st : L10nBundle * BundleUnit)
  : L10nBundle * BundleUnit :=
  match codes with
  | [] => st
  | lang :: rest =>
      if lang =? "" then st
      else l10n_loop translations rest (l10n_step translations lang st)
  end.

Abbreviation Archive := (list (string * Buffer)) (only parsing).

(** Lines 269-282: every entry is hashed and pushed into the archive. *)
Definition manifest_step (st : Manifest * Archive) (entry : string * Buffer)
  : Manifest * Archive :=
  (extend (fst st) (fst entry) (Utils.toHex (sha1 (snd entry))),
   (snd st ++ [(fst entry, snd entry)])%list).

Definition build_manifest (finalBundle : BundleUnit) : Manifest * Archive :=
  fold_left manifest_step finalBundle ([], []).

Definition manifest_json (m : Manifest) : JSValue :=
  JObject (map (fun kv => (fst kv, JString (snd kv))) m).

(** Lines 177-198: the patched [pass.json] is stored back and the
    personalization files are pruned. *)
Definition prune_personalization (p : Pass) : Pass :=
  let currentBundleFiles := Obj.keys (bundle p) in
  if negb (JS.truthy (match Obj.get "nfc" (passProps p) with
                      | Some v => v | None => JUndefined end))
     && existsb (String.eqb "personalization.json") currentBundleFiles
  then
    with_bundle
      (Utils.deletePersonalization (bundle p)
         (Utils.getAllFilesWithName "personalizationLogo" currentBundleFiles))
      p
  else p.

(** Lines 200-262: the final bundle, and the localization bundle as
    the loop leaves it in the shared store. *)
Definition merge_l10n (p : Pass) (h : Heap) : result (Heap * BundleUnit) :=
  let finalBundle := Obj.spread (bundle p) in
  match rev (Obj.keys (l10nTranslations p)) with
  | [] => Ok (h, finalBundle)
  | lang :: rest =>
      if lang =? "" then Ok (h, finalBundle)
      else
        match heap_read (l10nBundles p) h with
        | None => Err TypeError
        | Some l10n =>
            let (l10n', finalBundle') :=
              l10n_loop (l10nTranslations p) (lang :: rest)
                        (l10n, finalBundle) in
            Ok (heap_write (l10nBundles p) l10n' h, finalBundle')
        end
  end.

(** [generate()]: the instance and the store as the call leaves them,
    and the entries pushed into the archive, in order, or the error
    thrown. *)
Definition generate (p : Pass) (h : Heap) : Pass * Heap * result Archive :=
  match Obj.get "pass.json" (bundle p) with
  | None => (p, h, Err TypeError)
  | Some passJson =>
      match _patch passJson p with
      | (p1, Err e) => (p1, h, Err e)
      | (p1, Ok patched) =>
          let p2 := prune_personalization
                      (with_bundle (Obj.set "pass.json" patched (bundle p1)) p1) in
          match merge_l10n p2 h with
          | Err e => (p2, h, Err e)
          | Ok (h', finalBundle) =>
              let (manifest, archive) := build_manifest finalBundle in
              match Signature_create manifest (Certificates p2) with
              | None => (p2, h', Err SignatureError)
              | Some signatureBuffer =>
                  (p2, h',
                   Ok (archive ++
                       [("signature", signatureBuffer);
                        ("manifest.json",
                         JSON_stringify (manifest_json manifest))])%list)
              end
          end
      end
  end.

(** ** [getModelContents] of [parser.ts] (lines 35-92) *)

(** The checks run on a loaded model: [pass.json] and an icon are
    required, and the personalization files are dropped unless a logo is
    there and the descriptor is not empty, parses and is valid. *)
Definition checkModelContents (bundle_ : BundleUnit) : result BundleUnit :=
  let modelFiles := Obj.keys bundle_ in
  let isModelInitialized :=
    existsb (String.eqb "pass.json") modelFiles
    && Utils.hasFilesWithName "icon" modelFiles in
  if negb isModelInitialized then Err MODEL_UNINITIALIZED
  else
    match Obj.get "personalization.json" bundle_ with
    | None => Ok bundle_
    | Some descriptor =>
        let logoFullNames :=
          Utils.getAllFilesWithName "personalizationLogo" modelFiles in
        if negb (negb (List.length logoFullNames =? 0)%nat
                 && negb (String.length descriptor =? 0)%nat)
        then Ok (Utils.deletePersonalization bundle_ logoFullNames)
        else
          match JSON_parse descriptor with
          | Some parsedPersonalization =>
              if isValid Personalization parsedPersonalization
              then Ok bundle_
              else Ok (fold_left (fun b file => Obj.delete file b)
                                 (logoFullNames ++ ["personalization.json"])%list
                                 bundle_)
          | None => Ok (Utils.deletePersonalization bundle_ logoFullNames)
          end
    end.

End PassMethods.


(* ================================================================== *)
(** * A concrete set of collaborators *)
(* ================================================================== *)

(** Stand-ins for the modules outside [src/], on which the pipeline can
    be run: a JSON printer with the engine's treatment of [undefined]
    (dropped from records, [null] in arrays), a reader that inverts it
    on a table of documents, Joi shapes reduced to their required keys,
    and a signer that always succeeds. *)
Module Sample.

Fixpoint escape (s : string) : string :=
  match s with
  | EmptyString => EmptyString
  | String c r =>
      if Ascii.eqb c Utils.dquote || Ascii.eqb c Str.backslash
      then String Str.backslash (String c (escape r))
      else String c (escape r)
  end.

Definition quote (s : string) : string :=
  String Utils.dquote (escape s ++ String Utils.dquote EmptyString).

Fixpoint somes {A} (l : list (option A)) : list A :=
  match l with
  | [] => []
  | Some x :: r => x :: somes r
  | None :: r => somes r
  end.

Fixpoint stringify (v : JSValue) : string :=
  match v with
  | JUndefined | JNull => "null"
  | JBool true => "true"
  | JBool false => "false"
  | JNumber n => DecimalString.NilZero.string_of_int (Z.to_int n)
  | JString s => quote s
  | JArray l => "[" ++ Str.join "," (map stringify l) ++ "]"
  | JObject o =>
      "{" ++ Str.join ","
               (somes (map (fun kv =>
                              match kv with
                              | (_, JUndefined) => None
                              | (k, x) => Some (quote k ++ ":" ++ stringify x)
                              end) o))
          ++ "}"
  end.

Definition parse (documents : list JSValue) (b : Buffer) : option JSValue :=
  find (fun v => stringify v =? b) documents.

Definition has_string (k : string) (v : JSValue) : bool :=
  match JS.prop v k with
  | Ok (JString s) => negb (s =? "")
  | _ => false
  end.

Definition transitTypes : list string :=
  ["PKTransitTypeAir"; "PKTransitTypeBoat"; "PKTransitTypeBus";
   "PKTransitTypeGeneric"; "PKTransitTypeTrain"].

Definition valid (s : Schema) (v : JSValue) : bool :=
  match s with
  | TransitType =>
      match v with
      | JString t => existsb (String.eqb t) transitTypes
      | _ => false
      end
  | Field => has_string "key" v
  | Barcode => has_string "format" v && has_string "message" v
  | NFC => has_string "message" v
  | _ => match v with JObject _ => true | _ => false end
  end.

(** Validation fills in the default of a missing attribute. *)
Definition validated (s : Schema) (v : JSValue) : option JSValue :=
  if valid s v then
    match s, v with
    | Barcode, JObject o =>
        Some (JObject (if Obj.has "messageEncoding" o then o
                       else Obj.set "messageEncoding" (JString "iso-8859-1") o))
    | _, _ => Some v
    end
  else None.

Definition whitelist : list string :=
  ["serialNumber"; "description"; "organizationName"; "logoText";
   "sharingProhibited"; "backgroundColor"; "foregroundColor"; "labelColor";
   "groupingIdentifier"; "suppressStripShine"].

Definition rgb (v : JSValue) : bool :=
  match v with
  | JString s =>
      Str.startsWith s "rgb("
      && match Str.last_char s with
         | Some c => Ascii.eqb c ")"%char
         | None => false
         end
  | _ => false
  end.

Definition collaborators (documents : list JSValue) : Collaborators :=
  {| isValid := valid;
     getValidated := validated;
     isValidPassInstance := fun _ => true;
     overridable := fun k => existsb (String.eqb k) whitelist;
     override_ok := fun _ v =>
                      match v with
                      | JString _ | JBool _ | JNumber _ => true
                      | _ => false
                      end;
     isValidRGB := rgb;
     Signature_create := fun _ _ => Some "signed";
     sha1 := fun b => b;
     JSON_parse := parse documents;
     JSON_stringify := stringify |}.

Definition identity : CertificatesSchema :=
  {| wwdr := "wwdr"; signerCert := "cert"; signerKey := "key";
     signerKeyPassphrase := None |}.

(** A store-card template with personalization files and an English
    folder. *)
Definition storeCard_json : JSValue :=
  JObject [("formatVersion", JNumber 1);
           ("backgroundColor", JString "rgb(10,20,30)");
           ("storeCard",
            JObject [("primaryFields",
                      JArray [JObject [("key", JString "balance");
                                       ("value", JString "21.75")]])])].

(** A boarding-pass template that names no transit type. *)
Definition boardingPass_json : JSValue :=
  JObject [("formatVersion", JNumber 1);
           ("boardingPass", JObject [])].

Definition bundle_of (doc : JSValue) : BundleUnit :=
  [("pass.json", stringify doc); ("icon.png", "ICON");
   ("personalization.json", "{}"); ("personalizationLogo.png", "LOGO")].

Definition store : Heap :=
  [[("en.lproj", [("pass.strings", "OLD;"); ("logo.png", "EN-LOGO")])]].

Definition options (doc : JSValue) (ovr : option (Obj.t JSValue))
  : PassInstance :=
  {| model := {| pb_bundle := bundle_of doc; l10nBundle := 0 |};
     certificates := identity;
     overrides := ovr |}.

Definition blank : Pass :=
  {| bundle := []; l10nBundles := 0; passProps := []; type := EmptyString;
     passCore := JUndefined; fields := FieldsArray.empty;
     Certificates := identity; transitType := JString EmptyString;
     l10nTranslations := [] |}.

Definition unwrap_file (r : result (Obj.t JSValue)) : Obj.t JSValue :=
  match r with Ok o => o | Err _ => [] end.

Definition unwrap (r : result Pass) : Pass :=
  match r with Ok p => p | Err _ => blank end.

(** The store card, with a greeting staged for English and French. *)
Definition env1 : Collaborators := collaborators [storeCard_json].

Definition storeCard_pass : Pass :=
  Eval vm_compute in
  localize "fr" (Some [("HELLO", "Salut")])
    (localize "en" (Some [("HELLO", "Hi")])
       (unwrap (@construct env1 (options storeCard_json None)))).

(** The boarding pass, constructed from a template without transit
    type. *)
Definition env3 : Collaborators := collaborators [boardingPass_json].

Definition boarding_pass : Pass :=
  Eval vm_compute in
  unwrap (@construct env3 (options boardingPass_json None)).

(** The store card again, with a background colour overridden by a
    string that is no RGB colour. *)
Definition bad_color : Obj.t JSValue :=
  [("backgroundColor", JString "not-a-color"); ("logoText", JString "Shop")].

Definition recolored_pass : Pass :=
  Eval vm_compute in
  unwrap (@construct env1 (options storeCard_json (Some bad_color))).

(** Overrides with a key outside the whitelist. *)
Definition stray : Obj.t JSValue :=
  [("logoText", JString "Shop"); ("formatVersion", JNumber 7);
   ("nonsense", JBool true)].

(** The same collaborators, able to read back the [pass.json] that a
    first [generate] stores in the instance. *)
Definition storeCard_patched : JSValue :=
  Eval vm_compute in
  JObject (unwrap_file
             (snd (@patch_passFile env1 (stringify storeCard_json)
                                   storeCard_pass))).

Definition env2 : Collaborators :=
  collaborators [storeCard_json; storeCard_patched].

End Sample.

(* ================================================================== *)
(** * Vocabulary of the statements *)
(* ================================================================== *)

Module Vocabulary.
Import Str Path.

(** A folder name [lang.lproj] for a language code without separators,
    and a file name that is one path segment. *)
Definition lang_ok (lang : string) : bool :=
  negb (lang =? "")
  && negb (contains_char slash lang) && negb (contains_char backslash lang).

Definition lproj (lang : string) : string := lang ++ ".lproj".

(** The path a localization file is archived under (lines 251-253). *)
Definition flat (dir fileName : string) : string :=
  replace_first backslash slash (Path.join dir fileName).

(** The string table rendered from the mapping staged for [lang]. *)
Definition rendered (translations : Obj.t (Obj.t string)) (lang : string)
  : Buffer :=
  Utils.generateStringFile
    (match Obj.get lang translations with Some t => t | None => [] end).

(** The bytes of [pass.strings] a folder already holds, if any. *)
Definition existing_strings (folder : option BundleUnit) : Buffer :=
  match folder with
  | Some u => match Obj.get "pass.strings" u with
              | Some b => b
              | None => EmptyString
              end
  | None => EmptyString
  end.

(** A folder after the merge of lines 216-231: untouched when nothing
    was rendered, and otherwise with [pass.strings] holding the old
    bytes followed by the rendered ones. *)
Definition merged_folder (strings : Buffer) (folder : option BundleUnit)
  : option BundleUnit :=
  if (String.length strings =? 0)%nat then folder
  else Some (Obj.set "pass.strings" (existing_strings folder ++ strings)
                     (match folder with Some u => u | None => [] end)).

(** The localization bundle is a record of records, each key once, and
    its files are named by one path segment. *)
Definition folders_ok (l10n : L10nBundle) : Prop :=
  Obj.wf l10n /\
  forall dir u, In (dir, u) l10n ->
    Obj.wf u /\ forall f, In f (Obj.keys u) -> plain f = true.

(** The staged languages: each code once, none empty, none with a path
    separator. *)
Definition staged_ok (translations : Obj.t (Obj.t string)) : Prop :=
  Obj.wf translations /\
  forall lang, In lang (Obj.keys translations) -> lang_ok lang = true.

(** The same two conditions as tests. *)
Fixpoint distinct (l : list string) : bool :=
  match l with
  | [] => true
  | x :: r => negb (existsb (String.eqb x) r) && distinct r
  end.

Definition staged_okb (translations : Obj.t (Obj.t string)) : bool :=
  distinct (Obj.keys translations) && forallb lang_ok (Obj.keys translations).

Definition folders_okb (l10n : L10nBundle) : bool :=
  distinct (Obj.keys l10n)
  && forallb (fun e => distinct (Obj.keys (snd e))
                       && forallb plain (Obj.keys (snd e))) l10n.

(** The instance declares an NFC payload: [this[passProps].nfc] is
    truthy. *)
Definition nfc_declared (p : Pass) : bool :=
  JS.truthy (match Obj.get "nfc" (passProps p) with
             | Some v => v
             | None => JUndefined
             end).

(** The personalization artifacts: the descriptor and the logos. *)
Definition is_personalization_file (name : string) : bool :=
  (name =? "personalization.json") || startsWith name "personalizationLogo".

(** A barcode entry of the given format and message. *)
Definition barcode_entry (format message : string) (b : JSValue) : Prop :=
  JS.prop b "format" = Ok (JString format) /\
  JS.prop b "message" = Ok (JString message).

(** The formats [barcodesFromUncompleteData] generates, in order. *)
Definition barcode_formats : list string :=
  ["PKBarcodeFormatQR"; "PKBarcodeFormatPDF417";
   "PKBarcodeFormatAztec"; "PKBarcodeFormatCode128"].

End Vocabulary.

Section Digest.
Context {C : Collaborators}.

(** The manifest entry of an archived file. *)
Definition digest_entry (e : string * Buffer) : string * string :=
  (fst e, Utils.toHex (sha1 (snd e))).

End Digest.

Section Metadata.
Context {C : Collaborators}.

(** The instance's [pass.json] parses to the record [core], which holds
    the record [sub] under the category key, and the properties do not
    hold the category key themselves. *)
Definition metadata_record (p : Pass) (core sub : Obj.t JSValue) : Prop :=
  (exists passJson,
      Obj.get "pass.json" (bundle p) = Some passJson /\
      JSON_parse passJson = Some (JObject core)) /\
  Obj.get (type p) core = Some (JObject sub) /\
  Obj.has (type p) (passProps p) = false.

(** The top-level record after [Object.assign(passFile, props)]
    (lines 605-626). *)
Definition overlaid (p : Pass) (core : Obj.t JSValue) : Obj.t JSValue :=
  if negb (List.length (passProps p) =? 0)%nat
  then Obj.assign core (prune_colors (passProps p)) else core.

(** The category sub-record as [_patch] serializes it. *)
Definition patched_category (p : Pass) (sub : Obj.t JSValue) : Obj.t JSValue :=
  Obj.set "transitType" (transitType p) (patch_fields sub (fields p)).

(** The transit subtype is unresolved: the stored value is falsy. *)
Definition transit_unresolved (p : Pass) : bool :=
  negb (JS.truthy (transitType p)).

(** What [generate] needs beside the metadata: a readable localization
    bundle when languages are staged, and a signer that signs. *)
Definition can_sign (p : Pass) : Prop :=
  forall m, Signature_create m (Certificates p) <> None.

Definition store_readable (p : Pass) (h : Heap) : Prop :=
  l10nTranslations p = [] \/ heap_read (l10nBundles p) h <> None.

(** A colour key whose value [_patch] rejects (lines 618-623): truthy,
    and not an RGB string. *)
Definition color_rejected (k : string) (v : JSValue) : bool :=
  existsb (String.eqb k) passColors && JS.truthy v && negb (isValidRGB v).

(** The constructor's [options] with another [overrides] record. *)
Definition with_overrides (o : option (Obj.t JSValue)) (options : PassInstance)
  : PassInstance :=
  {| model := model options; certificates := certificates options;
     overrides := o |}.

(** The whitelisted part of an overrides record. *)
Definition whitelisted (o : Obj.t JSValue) : Obj.t JSValue :=
  filter (fun kv => overridable (fst kv)) o.

End Metadata.

(** The localization loop of [generate], specified. *)
Module LoopSpec.
Import Vocabulary.

(** What one turn does to the two bundles. *)
Definition step_spec (trs : Obj.t (Obj.t string)) (lang : string)
           (l10n : L10nBundle) (fb : BundleUnit)
           (l10n1 : L10nBundle) (fb1 : BundleUnit) : Prop :=
  folders_ok l10n1 /\
  Obj.get (lproj lang) l10n1
    = merged_folder (rendered trs lang) (Obj.get (lproj lang) l10n) /\
  (forall dir, dir <> lproj lang -> Obj.get dir l10n1 = Obj.get dir l10n) /\
  (forall u f b,
      Obj.get (lproj lang) l10n1 = Some u -> Obj.get f u = Some b ->
      Obj.get (lproj lang ++ "/" ++ f) fb1 = Some b) /\
  (forall key,
      (forall u f, Obj.get (lproj lang) l10n1 = Some u ->
                   In f (Obj.keys u) -> key <> lproj lang ++ "/" ++ f) ->
      Obj.get key fb1 = Obj.get key fb) /\
  (forall key,
      In key (Obj.keys fb1) ->
      In key (Obj.keys fb) \/
      exists u f, Obj.get (lproj lang) l10n1 = Some u /\
                  In f (Obj.keys u) /\ key = lproj lang ++ "/" ++ f).

(** What the whole loop does, for distinct well-formed codes. *)
Definition loop_spec (trs : Obj.t (Obj.t string)) (codes : list string)
           (l10n : L10nBundle) (fb : BundleUnit)
           (l10n' : L10nBundle) (fb' : BundleUnit) : Prop :=
  folders_ok l10n' /\
  (forall lang, In lang codes ->
     Obj.get (lproj lang) l10n'
       = merged_folder (rendered trs lang) (Obj.get (lproj lang) l10n)) /\
  (forall dir, (forall lang, In lang codes -> dir <> lproj lang) ->
     Obj.get dir l10n' = Obj.get dir l10n) /\
  (forall lang u f b, In lang codes ->
     Obj.get (lproj lang) l10n' = Some u -> Obj.get f u = Some b ->
     Obj.get (lproj lang ++ "/" ++ f) fb' = Some b) /\
  (forall key,
     (forall lang u f, In lang codes ->
        Obj.get (lproj lang) l10n' = Some u ->
        In f (Obj.keys u) -> key <> lproj lang ++ "/" ++ f) ->
     Obj.get key fb' = Obj.get key fb) /\
  (forall key, In key (Obj.keys fb') ->
     In key (Obj.keys fb) \/
     exists lang u f, In lang codes /\ Obj.get (lproj lang) l10n' = Some u /\
                      In f (Obj.keys u) /\ key = lproj lang ++ "/" ++ f).

End LoopSpec.

(** Two instances that differ at most in their properties. *)
Definition same_but_props (p q : Pass) : Prop :=
  bundle q = bundle p /\ l10nBundles q = l10nBundles p /\
  type q = type p /\ fields q = fields p /\
  Certificates q = Certificates p /\ transitType q = transitType p /\
  l10nTranslations q = l10nTranslations p.

(* ================================================================== *)
(** * The other builder methods of [class Pass] *)
(* ================================================================== *)

Section Relevance.

Context {C : Collaborators}.

(** [beacons] (lines 370-383).  [getValidInArray] reads the keys of
    every entry, which throws on [null] and [undefined]. *)
Definition beacons (data : list JSValue) (p : Pass) : result Pass :=
  match data with
  | JNull :: _ => Ok (with_passProps (Obj.delete "beacons" (passProps p)) p)
  | _ =>
      let* valid := getValidInArray Beacon data in
      Ok (if negb (List.length valid =? 0)%nat
          then with_passProps
                 (Obj.set "beacons" (JArray valid) (passProps p)) p
          else p)
  end.

(** [locations] (lines 393-406) *)
Definition locations (data : list JSValue) (p : Pass) : result Pass :=
  match data with
  | JNull :: _ => Ok (with_passProps (Obj.delete "locations" (passProps p)) p)
  | _ =>
      let* valid := getValidInArray Location data in
      Ok (if negb (List.length valid =? 0)%nat
          then with_passProps
                 (Obj.set "locations" (JArray valid) (passProps p)) p
          else p)
  end.

End Relevance.

(** ** Dates *)

Section Dates.

(** [Date] objects, and [dateToW3CString] of [./utils], which gives the
    formatted string or a falsy value. *)
Variable Date : Type.
Variable dateToW3CString : Date -> JSValue.

(** What a caller can hand to [expiration] and [relevantDate]: a [Date]
    or any other value. *)
Inductive DateArg : Type :=
| ADate (d : Date)
| AValue (v : JSValue).

(** [processDate] (lines 691-704) *)
Definition processDate (key : string) (date : DateArg) : JSValue :=
  match date with
  | AValue _ => JNull
  | ADate d =>
      let dateParse := dateToW3CString d in
      if negb (JS.truthy dateParse) then JNull else dateParse
  end.

(** [expiration] (lines 335-348) *)
Definition expiration (date : DateArg) (p : Pass) : Pass :=
  match date with
  | AValue JNull =>
      with_passProps (Obj.delete "expirationDate" (passProps p)) p
  | _ =>
      let parsedDate := processDate "expirationDate" date in
      if JS.truthy parsedDate
      then with_passProps
             (Obj.set "expirationDate" parsedDate (passProps p)) p
      else p
  end.

(** [relevantDate] (lines 414-427) *)
Definition relevantDate (date : DateArg) (p : Pass) : Pass :=
  match date with
  | AValue JNull =>
      with_passProps (Obj.delete "relevantDate" (passProps p)) p
  | _ =>
      let parsedDate := processDate "relevantDate" date in
      if JS.truthy parsedDate
      then with_passProps
             (Obj.set "relevantDate" parsedDate (passProps p)) p
      else p
  end.

End Dates.

Arguments ADate {Date} d.
Arguments AValue {Date} v.

(* ================================================================== *)
(** * Vocabulary of the further statements *)
(* ================================================================== *)

Section ConstructorVocabulary.

Context {C : Collaborators}.

(** The metadata the constructor reads: [pass.json] of the copied
    bundle, parsed (lines 69-75). *)
Definition template_metadata (options : PassInstance) : option JSValue :=
  match Obj.get "pass.json" (Obj.spread (pb_bundle (model options))) with
  | Some b => JSON_parse b
  | None => None
  end.

(** [options.overrides || {}] *)
Definition given_overrides (options : PassInstance) : Obj.t JSValue :=
  match overrides options with Some o => o | None => [] end.

(** The first key of a parsed record that matches the category pattern
    (lines 88-90); a parsed value that is no record has no such key. *)
Definition category_key (v : JSValue) : option string :=
  match v with
  | JObject core => find is_type_key (Obj.keys core)
  | _ => None
  end.

(** The test of [getValidInArray] on one entry that has keys to read. *)
Definition kept (schemaName : Schema) (current : JSValue) : bool :=
  match JS.keys_length current with
  | Ok n => negb (n =? 0)%nat && isValid schemaName current
  | Err _ => false
  end.

(** An entry whose keys cannot be read. *)
Definition nullish (v : JSValue) : bool :=
  match v with JUndefined | JNull => true | _ => false end.

(** What the reducer of lines 101-142 stores under a template key. *)
Definition validated_value (core : Obj.t JSValue) (k : string) : JSValue :=
  let v := match Obj.get k core with Some x => x | None => JUndefined end in
  match propsSchemaMap k with
  | None => v
  | Some currentSchema =>
      match v with
      | JArray l => JArray (filter (kept currentSchema) l)
      | _ => if isValid currentSchema v && JS.truthy v then v else JUndefined
      end
  end.

End ConstructorVocabulary.

Section BuilderVocabulary.

Context {C : Collaborators}.

(** The test of [barcode] on one entry of the pool (lines 532-534). *)
Definition format_matches (chosenFormat : string) (b : JSValue) : bool :=
  match JS.prop b "format" with
  | Ok (JString format) =>
      Str.includes (Str.toLowerCase format) (Str.toLowerCase chosenFormat)
  | _ => false
  end.

(** What the reducer of [barcodes] makes of one argument (lines
    467-491): its validated form, or nothing. *)
Definition accepted_barcode (current : JSValue) : option JSValue :=
  if JS.truthy current && JS.instanceofObject current then
    match getValidated Barcode current with
    | Some validated =>
        if JS.truthy validated && JS.instanceofObject validated
           && match JS.keys_length validated with
              | Ok n => negb (n =? 0)%nat
              | Err _ => false
              end
        then Some validated else None
    | None => None
    end
  else None.

(** The entries [barcodes] stores from its arguments, in order. *)
Definition accepted_barcodes (data : list JSValue) : list JSValue :=
  flat_map (fun current =>
              match accepted_barcode current with
              | Some validated => [validated]
              | None => []
              end) data.

End BuilderVocabulary.

(** [q] is [p] but for the property [key]. *)
Definition touches_only (key : string) (p q : Pass) : Prop :=
  same_but_props p q /\ passCore q = passCore p /\
  forall k, k <> key -> Obj.get k (passProps q) = Obj.get k (passProps p).

(* ================================================================== *)
(** * [parser.ts] *)
(* ================================================================== *)

(** The errors of [parser.ts]: its own [ERROR.*] messages, an error of
    the kinds above passed on ([MODEL_UNINITIALIZED], the engine's
    [TypeError]), and what node-forge or the folder loader throw. *)
Inductive ParserError : Type :=
| MODEL_NOT_VALID
| CP_NO_CERTS
| INVALID_CERTS (certName : string)
| INVALID_CERT_PATH
| Passed (e : Error)
| Foreign.

Inductive outcome (A : Type) : Type :=
| Done (a : A)
| Failed (e : ParserError).
Arguments Done {A} a.
Arguments Failed {A} e.

(** What the loaders return: the files of the model and its
    localization folders. *)
Record ModelContents : Type := {
  mc_bundle : BundleUnit;
  mc_l10nBundle : L10nBundle;
}.

(** The [model] option: a path, a record of buffers (a key may hold no
    content), [null], or a value of another type. *)
Inductive ModelArg : Type :=
| ModelPath (path : string)
| ModelRecord (m : Obj.t (option Buffer))
| ModelNull
| ModelOther.

Section ModelLoading.

Context {C : Collaborators}.

(** [removeHidden] and [splitBufferBundle] of [./utils], and the folder
    loader [getModelFolderContents], which reads the file system. *)
Variable removeHidden : list string -> list string.
Variable splitBufferBundle : BundleUnit -> L10nBundle * BundleUnit.
Variable getModelFolderContents : string -> outcome ModelContents.

(** The pattern of line 244, [test]ed unanchored and case-sensitive. *)
Definition is_generated_name (current : string) : bool :=
  Str.includes current "manifest" || Str.includes current "signature".

(** The reducer of lines 238-249. *)
Definition rawBundle (model : Obj.t (option Buffer)) : BundleUnit :=
  fold_left
    (fun acc current =>
       match Obj.get current model with
       | Some (Some content) =>
           if is_generated_name current then acc
           else extend acc current content
       | _ => acc
       end)
    (removeHidden (Obj.keys model)) [].

(** [getModelBufferContents] (lines 235-268) *)
Definition getModelBufferContents (model : Obj.t (option Buffer))
  : result ModelContents :=
  let bundleKeys := Obj.keys (rawBundle model) in
  let isModelInitialized :=
    negb (List.length bundleKeys =? 0)%nat
    && Utils.hasFilesWithName "icon" bundleKeys in
  if negb isModelInitialized then Err MODEL_UNINITIALIZED
  else
    let (l10nBundle_, bundle_) := splitBufferBundle (rawBundle model) in
    Ok {| mc_bundle := bundle_; mc_l10nBundle := l10nBundle_ |}.

Definition passed {A} (r : result A) : outcome A :=
  match r with Ok a => Done a | Err e => Failed (Passed e) end.

(** [getModelContents] (lines 24-93): the loader is chosen by the type
    of [model], then the checks run on what it loaded. *)
Definition getModelContents (model : ModelArg) : outcome ModelContents :=
  match
    match model with
    | ModelPath path => getModelFolderContents path
    | ModelRecord m =>
        if negb (List.length (Obj.keys m) =? 0)%nat
        then passed (getModelBufferContents m)
        else Failed MODEL_NOT_VALID
    | ModelNull => Failed (Passed TypeError)
    | ModelOther => Failed MODEL_NOT_VALID
    end
  with
  | Failed e => Failed e
  | Done modelContents =>
      match checkModelContents (mc_bundle modelContents) with
      | Err e => Failed (Passed e)
      | Ok bundle_ =>
          Done {| mc_bundle := bundle_;
                  mc_l10nBundle := mc_l10nBundle modelContents |}
      end
  end.

End ModelLoading.

(** ** Certificates *)

(** A value of the [certificates] option: a string, or a record with
    [keyFile] and [passphrase] (either may be missing).  [null] reads
    like a record with neither. *)
Inductive CertValue : Type :=
| CertString (s : string)
| CertObject (keyFile : option string) (passphrase : option string).

(** What a node-forge parser gives: a parsed object, [null], or an
    exception. *)
Inductive ForgeResult (Pem : Type) : Type :=
| Parsed (pem : Pem)
| Nothing
| Raised.
Arguments Parsed {Pem} pem.
Arguments Nothing {Pem}.
Arguments Raised {Pem}.

Section Certificates.

(** node-forge's parsed objects and its two parsers; the shape check of
    the options; whether [path.parse(content).ext] is not empty; and
    [readFile(path.resolve(content))], whose failure is an error that
    carries a [path]. *)
Variable Pem : Type.
Variable certificateFromPem : string -> ForgeResult Pem.
Variable decryptRsaPrivateKey : string -> string -> ForgeResult Pem.
Variable isValidCertificates : Obj.t CertValue -> bool.
Variable hasExtension : string -> bool.
Variable readFile : string -> option string.

(** [parsePEM] (lines 358-364) *)
Definition parsePEM (pemName : string) (element : string)
           (passphrase : option string) : ForgeResult Pem :=
  match passphrase with
  | Some phrase =>
      if (pemName =? "signerKey") && negb (phrase =? "")
      then decryptRsaPrivateKey element phrase
      else certificateFromPem element
  | None => certificateFromPem element
  end.

(** Lines 293-305: the documents by key, with the key file in place of
    a [signerKey] record.  A value that is no string gives [None]. *)
Definition flattenedDocs (options : Obj.t CertValue)
  : Obj.t (option string) :=
  let signerKey :=
    match Obj.get "signerKey" options with
    | Some (CertObject keyFile _) => keyFile
    | Some (CertString s) => Some s
    | None => None
    end in
  Obj.assign
    (Obj.assign []
       (map (fun kv => (fst kv,
                        match snd kv with
                        | CertString s => Some s
                        | CertObject _ _ => None
                        end)) options))
    [("signerKey", signerKey)].

(** Lines 324-327 *)
Definition passphraseOf (options : Obj.t CertValue) : option string :=
  match Obj.get "signerKey" options with
  | Some (CertObject _ (Some phrase)) =>
      if phrase =? "" then None else Some phrase
  | _ => None
  end.

(** Lines 308-318, first half: [path.parse] throws on a content that
    is no string, before anything is read. *)
Fixpoint contents (docs : list (option string)) : outcome (list string) :=
  match docs with
  | [] => Done []
  | None :: _ => Failed (Passed TypeError)
  | Some content :: rest =>
      match contents rest with
      | Done l => Done (content :: l)
      | Failed e => Failed e
      end
  end.

(** Lines 308-321: a content with an extension is a path and is read;
    a read that fails is reported as [INVALID_CERT_PATH]. *)
Fixpoint readAll (l : list string) : outcome (list string) :=
  match l with
  | [] => Done []
  | content :: rest =>
      match
        (if hasExtension content then readFile content else Some content),
        readAll rest
      with
      | Some file, Done files => Done (file :: files)
      | _, _ => Failed INVALID_CERT_PATH
      end
  end.

(** Lines 322-338: the documents are parsed in order, each under the
    name found at its index among the keys of [options]. *)
Fixpoint parseAll (names : list string) (passphrase : option string)
         (index : nat) (files : list string) (acc : Obj.t Pem)
  : outcome (Obj.t Pem) :=
  match files with
  | [] => Done acc
  | file :: rest =>
      let certName := nth index names "undefined" in
      match parsePEM certName file passphrase with
      | Parsed pem =>
          parseAll names passphrase (S index) rest (Obj.set certName pem acc)
      | Nothing => Failed (INVALID_CERTS certName)
      | Raised => Failed Foreign
      end
  end.

(** [readCertificatesFromOptions] (lines 280-348) *)
Definition readCertificatesFromOptions (options : option (Obj.t CertValue))
  : outcome (Obj.t Pem) :=
  match options with
  | None => Failed CP_NO_CERTS
  | Some o =>
      if negb (negb (List.length (Obj.keys o) =? 0)%nat
               && isValidCertificates o)
      then Failed CP_NO_CERTS
      else
        match contents (map snd (flattenedDocs o)) with
        | Failed e => Failed e
        | Done l =>
            match readAll l with
            | Failed e => Failed e
            | Done files =>
                parseAll (Obj.keys o) (passphraseOf o) 0 files []
            end
        end
  end.

End Certificates.

(** The document given under a key of the [certificates] option: the
    string itself, or the key file of a [signerKey] record. *)
Definition document (options : Obj.t CertValue) (name : string)
  : option string :=
  match Obj.get name options with
  | Some (CertString s) => Some s
  | Some (CertObject keyFile _) =>
      if name =? "signerKey" then keyFile else None
  | None => None
  end.

(* ================================================================== *)
(** * Where the files of the localization bundle go *)
(* ================================================================== *)

Module Placement.
Import Str Path Vocabulary.



(** The folder of [lang] after the merge of lines 216-231. *)
Definition merged (translations : Obj.t (Obj.t string)) (l10n : L10nBundle)
           (lang : string) : option BundleUnit :=
  merged_folder (rendered translations lang) (Obj.get (lproj lang) l10n).



(** A file name that is one path segment; a backslash is an ordinary
    character of it. *)
Definition segment (s : string) : bool :=
  negb (s =? "") && negb (s =? ".") && negb (s =? "..")
  && negb (contains_char slash s).


End Placement.

(** The same collaborators with another signer: what [Signature.create]
    returns is not determined by its arguments. *)
Definition with_signer {C : Collaborators}
           (sign : Manifest -> CertificatesSchema -> option Buffer)
  : Collaborators :=
  {| isValid := isValid;
     getValidated := getValidated;
     isValidPassInstance := isValidPassInstance;
     overridable := overridable;
     override_ok := override_ok;
     isValidRGB := isValidRGB;
     Signature_create := sign;
     sha1 := sha1;
     JSON_parse := JSON_parse;
     JSON_stringify := JSON_stringify |}.

(* ================================================================== *)
(** * Further sample data *)
(* ================================================================== *)

Module Fixtures.
Import Sample.

(** A coupon template with keys that the constructor validates: one
    barcode of three is valid, the NFC record is not, one field of two
    has a key; and with a colour that is no RGB string. *)
Definition coupon_json : JSValue :=
  JObject
    [("formatVersion", JNumber 1);
     ("foregroundColor", JString "blue");
     ("barcodes",
      JArray [JObject [("format", JString "PKBarcodeFormatQR");
                       ("message", JString "A1")];
              JObject [];
              JObject [("message", JString "no format")]]);
     ("nfc", JObject [("encryptionPublicKey", JString "k")]);
     ("coupon",
      JObject [("primaryFields",
                JArray [JObject [("key", JString "offer");
                                 ("value", JString "10%")];
                        JObject [("value", JString "no key")]]);
               ("note", JString "kept")])].

(** A template whose [beacons] hold a [null]. *)
Definition broken_json : JSValue :=
  JObject [("formatVersion", JNumber 1);
           ("beacons", JArray [JObject [("proximityUUID", JString "F8F5")];
                               JNull]);
           ("generic", JObject [])].

Definition broken_env : Collaborators := collaborators [broken_json].

Definition coupon_core : Obj.t JSValue :=
  match coupon_json with JObject core => core | _ => [] end.

Definition coupon_sub : Obj.t JSValue :=
  match Obj.get "coupon" coupon_core with
  | Some (JObject sub) => sub
  | _ => []
  end.

Definition coupon_env : Collaborators := collaborators [coupon_json].

Definition coupon_pass : Pass :=
  Eval vm_compute in
  unwrap (@construct coupon_env (options coupon_json None)).

Definition storeCard_core : Obj.t JSValue :=
  match storeCard_json with JObject core => core | _ => [] end.

Definition storeCard_sub : Obj.t JSValue :=
  match Obj.get "storeCard" storeCard_core with
  | Some (JObject sub) => sub
  | _ => []
  end.

(** The store card with the English folder staged and nothing to
    translate. *)
Definition idle_storeCard : Pass :=
  Eval vm_compute in
  localize "en" None (unwrap (@construct env2 (options storeCard_json None))).

(** The store card with an NFC payload. *)
Definition payload : JSValue :=
  JObject [("message", JString "tap"); ("encryptionPublicKey", JString "k")].

Definition nfc_storeCard : Pass :=
  Eval vm_compute in @nfc env1 payload storeCard_pass.

(** Two beacons, of which the second has no attribute. *)
Definition two_beacons : list JSValue :=
  [JObject [("proximityUUID", JString "F8F5")]; JObject []].

(** A date formatter that knows no date. *)
Definition no_date (d : nat) : JSValue := JUndefined.

(** Three certificates: one given in place, two as paths, the key under
    a passphrase; and stand-ins for node-forge and the file system. *)
Definition three_certificates : Obj.t CertValue :=
  [("wwdr", CertString "WWDR");
   ("signerCert", CertString "signer.pem");
   ("signerKey", CertObject (Some "key.pem") (Some "secret"))].

Definition as_certificate (element : string) : ForgeResult string :=
  Parsed ("certificate of " ++ element).

Definition as_key (element passphrase : string) : ForgeResult string :=
  Parsed ("key of " ++ element ++ " under " ++ passphrase).

Definition is_path (content : string) : bool := Str.includes content ".pem".

Definition disk (content : string) : option string :=
  Some ("contents of " ++ content).

(** The store card with a greeting staged under a language code that
    starts like a personalization logo. *)
Definition logo_language_pass : Pass :=
  Eval vm_compute in
  localize "personalizationLogoX" (Some [("HELLO", "Hi")])
    (unwrap (@construct env1 (options storeCard_json None))).



(** A signer that returns other bytes. *)
Definition other_signer (m : Manifest) (c : CertificatesSchema)
  : option Buffer := Some "signed again".

End Fixtures.
(* ================================================================== *)
(** * Facts about records *)
(* ================================================================== *)

Module ObjFacts.
Import Obj.

Section Facts.
Context {V : Type}.
Implicit Types (o s : t V) (k : string) (v : V).

Lemma get_set_same k v o : get k (set k v o) = Some v.
Proof.
  induction o as [|[k' v'] r IH]; simpl.
  - now rewrite String.eqb_refl.
  - destruct (k' =? k) eqn:E; simpl.
    + now rewrite String.eqb_refl.
    + now rewrite E.
Qed.

Lemma get_set_other k k' v o : k <> k' -> get k (set k' v o) = get k o.
Proof.
  intros N. induction o as [|[k0 v0] r IH]; simpl.
  - destruct (String.eqb_spec k' k); congruence.
  - destruct (String.eqb_spec k0 k'); simpl.
    + subst k0. destruct (String.eqb_spec k' k); congruence.
    + destruct (String.eqb_spec k0 k); auto.
Qed.

Lemma get_set k k' v o :
  get k (set k' v o) = if k' =? k then Some v else get k o.
Proof.
  destruct (String.eqb_spec k' k).
  - subst. apply get_set_same.
  - apply get_set_other. congruence.
Qed.

Lemma get_None_keys k o : get k o = None <-> ~ In k (keys o).
Proof.
  induction o as [|[k' v'] r IH]; simpl.
  - tauto.
  - destruct (String.eqb_spec k' k).
    + split; [discriminate | intros H; exfalso; apply H; now left].
    + rewrite IH. tauto.
Qed.

Lemma get_Some_keys k v o : get k o = Some v -> In k (keys o).
Proof.
  intros H. destruct (in_dec string_dec k (keys o)) as [|N]; auto.
  apply get_None_keys in N. congruence.
Qed.

Lemma keys_get k o : In k (keys o) -> exists v, get k o = Some v.
Proof.
  intros H. destruct (get k o) eqn:E; eauto.
  apply get_None_keys in E. contradiction.
Qed.

Lemma get_In k v o : get k o = Some v -> In (k, v) o.
Proof.
  induction o as [|[k' v'] r IH]; simpl; [discriminate|].
  destruct (String.eqb_spec k' k); intros H.
  - inversion H; subst. now left.
  - right. auto.
Qed.

Lemma In_get k v o : wf o -> In (k, v) o -> get k o = Some v.
Proof.
  unfold wf. induction o as [|[k' v'] r IH]; simpl; [tauto|].
  intros ND [E|I].
  - inversion E; subst. now rewrite String.eqb_refl.
  - inversion ND; subst.
    destruct (String.eqb_spec k' k).
    + subst. exfalso. apply H1. change k with (fst (k, v)).
      now apply in_map.
    + auto.
Qed.

Lemma keys_set k v o :
  keys (set k v o) = if has k o then keys o else (keys o ++ [k])%list.
Proof.
  unfold has. induction o as [|[k' v'] r IH]; simpl; auto.
  destruct (String.eqb_spec k' k); simpl.
  - now subst.
  - rewrite IH. now destruct (get k r).
Qed.

Lemma In_keys_set k k' v o :
  In k (keys (set k' v o)) <-> k = k' \/ In k (keys o).
Proof.
  rewrite keys_set. unfold has.
  destruct (get k' o) eqn:E.
  - apply get_Some_keys in E. split; [tauto | intros [->|]; auto].
  - rewrite in_app_iff. simpl. intuition.
Qed.

Lemma wf_set k v o : wf o -> wf (set k v o).
Proof.
  unfold wf. intros ND. rewrite keys_set. unfold has.
  destruct (get k o) eqn:E; auto.
  apply get_None_keys in E.
  apply NoDup_app; auto.
  - constructor; [tauto | constructor].
  - intros x Hx [<-|[]]. contradiction.
Qed.

Lemma wf_assign s o : wf o -> wf (assign o s).
Proof.
  unfold assign. revert o.
  induction s as [|[k v] r IH]; simpl; auto using wf_set.
Qed.

Lemma wf_spread o : wf (spread o).
Proof. apply wf_assign. constructor. Qed.

(** The value [Object.assign] leaves under [k]: the last binding of
    [k] in the source, or else the target's. *)
Lemma get_assign k s o :
  get k (assign o s) =
  match get k (rev s) with Some v => Some v | None => get k o end.
Proof.
  unfold assign. revert o.
  induction s as [|[k' v'] r IH]; intros o; simpl; auto.
  rewrite IH.
  assert (G : forall (l1 : t V) x,
             get k (l1 ++ [x])%list =
             match get k l1 with
             | Some w => Some w
             | None => if fst x =? k then Some (snd x) else None
             end).
  { induction l1 as [|[a b] l1 IHl]; intros [c d]; simpl; auto.
    destruct (a =? k); auto. }
  rewrite G. simpl.
  destruct (get k (rev r)); auto.
  rewrite get_set. now destruct (k' =? k).
Qed.

Lemma get_rev k o : wf o -> get k (rev o) = get k o.
Proof.
  intros W. destruct (get k o) eqn:E.
  - apply In_get.
    + unfold wf, keys. rewrite map_rev. now apply NoDup_rev.
    + apply in_rev. rewrite rev_involutive. now apply get_In.
  - apply get_None_keys. apply get_None_keys in E.
    unfold keys in *. rewrite map_rev. now rewrite <- in_rev.
Qed.

Lemma get_assign_wf k s o :
  wf s ->
  get k (assign o s) =
  match get k s with Some v => Some v | None => get k o end.
Proof. intros W. now rewrite get_assign, get_rev. Qed.

Lemma get_spread k o : wf o -> get k (spread o) = get k o.
Proof.
  intros W. unfold spread. rewrite get_assign_wf by auto.
  now destruct (get k o).
Qed.

Lemma In_keys_assign k s o :
  In k (keys (assign o s)) <-> In k (keys o) \/ In k (keys s).
Proof.
  unfold assign. revert o.
  induction s as [|[k' v'] r IH]; intros o; simpl.
  - tauto.
  - rewrite IH, In_keys_set. intuition.
Qed.

Lemma get_delete k k' o :
  get k (delete k' o) = if k' =? k then None else get k o.
Proof.
  unfold delete. induction o as [|[a b] r IH]; simpl.
  - now destruct (k' =? k).
  - destruct (String.eqb_spec a k'); simpl.
    + subst a. rewrite IH.
      destruct (String.eqb_spec k' k); auto.
    + destruct (String.eqb_spec a k); auto.
      subst a. destruct (String.eqb_spec k' k) as [E|E]; [|reflexivity].
      symmetry in E. contradiction.
Qed.

Lemma In_keys_delete k k' o :
  In k (keys (delete k' o)) <-> k <> k' /\ In k (keys o).
Proof.
  unfold delete, keys. rewrite !in_map_iff. split.
  - intros [[a b] [E I]]. simpl in E. subst a.
    apply filter_In in I. destruct I as [I Hn]. simpl in Hn.
    destruct (String.eqb_spec k k'); [discriminate|].
    split; auto. exists (k, b); auto.
  - intros [N [[a b] [E I]]]. simpl in E. subst a.
    exists (k, b). split; auto. apply filter_In. split; auto.
    simpl. destruct (String.eqb_spec k k'); [contradiction | reflexivity].
Qed.

Lemma wf_delete k o : wf o -> wf (delete k o).
Proof.
  unfold wf, delete, keys.
  induction o as [|[a b] r IH]; simpl; auto.
  intros ND. inversion ND; subst.
  destruct (negb (a =? k)); simpl; auto.
  constructor; auto.
  intros I. apply H1. apply in_map_iff in I.
  destruct I as [x [E I]]. apply filter_In in I.
  apply in_map_iff. exists x. tauto.
Qed.

Lemma set_fresh k v o : ~ In k (keys o) -> set k v o = (o ++ [(k, v)])%list.
Proof.
  induction o as [|[a b] r IH]; simpl; auto.
  intros N. destruct (String.eqb_spec a k).
  - exfalso. apply N. now left.
  - f_equal. apply IH. tauto.
Qed.

Lemma assign_app_wf s o :
  wf (o ++ s)%list -> assign o s = (o ++ s)%list.
Proof.
  unfold assign, wf, keys. revert o.
  induction s as [|[k v] r IH]; intros o W; simpl.
  - now rewrite app_nil_r.
  - change ((k, v) :: r) with ([(k, v)] ++ r)%list in W.
    rewrite app_assoc in W.
    rewrite set_fresh.
    + rewrite IH by exact W. now rewrite <- app_assoc.
    + rewrite !map_app in W. apply NoDup_app_remove_r in W.
      apply NoDup_remove_2 in W. rewrite app_nil_r in W. exact W.
Qed.

Lemma spread_wf_id o : wf o -> spread o = o.
Proof. intros W. unfold spread. now rewrite assign_app_wf. Qed.

Lemma wf_extend k v o : wf (extend o k v).
Proof. unfold extend. apply wf_set, wf_spread. Qed.

Lemma extend_wf k v o : wf o -> extend o k v = set k v o.
Proof. intros W. unfold extend. now rewrite spread_wf_id. Qed.

(** A [reduce] that spreads its accumulator and adds one computed key
    per element is an [Object.assign] of the computed entries. *)
Lemma fold_extend {A} (kf : A -> string) (vf : A -> V) (l : list A) o :
  wf o ->
  fold_left (fun acc e => extend acc (kf e) (vf e)) l o =
  assign o (map (fun e => (kf e, vf e)) l).
Proof.
  revert o. induction l as [|e r IH]; intros o W; simpl; auto.
  rewrite IH by apply wf_extend. now rewrite extend_wf.
Qed.

Lemma wf_nil : wf (@nil (string * V)).
Proof. constructor. Qed.

Lemma get_app_fresh k (o1 o2 : t V) :
  get k (o1 ++ o2)%list =
  match get k o1 with Some v => Some v | None => get k o2 end.
Proof.
  induction o1 as [|[a b] r IH]; simpl; auto.
  destruct (a =? k); auto.
Qed.

End Facts.

End ObjFacts.

Example path_join_plain_ex :
  Path.join "en.lproj" "pass.strings" = "en.lproj/pass.strings".
Proof. reflexivity. Qed.

Example path_join_dot_ex :
  Path.join "./en.lproj" "../x//y" = "x/y".
Proof. reflexivity. Qed.


(* ================================================================== *)
(** * Facts about strings and paths *)
(* ================================================================== *)

Module StrFacts.
Import Str.

Lemma append_nil_r s : s ++ "" = s.
Proof. induction s; simpl; congruence. Qed.

Lemma append_assoc a b c : (a ++ b) ++ c = a ++ (b ++ c).
Proof. induction a; simpl; congruence. Qed.

Lemma length_append a b :
  String.length (a ++ b) = String.length a + String.length b.
Proof. induction a; simpl; auto. Qed.

Lemma append_inv_head a b c : a ++ b = a ++ c -> b = c.
Proof. induction a; simpl; intros E; auto. inversion E; auto. Qed.

Lemma append_inv_tail a b c : a ++ c = b ++ c -> a = b.
Proof.
  revert b. induction a as [|x a IH]; intros [|y b] E; simpl in *; auto.
  - apply (f_equal String.length) in E. simpl in E.
    rewrite length_append in E. lia.
  - apply (f_equal String.length) in E. simpl in E.
    rewrite length_append in E. lia.
  - inversion E; subst. f_equal. auto.
Qed.

Lemma contains_char_append c a b :
  contains_char c (a ++ b) = contains_char c a || contains_char c b.
Proof.
  induction a as [|x a IH]; simpl; auto.
  rewrite IH. now rewrite orb_assoc.
Qed.

(** Two strings cut at the first occurrence of [c] agree piecewise. *)
Lemma cut_inj c a a' b b' :
  contains_char c a = false -> contains_char c a' = false ->
  a ++ String c b = a' ++ String c b' -> a = a' /\ b = b'.
Proof.
  revert a'. induction a as [|x a IH]; intros [|y a']; simpl; intros Ha Ha' E.
  - inversion E; auto.
  - inversion E; subst. rewrite Ascii.eqb_refl in Ha'. discriminate.
  - inversion E; subst. rewrite Ascii.eqb_refl in Ha. discriminate.
  - inversion E; subst.
    apply orb_false_iff in Ha. apply orb_false_iff in Ha'.
    destruct (IH a') as [-> ->]; tauto.
Qed.

Lemma split_on_none c s : contains_char c s = false -> split_on c s = [s].
Proof.
  induction s as [|x s IH]; simpl; auto.
  intros H. apply orb_false_iff in H. destruct H as [H1 H2].
  rewrite H1, IH; auto.
Qed.

Lemma split_on_cut c a r :
  contains_char c a = false ->
  split_on c (a ++ String c r) = a :: split_on c r.
Proof.
  induction a as [|x a IH]; simpl.
  - now rewrite Ascii.eqb_refl.
  - intros H. apply orb_false_iff in H. destruct H as [H1 H2].
    rewrite H1, IH; auto.
Qed.

Lemma replace_first_none c d s :
  contains_char c s = false -> replace_first c d s = s.
Proof.
  induction s as [|x s IH]; simpl; auto.
  intros H. apply orb_false_iff in H. destruct H as [H1 H2].
  rewrite H1, IH; auto.
Qed.

Lemma last_char_append a x b :
  last_char (a ++ String x b) = last_char (String x b).
Proof.
  induction a as [|y a IH]; auto.
  change (last_char (String y (a ++ String x b)) = last_char (String x b)).
  rewrite <- IH. simpl. destruct a; reflexivity.
Qed.

Lemma last_char_in c s :
  last_char s = Some c -> contains_char c s = true.
Proof.
  induction s as [|x s IH]; [discriminate|].
  destruct s as [|y s].
  - simpl. intros E. inversion E. now rewrite Ascii.eqb_refl.
  - intros E. change (last_char (String y s) = Some c) in E.
    change (Ascii.eqb x c || contains_char c (String y s) = true).
    rewrite (IH E). apply orb_true_r.
Qed.

(** A prefix that lacks the character [d] cannot reach past it. *)
Lemma prefix_before c p l s :
  contains_char c p = false ->
  String.prefix p (l ++ String c s) = true -> String.prefix p l = true.
Proof.
  revert p. induction l as [|b l IH]; intros [|a p] Hp; simpl; auto.
  - apply orb_false_iff in Hp. destruct Hp as [Hp _].
    destruct (ascii_dec a c); [|discriminate].
    subst. rewrite Ascii.eqb_refl in Hp. discriminate.
  - apply orb_false_iff in Hp. destruct Hp as [_ Hp].
    destruct (ascii_dec a b); auto.
Qed.

Lemma prefix_cut c a a' r r' :
  contains_char c a = false -> contains_char c a' = false ->
  String.prefix (a ++ String c r) (a' ++ String c r') = true -> a = a'.
Proof.
  revert a'. induction a as [|x a IH]; intros [|y a']; simpl; intros Ha Ha' E; auto.
  - destruct (ascii_dec c y); [|discriminate]. subst.
    rewrite Ascii.eqb_refl in Ha'. discriminate.
  - destruct (ascii_dec x c); [|discriminate]. subst.
    rewrite Ascii.eqb_refl in Ha. discriminate.
  - destruct (ascii_dec x y); [|discriminate]. subst.
    apply orb_false_iff in Ha. apply orb_false_iff in Ha'.
    f_equal. apply IH; tauto.
Qed.

Lemma prefix_contains c p s :
  String.prefix p s = true -> contains_char c p = true ->
  contains_char c s = true.
Proof.
  revert s. induction p as [|x p IH]; intros [|y s]; simpl; try discriminate.
  destruct (ascii_dec x y); [|discriminate]. subst. intros P H.
  apply orb_true_iff in H. destruct H as [H|H].
  - now rewrite H.
  - rewrite (IH s P H). apply orb_true_r.
Qed.

Lemma length_zero s : (String.length s =? 0)%nat = true <-> s = "".
Proof. destruct s; simpl; split; congruence. Qed.

End StrFacts.

Module PathFacts.
Import Str Path Vocabulary.

Lemma lproj_not_dots lang :
  lproj lang <> "" /\ lproj lang <> "." /\ lproj lang <> "..".
Proof.
  unfold lproj.
  repeat split; intros E; apply (f_equal String.length) in E;
    rewrite StrFacts.length_append in E; simpl in E; lia.
Qed.

Lemma lproj_inj a b : lproj a = lproj b -> a = b.
Proof. apply StrFacts.append_inv_tail. Qed.

Lemma lproj_no c lang :
  contains_char c ".lproj" = false ->
  contains_char c lang = false -> contains_char c (lproj lang) = false.
Proof.
  intros H1 H2. unfold lproj. now rewrite StrFacts.contains_char_append, H1, H2.
Qed.

Lemma plain_spec s :
  plain s = true ->
  s <> "" /\ s <> "." /\ s <> ".." /\
  contains_char slash s = false /\ contains_char backslash s = false.
Proof.
  unfold plain. rewrite !andb_true_iff, !negb_true_iff.
  intros ((((H1 & H2) & H3) & H4) & H5).
  apply String.eqb_neq in H1, H2, H3. tauto.
Qed.

Lemma join_plain a b :
  a <> "" -> a <> "." -> a <> ".." -> contains_char slash a = false ->
  plain b = true ->
  Path.join a b = a ++ "/" ++ b.
Proof.
  intros A0 A1 A2 A3 B. apply plain_spec in B.
  destruct B as (B0 & B1 & B2 & B3 & _).
  unfold Path.join.
  destruct (String.eqb_spec a ""); [contradiction|].
  destruct (String.eqb_spec b ""); [contradiction|].
  unfold normalize.
  destruct (String.eqb_spec (a ++ "/" ++ b) "") as [E|_].
  { destruct a; [contradiction | discriminate]. }
  assert (F : is_slash (first_char (a ++ "/" ++ b)) = false).
  { destruct a as [|x a]; [contradiction|]. simpl in *.
    apply orb_false_iff in A3. tauto. }
  assert (L : is_slash (last_char (a ++ "/" ++ b)) = false).
  { destruct b as [|y b]; [contradiction|].
    change (a ++ "/" ++ String y b)
      with (a ++ String slash (String y b)).
    rewrite StrFacts.last_char_append.
    change (last_char (String slash (String y b)))
      with (last_char (String y b)).
    destruct (last_char (String y b)) as [c|] eqn:E; auto.
    simpl. destruct (Ascii.eqb_spec c slash); auto. subst.
    apply StrFacts.last_char_in in E. congruence. }
  rewrite F, L. simpl negb.
  change (a ++ "/" ++ b) with (a ++ String slash b).
  rewrite StrFacts.split_on_cut, StrFacts.split_on_none by auto.
  simpl normalize_segments.
  apply String.eqb_neq in A0, A1, A2, B0, B1, B2.
  rewrite A0, A1, A2, B0, B1, B2. simpl.
  destruct a; [contradiction | reflexivity].
Qed.

(** The archived path of a plain file of a well-formed language. *)
Lemma flat_plain lang f :
  contains_char slash lang = false ->
  contains_char backslash lang = false ->
  plain f = true ->
  flat (lproj lang) f = lproj lang ++ "/" ++ f.
Proof.
  intros L1 L2 F. unfold flat.
  destruct (lproj_not_dots lang) as (N0 & N1 & N2).
  rewrite join_plain; auto using lproj_no.
  apply StrFacts.replace_first_none.
  apply plain_spec in F. destruct F as (_ & _ & _ & _ & F).
  change (lproj lang ++ "/" ++ f) with (lproj lang ++ String slash f).
  rewrite StrFacts.contains_char_append. simpl.
  rewrite F, (lproj_no backslash lang); auto.
Qed.

Lemma flat_inj lang lang' f f' :
  contains_char slash lang = false ->
  contains_char slash lang' = false ->
  lproj lang ++ "/" ++ f = lproj lang' ++ "/" ++ f' ->
  lang = lang' /\ f = f'.
Proof.
  intros L L' E.
  change (lproj lang ++ String slash f = lproj lang' ++ String slash f') in E.
  apply StrFacts.cut_inj in E; auto using lproj_no.
  destruct E as [E ->]. split; auto. now apply lproj_inj.
Qed.

End PathFacts.

(* ================================================================== *)
(** * The localization loop *)
(* ================================================================== *)

Module L10nFacts.
Import Str Path Vocabulary PathFacts LoopSpec.

Arguments l10n_step : simpl never.
Arguments Path.join : simpl never.
Arguments Utils.generateStringFile : simpl never.

Lemma lang_ok_spec lang :
  lang_ok lang = true ->
  lang <> "" /\ contains_char slash lang = false
  /\ contains_char backslash lang = false.
Proof.
  unfold lang_ok. rewrite !andb_true_iff, !negb_true_iff.
  intros ((H1 & H2) & H3). apply String.eqb_neq in H1. tauto.
Qed.

Lemma pass_strings_plain : plain "pass.strings" = true.
Proof. reflexivity. Qed.

Lemma get_map_keys {V} (g : string -> string) (u : Obj.t V) f :
  (forall a b, g a = g b -> a = b) ->
  Obj.get (g f) (map (fun e => (g (fst e), snd e)) u) = Obj.get f u.
Proof.
  intros Inj. induction u as [|[a b] r IH]; simpl; auto.
  destruct (String.eqb_spec a f).
  - subst. now rewrite String.eqb_refl.
  - destruct (String.eqb_spec (g a) (g f)) as [E|_]; auto.
    apply Inj in E. contradiction.
Qed.

Lemma keys_map_keys {V} (g : string -> string) (u : Obj.t V) :
  Obj.keys (map (fun e => (g (fst e), snd e)) u) = map g (Obj.keys u).
Proof. unfold Obj.keys. rewrite !map_map. reflexivity. Qed.

Lemma NoDup_map_inj {A B} (g : A -> B) (l : list A) :
  (forall a b, g a = g b -> a = b) -> NoDup l -> NoDup (map g l).
Proof.
  intros Inj. induction 1 as [|x l N _ IH]; simpl; constructor; auto.
  intros I. apply in_map_iff in I. destruct I as [y [E I]].
  apply Inj in E. now subst.
Qed.

Lemma folders_ok_get l10n dir u :
  folders_ok l10n -> Obj.get dir l10n = Some u ->
  Obj.wf u /\ forall f, In f (Obj.keys u) -> plain f = true.
Proof. intros [_ H] G. apply (H dir). now apply ObjFacts.get_In. Qed.

Lemma In_set {V} k (v : V) o x :
  In x (Obj.set k v o) -> x = (k, v) \/ In x o.
Proof.
  induction o as [|[a b] r IH]; simpl.
  - intros [<-|[]]. now left.
  - destruct (a =? k); simpl; intros [<-|I]; auto.
    destruct (IH I); auto.
Qed.

Lemma folders_ok_set l10n dir u :
  folders_ok l10n -> Obj.wf u ->
  (forall f, In f (Obj.keys u) -> plain f = true) ->
  folders_ok (Obj.set dir u l10n).
Proof.
  intros [W H] Wu Pu. split.
  - now apply ObjFacts.wf_set.
  - intros d x I. apply In_set in I. destruct I as [E|I].
    + inversion E; subst. auto.
    + eauto.
Qed.

(** The paths one folder is flattened to. *)
Lemma flatten_folder lang (u : BundleUnit) :
  lang_ok lang = true -> Obj.wf u ->
  (forall f, In f (Obj.keys u) -> plain f = true) ->
  fold_left
    (fun acc entry =>
       extend acc
         (replace_first backslash slash (Path.join (lproj lang) (fst entry)))
         (snd entry))
    u [] =
  map (fun e => (lproj lang ++ "/" ++ fst e, snd e)) u.
Proof.
  intros L W P. apply lang_ok_spec in L. destruct L as (_ & L1 & L2).
  rewrite (ObjFacts.fold_extend
             (fun e : string * Buffer =>
                replace_first backslash slash
                  (Path.join (lproj lang) (fst e)))
             (fun e => snd e)) by apply ObjFacts.wf_nil.
  rewrite (map_ext_in _ (fun e => (lproj lang ++ "/" ++ fst e, snd e))).
  - apply ObjFacts.assign_app_wf. rewrite app_nil_l.
    unfold Obj.wf. rewrite (keys_map_keys (fun f => lproj lang ++ "/" ++ f) u).
    apply NoDup_map_inj; auto.
    intros a b E. apply StrFacts.append_inv_head in E. now inversion E.
  - intros [f b] I. simpl. f_equal.
    apply (flat_plain lang f L1 L2). apply P.
    apply (in_map fst) in I. exact I.
Qed.

Lemma merged_folder_ok strings folder u :
  (forall u0, folder = Some u0 ->
     Obj.wf u0 /\ forall f, In f (Obj.keys u0) -> plain f = true) ->
  merged_folder strings folder = Some u ->
  Obj.wf u /\ forall f, In f (Obj.keys u) -> plain f = true.
Proof.
  intros H. unfold merged_folder.
  destruct (String.length strings =? 0)%nat; [now apply H|].
  intros E. inversion E; subst; clear E.
  destruct folder as [u0|].
  - destruct (H u0 eq_refl) as [W P]. split.
    + now apply ObjFacts.wf_set.
    + intros f I. apply ObjFacts.In_keys_set in I. destruct I as [->|I]; auto.
  - split.
    + apply ObjFacts.wf_set, ObjFacts.wf_nil.
    + intros f I. apply ObjFacts.In_keys_set in I.
      destruct I as [->|[]]. reflexivity.
Qed.

Lemma pair_if {A B} (c : bool) (a : A) (x y : B) :
  (if c then (a, x) else (a, y)) = (a, if c then x else y).
Proof. now destruct c. Qed.

(** One turn of the loop, in closed form. *)
Lemma l10n_step_eq trs lang l10n fb :
  lang_ok lang = true -> folders_ok l10n ->
  l10n_step trs lang (l10n, fb) =
  let folder := merged_folder (rendered trs lang) (Obj.get (lproj lang) l10n) in
  (match folder with
   | Some u => if (String.length (rendered trs lang) =? 0)%nat then l10n
               else Obj.set (lproj lang) u l10n
   | None => l10n
   end,
   match folder with
   | Some u =>
       if (List.length u =? 0)%nat then fb
       else Obj.assign fb (map (fun e => (lproj lang ++ "/" ++ fst e, snd e)) u)
   | None => fb
   end).
Proof.
  intros L F. unfold l10n_step. cbv zeta.
  fold (rendered trs lang). fold (lproj lang).
  destruct (merged_folder (rendered trs lang) (Obj.get (lproj lang) l10n))
    as [u|] eqn:M.
  - pose proof M as M'. apply merged_folder_ok in M'.
    2:{ intros u0 G. eapply folders_ok_get; eauto. }
    destruct M' as [W P].
    unfold merged_folder in M.
    destruct (String.length (rendered trs lang) =? 0)%nat; simpl negb; cbv iota.
    + rewrite M. rewrite flatten_folder by auto.
      now rewrite pair_if.
    + inversion M; subst; clear M.
      assert (E : forall o : option BundleUnit,
                 existing_strings o =
                 match Obj.get "pass.strings"
                         (match o with Some u => u | None => [] end) with
                 | Some b => b | None => ""
                 end) by (intros [x|]; reflexivity).
      rewrite <- E. rewrite ObjFacts.get_set_same.
      rewrite flatten_folder by auto.
      now rewrite pair_if.
  - unfold merged_folder in M.
    destruct (String.length (rendered trs lang) =? 0)%nat; [|discriminate].
    simpl negb. cbv iota. now rewrite M.
Qed.

Lemma l10n_step_spec trs lang l10n fb :
  lang_ok lang = true -> folders_ok l10n ->
  step_spec trs lang l10n fb
            (fst (l10n_step trs lang (l10n, fb)))
            (snd (l10n_step trs lang (l10n, fb))).
Proof.
  intros L F. rewrite l10n_step_eq by auto. cbv zeta.
  set (g := fun f : string => lproj lang ++ "/" ++ f).
  assert (Inj : forall a b, g a = g b -> a = b).
  { intros a b E. apply StrFacts.append_inv_head in E. now inversion E. }
  destruct (merged_folder (rendered trs lang) (Obj.get (lproj lang) l10n))
    as [u|] eqn:M; cbn [fst snd].
  - pose proof M as M'. apply merged_folder_ok in M'.
    2:{ intros u0 G. eapply folders_ok_get; eauto. }
    destruct M' as [W P].
    set (l10n1 := if (String.length (rendered trs lang) =? 0)%nat then l10n
                  else Obj.set (lproj lang) u l10n).
    assert (G1 : Obj.get (lproj lang) l10n1 = Some u).
    { subst l10n1. unfold merged_folder in M.
      destruct (String.length (rendered trs lang) =? 0)%nat; auto.
      apply ObjFacts.get_set_same. }
    pose proof (keys_map_keys g u) as Km. unfold g in Km.
    assert (Wm : Obj.wf (map (fun e : string * Buffer =>
                                (lproj lang ++ "/" ++ fst e, snd e)) u)).
    { unfold Obj.wf. rewrite Km. now apply NoDup_map_inj. }
    split; [|split; [|split; [|split; [|split]]]].
    + subst l10n1. destruct (String.length (rendered trs lang) =? 0)%nat.
      * apply F.
      * apply (folders_ok_set (lproj lang) F W P).
    + now rewrite M.
    + intros dir N. subst l10n1.
      destruct (String.length (rendered trs lang) =? 0)%nat; auto.
      now apply ObjFacts.get_set_other.
    + intros u' f b G Gf. rewrite G1 in G. inversion G; subst u'.
      destruct u as [|e r]; [discriminate|]. cbn [List.length Nat.eqb].
      rewrite ObjFacts.get_assign_wf by exact Wm.
      pose proof (get_map_keys g (e :: r) f Inj) as X. unfold g in X.
      rewrite X, Gf. reflexivity.
    + intros key Hk. destruct u as [|e r]; [reflexivity|].
      cbn [List.length Nat.eqb].
      rewrite ObjFacts.get_assign_wf by exact Wm.
      destruct (Obj.get key _) as [b|] eqn:E; auto.
      apply ObjFacts.get_Some_keys in E. rewrite Km in E.
      apply in_map_iff in E. destruct E as [f [E I]].
      exfalso. apply (Hk (e :: r) f G1 I). now subst.
    + intros key I. destruct u as [|e r]; [now left|].
      cbn [List.length Nat.eqb] in I.
      apply ObjFacts.In_keys_assign in I. destruct I as [I|I]; [now left|].
      right. rewrite Km in I.
      apply in_map_iff in I. destruct I as [f [E I]].
      exists (e :: r), f. subst. auto.
  - unfold merged_folder in M.
    destruct (String.length (rendered trs lang) =? 0)%nat eqn:Z; [|discriminate].
    split; [|split; [|split; [|split; [|split]]]]; auto.
    + unfold merged_folder. now rewrite Z.
    + intros u f b G. congruence.
Qed.

Lemma l10n_loop_spec trs codes :
  NoDup codes -> (forall lang, In lang codes -> lang_ok lang = true) ->
  forall l10n fb, folders_ok l10n ->
  loop_spec trs codes l10n fb
            (fst (l10n_loop trs codes (l10n, fb)))
            (snd (l10n_loop trs codes (l10n, fb))).
Proof.
  induction 1 as [|lang rest Nin ND IH]; intros OK l10n fb F.
  - simpl. unfold loop_spec.
    split; [exact F|]. split; [intros ? []|]. split; [auto|].
    split; [intros ? ? ? ? []|]. split; auto.
  - assert (Lk : lang_ok lang = true) by (apply OK; now left).
    assert (OKr : forall x, In x rest -> lang_ok x = true)
      by (intros x I; apply OK; now right).
    destruct (lang_ok_spec lang Lk) as (N0 & Sl & _).
    cbn [l10n_loop]. apply String.eqb_neq in N0. rewrite N0.
    pose proof (@l10n_step_spec trs lang l10n fb Lk F) as S.
    destruct (l10n_step trs lang (l10n, fb)) as [l1 f1]. cbn [fst snd] in S.
    destruct S as (F1 & S1 & S2 & S3 & S4 & S5).
    specialize (IH OKr l1 f1 F1).
    destruct (l10n_loop trs rest (l1, f1)) as [l' f']. cbn [fst snd] in *.
    destruct IH as (F' & L1 & L2 & P1 & P2 & K).
    assert (Fresh : forall x, In x rest -> lproj lang <> lproj x).
    { intros x I E. apply lproj_inj in E. now subst. }
    assert (Same : Obj.get (lproj lang) l' = Obj.get (lproj lang) l1)
      by (apply L2; exact Fresh).
    split; [exact F'|]. split; [|split; [|split; [|split]]].
    + intros x [<-|I].
      * now rewrite Same.
      * rewrite (L1 x I). f_equal. apply S2.
        intros E. now apply (Fresh x I).
    + intros dir Hd. rewrite L2.
      * apply S2. apply Hd. now left.
      * intros x I. apply Hd. now right.
    + intros x u f b [<-|I] G Gf.
      * rewrite P2.
        -- apply (S3 u f b); congruence.
        -- intros y v g Iy _ _ E.
           destruct (lang_ok_spec y (OKr y Iy)) as (_ & Sy & _).
           apply flat_inj in E; auto. destruct E as [E _]. now subst.
      * now apply (P1 x u f b I).
    + intros key Hk. rewrite P2.
      * apply S4. intros u f G If. apply (Hk lang u f); auto.
        -- now left.
        -- congruence.
      * intros x u f I. apply Hk. now right.
    + intros key I. destruct (K key I) as [I1|(x & u & f & Ix & G & If & E)].
      * destruct (S5 key I1) as [I0|(u & f & G & If & E)]; [now left|].
        right. exists lang, u, f.
        split; [now left|]. split; [congruence|]. auto.
      * right. exists x, u, f. split; [now right|]. auto.
Qed.

Lemma heap_write_same r v h : heap_read r h = Some v -> heap_write r v h = h.
Proof.
  unfold heap_read. revert r. induction h as [|x t IH]; intros [|r]; simpl; auto.
  - intros E. now inversion E.
  - intros E. f_equal. auto.
Qed.

Lemma heap_read_write r v w h :
  heap_read r h = Some w -> heap_read r (heap_write r v h) = Some v.
Proof.
  unfold heap_read. revert r. induction h as [|x t IH]; intros [|r]; simpl; auto;
    discriminate.
Qed.

End L10nFacts.

(* ================================================================== *)
(** * What [_patch] and the pruning leave alone *)
(* ================================================================== *)

Section Frames.

Context {C : Collaborators}.

Lemma same_refl p : same_but_props p p.
Proof. unfold same_but_props. tauto. Qed.

Lemma same_with_passProps x p q :
  same_but_props p q -> same_but_props p (with_passProps x q).
Proof. unfold same_but_props. simpl. tauto. Qed.

Lemma same_alias_write t sub p q :
  same_but_props p q -> same_but_props p (alias_write t sub q).
Proof.
  intros H. unfold alias_write.
  destruct (Obj.has t (passProps q)); [apply same_with_passProps|]; exact H.
Qed.

Lemma patch_passFile_frame b p :
  same_but_props p (fst (patch_passFile b p)).
Proof.
  unfold patch_passFile.
  destruct (JSON_parse b) as [parsed|]; [|apply same_refl].
  set (p1 := if negb (List.length (passProps p) =? 0)%nat
             then with_passProps (prune_colors (passProps p)) p else p).
  assert (S1 : same_but_props p p1).
  { subst p1. destruct (negb _);
      [apply same_with_passProps|]; apply same_refl. }
  destruct parsed; auto.
  match goal with |- context [Obj.get (type p) ?x] =>
    destruct (Obj.get (type p) x) as [[]|] end; auto.
  - destruct (_ && _); auto.
  - destruct (_ && _); cbn [fst]; auto using same_alias_write.
Qed.

Lemma patch_frame b p : same_but_props p (fst (_patch b p)).
Proof.
  unfold _patch. pose proof (patch_passFile_frame b p) as H.
  destruct (patch_passFile b p) as [p' [x|e]]; exact H.
Qed.

End Frames.

(* ================================================================== *)
(** * The merge of the localization bundle *)
(* ================================================================== *)

Module MergeFacts.
Import Str Path Vocabulary PathFacts LoopSpec L10nFacts.

Lemma staged_codes trs :
  staged_ok trs ->
  NoDup (rev (Obj.keys trs)) /\
  forall lang, In lang (rev (Obj.keys trs)) -> lang_ok lang = true.
Proof.
  intros [W OK]. split.
  - now apply NoDup_rev.
  - intros lang I. apply OK. now apply in_rev.
Qed.

(** Under the well-formedness of what is staged and stored, the merge
    succeeds, writes the merged folders back to the shared store and
    yields the final bundle of [loop_spec]. *)
Lemma merge_l10n_spec p h l10n :
  staged_ok (l10nTranslations p) ->
  heap_read (l10nBundles p) h = Some l10n ->
  folders_ok l10n ->
  exists l10n' fb,
    merge_l10n p h = Ok (heap_write (l10nBundles p) l10n' h, fb) /\
    loop_spec (l10nTranslations p) (rev (Obj.keys (l10nTranslations p)))
              l10n (Obj.spread (bundle p)) l10n' fb.
Proof.
  intros S R F. destruct (staged_codes S) as [ND OK].
  pose proof (l10n_loop_spec (l10nTranslations p) ND OK
                (Obj.spread (bundle p)) F) as L.
  unfold merge_l10n.
  destruct (rev (Obj.keys (l10nTranslations p))) as [|lang rest] eqn:E.
  - exists l10n, (Obj.spread (bundle p)). split.
    + now rewrite (heap_write_same _ _ R).
    + exact L.
  - assert (Lk : lang_ok lang = true) by (apply OK; now left).
    destruct (lang_ok_spec lang Lk) as (N0 & _).
    apply String.eqb_neq in N0. rewrite N0, R.
    destruct (l10n_loop (l10nTranslations p) (lang :: rest)
                (l10n, Obj.spread (bundle p))) as [l10n' fb].
    exists l10n', fb. split; auto.
Qed.

Lemma distinct_NoDup l : distinct l = true -> NoDup l.
Proof.
  induction l as [|x r IH]; simpl; [constructor|].
  rewrite andb_true_iff, negb_true_iff. intros [N D].
  constructor; auto. intros I.
  assert (E : existsb (String.eqb x) r = true).
  { apply existsb_exists. exists x. split; auto. apply String.eqb_refl. }
  congruence.
Qed.

Lemma staged_okb_sound trs : staged_okb trs = true -> staged_ok trs.
Proof.
  unfold staged_okb, staged_ok. rewrite andb_true_iff. intros [D A]. split.
  - now apply distinct_NoDup.
  - intros lang I. rewrite forallb_forall in A. auto.
Qed.

Lemma folders_okb_sound l10n : folders_okb l10n = true -> folders_ok l10n.
Proof.
  unfold folders_okb, folders_ok. rewrite andb_true_iff. intros [D A]. split.
  - now apply distinct_NoDup.
  - intros dir u I. rewrite forallb_forall in A. specialize (A _ I).
    simpl in A. apply andb_true_iff in A. destruct A as [A1 A2]. split.
    + now apply distinct_NoDup.
    + intros f If. rewrite forallb_forall in A2. auto.
Qed.

End MergeFacts.

(* ================================================================== *)
(** * The manifest *)
(* ================================================================== *)

Unset Implicit Arguments.

Arguments l10n_step : simpl never.
Arguments Path.join : simpl never.
Arguments Utils.generateStringFile : simpl never.

Section ManifestFacts.

Context {C : Collaborators}.

Lemma manifest_fold (l : list (string * Buffer)) m a :
  fold_left manifest_step l (m, a) =
  (fold_left (fun acc e => extend acc (fst e) (Utils.toHex (sha1 (snd e)))) l m,
   (a ++ l)%list).
Proof.
  revert m a. induction l as [|[k b] r IH]; intros m a; simpl.
  - now rewrite app_nil_r.
  - unfold manifest_step at 2. simpl. rewrite IH.
    now rewrite <- app_assoc.
Qed.

Lemma build_manifest_wf finalBundle :
  Obj.wf finalBundle ->
  build_manifest finalBundle = (map digest_entry finalBundle, finalBundle).
Proof.
  intros W. unfold build_manifest. rewrite manifest_fold. simpl.
  rewrite ObjFacts.fold_extend by apply ObjFacts.wf_nil.
  rewrite ObjFacts.assign_app_wf; [reflexivity|]. simpl.
  unfold Obj.wf, Obj.keys in *. rewrite map_map. simpl. exact W.
Qed.

Lemma toHex_lower b : Utils.all_chars Utils.is_lower_hex (Utils.toHex b) = true.
Proof.
  assert (D : forall n, n < 16 -> Utils.is_lower_hex (Utils.hex_digit n) = true).
  { intros n Hn. do 16 (destruct n as [|n]; [reflexivity|]). lia. }
  induction b as [|c r IH]; [reflexivity|].
  cbn [Utils.toHex Utils.all_chars].
  rewrite !D, IH; auto.
  - apply Nat.mod_upper_bound. lia.
  - apply Nat.Div0.div_lt_upper_bound.
    pose proof (nat_ascii_bounded c). lia.
Qed.

Lemma l10n_step_wf tr lang l10n fb :
  Obj.wf fb -> Obj.wf (snd (l10n_step tr lang (l10n, fb))).
Proof.
  intros W. unfold l10n_step.
  match goal with |- context [Obj.get (lang ++ ".lproj") ?x] =>
    destruct (Obj.get (lang ++ ".lproj") x) as [u|] end; simpl; auto.
  destruct (List.length u =? 0)%nat; simpl; auto.
  now apply ObjFacts.wf_assign.
Qed.

Lemma l10n_loop_wf tr codes l10n fb :
  Obj.wf fb -> Obj.wf (snd (l10n_loop tr codes (l10n, fb))).
Proof.
  revert l10n fb. induction codes as [|lang rest IH]; intros l10n fb W; simpl; auto.
  destruct (lang =? ""); simpl; auto.
  pose proof (l10n_step_wf tr lang l10n fb W) as W'.
  destruct (l10n_step tr lang (l10n, fb)) as [l10n' fb']. simpl in W'.
  now apply IH.
Qed.

Lemma merge_l10n_wf p h h' fb :
  merge_l10n p h = Ok (h', fb) -> Obj.wf fb.
Proof.
  unfold merge_l10n.
  destruct (rev (Obj.keys (l10nTranslations p))) as [|lang rest].
  - intros E. inversion E; subst. apply ObjFacts.wf_spread.
  - destruct (lang =? "").
    + intros E. inversion E; subst. apply ObjFacts.wf_spread.
    + destruct (heap_read (l10nBundles p) h) as [l10n|]; [|discriminate].
      pose proof (l10n_loop_wf (l10nTranslations p) (lang :: rest) l10n
                    (Obj.spread (bundle p)) (ObjFacts.wf_spread _)) as W.
      destruct (l10n_loop (l10nTranslations p) (lang :: rest)
                  (l10n, Obj.spread (bundle p))) as [l10n' fb'].
      intros E. inversion E; subst. exact W.
Qed.

(** What a successful [generate] is made of: the instance it leaves
    behind, the final bundle merged from it, the manifest of that
    bundle and the signature of that manifest. *)
Lemma generate_Ok p h p' h' archive :
  generate p h = (p', h', Ok archive) ->
  exists passJson p1 patched finalBundle signatureBuffer,
    Obj.get "pass.json" (bundle p) = Some passJson /\
    _patch passJson p = (p1, Ok patched) /\
    p' = prune_personalization
           (with_bundle (Obj.set "pass.json" patched (bundle p1)) p1) /\
    merge_l10n p' h = Ok (h', finalBundle) /\
    Signature_create (map digest_entry finalBundle) (Certificates p')
      = Some signatureBuffer /\
    archive =
      (finalBundle ++
       [("signature", signatureBuffer);
        ("manifest.json",
         JSON_stringify (manifest_json (map digest_entry finalBundle)))])%list.
Proof.
  unfold generate.
  destruct (Obj.get "pass.json" (bundle p)) as [passJson|]; [|discriminate].
  destruct (_patch passJson p) as [p1 [patched|e]] eqn:EP; [|discriminate].
  set (p2 := prune_personalization _).
  destruct (merge_l10n p2 h) as [[h2 fb]|e] eqn:EM; [|discriminate].
  rewrite (build_manifest_wf _ (merge_l10n_wf _ _ _ _ EM)).
  destruct (Signature_create _ _) as [sg|] eqn:ES; [|discriminate].
  intros E. inversion E; subst.
  exists passJson, p1, patched, fb, sg. repeat split; auto.
Qed.

Lemma get_delete_all {V} k names (b : Obj.t V) :
  Obj.get k (fold_left (fun acc f => Obj.delete f acc) names b) =
  if existsb (String.eqb k) names then None else Obj.get k b.
Proof.
  revert b. induction names as [|f r IH]; intros b; simpl; auto.
  rewrite IH, ObjFacts.get_delete. rewrite (String.eqb_sym k f).
  destruct (f =? k); simpl; auto.
  now destruct (existsb (String.eqb k) r).
Qed.

Lemma In_keys_delete_all {V} k names (b : Obj.t V) :
  In k (Obj.keys (fold_left (fun acc f => Obj.delete f acc) names b)) <->
  ~ In k names /\ In k (Obj.keys b).
Proof.
  revert b. induction names as [|f r IH]; intros b; simpl.
  - tauto.
  - rewrite IH, ObjFacts.In_keys_delete. intuition congruence.
Qed.

Lemma prune_personalization_keeps k p :
  k <> "personalization.json" ->
  Str.startsWith k "personalizationLogo" = false ->
  Obj.get k (bundle (prune_personalization p)) = Obj.get k (bundle p).
Proof.
  intros N1 N2. unfold prune_personalization.
  match goal with |- context [if ?c then _ else _] => destruct c end; auto.
  simpl. unfold Utils.deletePersonalization. rewrite get_delete_all.
  destruct (existsb _ _) eqn:E; auto.
  apply existsb_exists in E. destruct E as [x [I E]].
  apply String.eqb_eq in E. subst x.
  apply in_app_or in I. destruct I as [I|[I|[]]].
  - unfold Utils.getAllFilesWithName in I. apply filter_In in I.
    destruct I as [_ I]. congruence.
  - congruence.
Qed.

End ManifestFacts.

(* ================================================================== *)
(** * The claims *)
(* ================================================================== *)

Section ManifestIntegrity.

Context {C : Collaborators}.

(** C1.  When [generate] succeeds, the files it archives are the
    entries of the final merged bundle -- the bundle merged from the
    instance as the call leaves it, that is after [_patch] rewrote
    [pass.json] and the personalization files were pruned, with the
    localization folders flattened in.  Each archived path occurs once,
    the manifest has exactly these paths, and it maps each of them to
    the lowercase hexadecimal SHA-1 digest of the very bytes archived
    under it.  The signature archived is the signature of this manifest
    and [manifest.json] is its serialization: the manifest is built
    after every change to the bundle and before signing. *)
Theorem manifest_integrity (p : Pass) (h : Heap) p' h' archive :
  generate p h = (p', h', Ok archive) ->
  exists finalBundle manifest signatureBuffer,
    merge_l10n p' h = Ok (h', finalBundle) /\
    (exists passJson p1 patched,
        Obj.get "pass.json" (bundle p) = Some passJson /\
        _patch passJson p = (p1, Ok patched) /\
        Obj.get "pass.json" (bundle p') = Some patched) /\
    archive =
      (finalBundle ++
       [("signature", signatureBuffer);
        ("manifest.json", JSON_stringify (manifest_json manifest))])%list /\
    Signature_create manifest (Certificates p') = Some signatureBuffer /\
    Obj.keys manifest = Obj.keys finalBundle /\
    NoDup (Obj.keys finalBundle) /\
    forall name bytes,
      In (name, bytes) finalBundle ->
      Obj.get name manifest = Some (Utils.toHex (sha1 bytes)) /\
      Utils.all_chars Utils.is_lower_hex (Utils.toHex (sha1 bytes)) = true.
Proof.
  intros G. apply generate_Ok in G.
  destruct G as (passJson & p1 & patched & fb & sg & G0 & GP & -> & GM & GS & ->).
  pose proof (merge_l10n_wf _ _ _ _ GM) as W.
  exists fb, (map digest_entry fb), sg. repeat split; auto.
  - exists passJson, p1, patched. repeat split; auto.
    rewrite prune_personalization_keeps by (discriminate || reflexivity).
    simpl. apply ObjFacts.get_set_same.
  - unfold Obj.keys. rewrite map_map. reflexivity.
  - apply ObjFacts.In_get.
    + unfold Obj.wf, Obj.keys in *. rewrite map_map. exact W.
    + apply (in_map digest_entry) in H. exact H.
  - apply toHex_lower.
Qed.

End ManifestIntegrity.

(** The store card of the sample, generated: the hypothesis of
    [manifest_integrity] holds of it. *)
Lemma manifest_integrity_witness :
  exists p' h' archive finalBundle manifest signatureBuffer,
    generate (C := Sample.env1) Sample.storeCard_pass Sample.store
      = (p', h', Ok archive) /\
    archive =
      (finalBundle ++
       [("signature", signatureBuffer);
        ("manifest.json",
         JSON_stringify (Collaborators := Sample.env1)
                        (manifest_json manifest))])%list /\
    Obj.keys manifest = Obj.keys finalBundle.
Proof.
  destruct (generate (C := Sample.env1) Sample.storeCard_pass Sample.store)
    as [[p' h'] [archive|e]] eqn:G; [|vm_compute in G; discriminate].
  destruct (manifest_integrity _ _ _ _ _ G)
    as (fb & m & sg & _ & _ & A & _ & K & _).
  exists p', h', archive, fb, m, sg. auto.
Defined.


Section GenerateFacts.

Context {C : Collaborators}.

Lemma prune_personalization_frame p :
  l10nBundles (prune_personalization p) = l10nBundles p /\
  passProps (prune_personalization p) = passProps p /\
  type (prune_personalization p) = type p /\
  fields (prune_personalization p) = fields p /\
  Certificates (prune_personalization p) = Certificates p /\
  transitType (prune_personalization p) = transitType p /\
  l10nTranslations (prune_personalization p) = l10nTranslations p.
Proof.
  unfold prune_personalization.
  match goal with |- context [if ?c then _ else _] => destruct c end;
    simpl; tauto.
Qed.

(** [generate] changes nothing of the instance but its bundle and its
    properties, whatever its outcome. *)
Lemma generate_frame p h p' h' r :
  generate p h = (p', h', r) ->
  l10nBundles p' = l10nBundles p /\ type p' = type p /\
  fields p' = fields p /\ Certificates p' = Certificates p /\
  transitType p' = transitType p /\
  l10nTranslations p' = l10nTranslations p.
Proof.
  unfold generate.
  destruct (Obj.get "pass.json" (bundle p)) as [passJson|].
  2:{ intros E. inversion E; subst. tauto. }
  pose proof (patch_frame passJson p) as F.
  destruct (_patch passJson p) as [p1 [patched|e]]; cbn [fst] in F;
    destruct F as (_ & F1 & F2 & F3 & F4 & F5 & F6).
  2:{ intros E. inversion E; subst. tauto. }
  set (p2 := prune_personalization _).
  assert (F' : l10nBundles p2 = l10nBundles p /\ type p2 = type p /\
               fields p2 = fields p /\ Certificates p2 = Certificates p /\
               transitType p2 = transitType p /\
               l10nTranslations p2 = l10nTranslations p).
  { subst p2.
    destruct (prune_personalization_frame
                (with_bundle (Obj.set "pass.json" patched (bundle p1)) p1))
      as (G1 & _ & G2 & G3 & G4 & G5 & G6).
    simpl in *. repeat split; congruence. }
  destruct (merge_l10n p2 h) as [[h2 fb]|e].
  2:{ intros E. inversion E; subst. exact F'. }
  destruct (build_manifest fb) as [m a].
  destruct (Signature_create m (Certificates p2));
    intros E; inversion E; subst; exact F'.
Qed.

(** A successful [generate] on well-formed localization data: the
    archive is the final bundle of the loop followed by the signature
    and the manifest, and the shared store holds the merged folders. *)
Lemma generate_l10n p h l10n p' h' archive :
  Vocabulary.staged_ok (l10nTranslations p) ->
  heap_read (l10nBundles p) h = Some l10n ->
  Vocabulary.folders_ok l10n ->
  generate p h = (p', h', Ok archive) ->
  exists l10n' fb signatureBuffer,
    h' = heap_write (l10nBundles p) l10n' h /\
    LoopSpec.loop_spec (l10nTranslations p)
      (rev (Obj.keys (l10nTranslations p)))
      l10n (Obj.spread (bundle p')) l10n' fb /\
    Obj.wf fb /\
    archive =
      (fb ++ [("signature", signatureBuffer);
              ("manifest.json",
               JSON_stringify (manifest_json (map digest_entry fb)))])%list.
Proof.
  intros S R F G.
  destruct (generate_frame _ _ _ _ _ G) as (E1 & _ & _ & _ & _ & E2).
  apply generate_Ok in G.
  destruct G as (passJson & p1 & patched & fb & sg & _ & _ & _ & GM & _ & ->).
  rewrite <- E2 in S. rewrite <- E1 in R.
  destruct (MergeFacts.merge_l10n_spec p' h S R F) as (l10n' & fb' & M & L).
  rewrite M in GM. inversion GM; subst.
  exists l10n', fb, sg. rewrite <- E1, <- E2.
  split; [reflexivity|]. split; [exact L|].
  split; [eapply merge_l10n_wf; exact M | reflexivity].
Qed.

Lemma archive_tail (sg m : string) name bytes :
  In (name, bytes) [("signature", sg); ("manifest.json", m)] ->
  name = "signature" \/ name = "manifest.json".
Proof. intros [E|[E|[]]]; inversion E; auto. Qed.

(** Where an archived file comes from. *)
Lemma archive_origin p h l10n p' h' archive :
  Vocabulary.staged_ok (l10nTranslations p) ->
  heap_read (l10nBundles p) h = Some l10n ->
  Vocabulary.folders_ok l10n ->
  generate p h = (p', h', Ok archive) ->
  forall name bytes,
    In (name, bytes) archive ->
    name = "signature" \/ name = "manifest.json" \/
    In name (Obj.keys (bundle p')) \/
    exists lang f,
      In lang (Obj.keys (l10nTranslations p)) /\ Path.plain f = true /\
      name = Vocabulary.lproj lang ++ "/" ++ f.
Proof.
  intros S R F G.
  destruct (generate_l10n _ _ _ _ _ _ S R F G)
    as (l10n' & fb & sg & -> & L & W & ->).
  destruct L as (F' & _ & _ & _ & _ & K).
  intros name bytes Ia. apply in_app_or in Ia. destruct Ia as [Ia|Ia].
  - apply (in_map fst) in Ia. simpl in Ia.
    destruct (K name Ia) as [Ir|(x & u & f & Ix & Gx & If & ->)].
    + apply ObjFacts.In_keys_assign in Ir. destruct Ir as [[]|Ir]. auto.
    + right. right. right. exists x, f. split; [|split]; auto.
      * apply in_rev in Ix. exact Ix.
      * destruct (L10nFacts.folders_ok_get _ F' Gx) as [_ Pl]. auto.
  - apply archive_tail in Ia. tauto.
Qed.

Lemma generateStringFile_nonempty (tr : Obj.t string) :
  tr <> [] -> Utils.generateStringFile tr <> "".
Proof.
  destruct tr as [|[k v] r]; [congruence|]. intros _ E.
  apply (f_equal String.length) in E.
  unfold Utils.generateStringFile in E. cbn [map Str.join fst snd] in E.
  destruct (map _ r); rewrite !StrFacts.length_append in E; simpl in E; lia.
Qed.

Lemma colors_not k (f : string -> bool) :
  existsb (String.eqb k) passColors = false ->
  existsb (String.eqb k) (filter f passColors) = false.
Proof.
  unfold passColors. simpl. rewrite !orb_false_iff. intros (A & B & D & _).
  destruct (f "backgroundColor"), (f "foregroundColor"), (f "labelColor");
    simpl; rewrite ?A, ?B, ?D; reflexivity.
Qed.

Lemma get_prune_colors k props_ :
  existsb (String.eqb k) passColors = false ->
  Obj.get k (prune_colors props_) = Obj.get k props_.
Proof.
  intros H. unfold prune_colors. rewrite get_delete_all.
  now rewrite colors_not.
Qed.

Lemma nfc_alias_write t sub q :
  t <> "nfc" ->
  Vocabulary.nfc_declared (alias_write t sub q) = Vocabulary.nfc_declared q.
Proof.
  intros N. unfold alias_write, Vocabulary.nfc_declared.
  destruct (Obj.has t (passProps q)); auto.
  simpl. rewrite ObjFacts.get_set_other; auto.
Qed.

(** [_patch] does not change whether an NFC payload is declared. *)
Lemma patch_nfc b p :
  is_type_key (type p) = true ->
  Vocabulary.nfc_declared (fst (_patch b p)) = Vocabulary.nfc_declared p.
Proof.
  intros T.
  assert (N : type p <> "nfc").
  { intros E. rewrite E in T. discriminate. }
  assert (H : Vocabulary.nfc_declared (fst (patch_passFile b p))
              = Vocabulary.nfc_declared p).
  { unfold patch_passFile.
    destruct (JSON_parse b) as [parsed|]; auto.
    set (p1 := if negb (List.length (passProps p) =? 0)%nat
               then with_passProps (prune_colors (passProps p)) p else p).
    assert (S1 : Vocabulary.nfc_declared p1 = Vocabulary.nfc_declared p).
    { subst p1. destruct (negb _); auto.
      unfold Vocabulary.nfc_declared. simpl.
      now rewrite get_prune_colors. }
    destruct parsed; auto.
    match goal with |- context [Obj.get (type p) ?x] =>
      destruct (Obj.get (type p) x) as [[]|] end; auto.
    - destruct (_ && _); auto.
    - destruct (_ && _); cbn [fst]; rewrite ?nfc_alias_write; auto. }
  unfold _patch. destruct (patch_passFile b p) as [p' [x|e]]; exact H.
Qed.

Lemma slash_path_not dir r name :
  Str.contains_char Str.slash name = false ->
  dir ++ String Str.slash r <> name.
Proof.
  intros H E. subst name.
  rewrite StrFacts.contains_char_append in H. simpl in H.
  rewrite orb_true_r in H. discriminate.
Qed.

(** After a successful [generate], the shared store holds, for every
    staged language with a rendered string table, the old bytes of
    [pass.strings] followed by the rendered ones, and the archive holds
    these bytes, and no others, under [<lang>.lproj/pass.strings]. *)
Lemma strings_archived p h l10n p' h' archive :
  Vocabulary.staged_ok (l10nTranslations p) ->
  heap_read (l10nBundles p) h = Some l10n ->
  Vocabulary.folders_ok l10n ->
  generate p h = (p', h', Ok archive) ->
  exists l10n',
    heap_read (l10nBundles p) h' = Some l10n' /\
    Vocabulary.folders_ok l10n' /\
    forall lang tr,
      Obj.get lang (l10nTranslations p) = Some tr ->
      Utils.generateStringFile tr <> "" ->
      Vocabulary.existing_strings (Obj.get (Vocabulary.lproj lang) l10n')
        = Vocabulary.existing_strings (Obj.get (Vocabulary.lproj lang) l10n)
            ++ Utils.generateStringFile tr /\
      In (Vocabulary.lproj lang ++ "/pass.strings",
          Vocabulary.existing_strings (Obj.get (Vocabulary.lproj lang) l10n)
            ++ Utils.generateStringFile tr) archive /\
      forall other,
        In (Vocabulary.lproj lang ++ "/pass.strings", other) archive ->
        other = Vocabulary.existing_strings
                  (Obj.get (Vocabulary.lproj lang) l10n)
                  ++ Utils.generateStringFile tr.
Proof.
  intros S R F G.
  destruct (generate_l10n _ _ _ _ _ _ S R F G)
    as (l10n' & fb & sg & -> & L & W & ->).
  destruct L as (F' & L1 & _ & P1 & _ & _).
  exists l10n'. split; [eapply L10nFacts.heap_read_write; exact R|].
  split; [exact F'|].
  intros lang tr E NE.
  assert (I : In lang (rev (Obj.keys (l10nTranslations p)))).
  { apply in_rev. rewrite rev_involutive.
    now apply ObjFacts.get_Some_keys in E. }
  specialize (L1 lang I). unfold Vocabulary.rendered in L1. rewrite E in L1.
  unfold Vocabulary.merged_folder in L1.
  destruct (String.length (Utils.generateStringFile tr) =? 0)%nat eqn:Z.
  { apply StrFacts.length_zero in Z. contradiction. }
  assert (Gp : Obj.get (Vocabulary.lproj lang ++ "/pass.strings") fb
               = Some (Vocabulary.existing_strings
                         (Obj.get (Vocabulary.lproj lang) l10n)
                         ++ Utils.generateStringFile tr)).
  { apply (P1 lang _ "pass.strings" _ I L1). apply ObjFacts.get_set_same. }
  split; [|split].
  - rewrite L1. unfold Vocabulary.existing_strings at 1.
    now rewrite ObjFacts.get_set_same.
  - apply in_or_app. left. now apply ObjFacts.get_In.
  - intros other Io. apply in_app_or in Io. destruct Io as [Io|Io].
    + apply ObjFacts.In_get in Io; [|exact W]. congruence.
    + apply archive_tail in Io.
      destruct Io as [Io|Io]; exfalso;
        revert Io; apply slash_path_not; reflexivity.
Qed.

End GenerateFacts.

(* ================================================================== *)
(** * The localization loop, whatever the names are *)
(* ================================================================== *)

Module PlacementFacts.
Import Str Path Vocabulary Placement PathFacts L10nFacts.

Section Paths.
Variable g : string -> string.



Lemma paths_named (u : BundleUnit) key :
  In key (Obj.keys (Obj.assign [] (map (fun e => (g (fst e), snd e)) u))) ->
  exists f, In f (Obj.keys u) /\ key = g f.
Proof.
  intros I. apply ObjFacts.In_keys_assign in I. destruct I as [[]|I].
  rewrite (keys_map_keys g u) in I. apply in_map_iff in I.
  destruct I as [f [E I]]. eauto.
Qed.

End Paths.

(** The reducer of lines 248-259 is an [Object.assign] of the computed
    entries. *)
Lemma flatten_general lang (u : BundleUnit) :
  fold_left
    (fun acc entry =>
       extend acc
         (replace_first backslash slash (Path.join (lproj lang) (fst entry)))
         (snd entry))
    u [] =
  Obj.assign [] (map (fun e => (flat (lproj lang) (fst e), snd e)) u).
Proof.
  apply (ObjFacts.fold_extend
           (fun e : string * Buffer => flat (lproj lang) (fst e))
           (fun e => snd e)).
  apply ObjFacts.wf_nil.
Qed.

(** One turn of the loop, in closed form, whatever the names are. *)
Lemma step_general trs lang l10n fb :
  l10n_step trs lang (l10n, fb) =
  (match merged trs l10n lang with
   | Some u => if (String.length (rendered trs lang) =? 0)%nat then l10n
               else Obj.set (lproj lang) u l10n
   | None => l10n
   end,
   match merged trs l10n lang with
   | Some u =>
       if (List.length u =? 0)%nat then fb
       else Obj.assign fb
              (Obj.assign []
                 (map (fun e => (flat (lproj lang) (fst e), snd e)) u))
   | None => fb
   end).
Proof.
  unfold l10n_step, merged. cbv zeta.
  fold (rendered trs lang). fold (lproj lang).
  destruct (merged_folder (rendered trs lang) (Obj.get (lproj lang) l10n))
    as [u|] eqn:M.
  - unfold merged_folder in M.
    destruct (String.length (rendered trs lang) =? 0)%nat; simpl negb; cbv iota.
    + rewrite M. rewrite flatten_general. now rewrite pair_if.
    + inversion M; subst; clear M.
      assert (E : forall o : option BundleUnit,
                 existing_strings o =
                 match Obj.get "pass.strings"
                         (match o with Some u => u | None => [] end) with
                 | Some b => b | None => ""
                 end) by (intros [x|]; reflexivity).
      rewrite <- E. rewrite ObjFacts.get_set_same.
      rewrite flatten_general. now rewrite pair_if.
  - unfold merged_folder in M.
    destruct (String.length (rendered trs lang) =? 0)%nat; [|discriminate].
    simpl negb. cbv iota. now rewrite M.
Qed.














End PlacementFacts.

Module SourceFacts.
Import Str Path Vocabulary Placement PathFacts L10nFacts PlacementFacts.

(** Where the names of the final bundle come from, whatever is staged
    and stored. *)
Lemma step_names trs lang l10n fb key :
  In key (Obj.keys (snd (l10n_step trs lang (l10n, fb)))) ->
  In key (Obj.keys fb) \/ exists f, key = flat (lproj lang) f.
Proof.
  rewrite step_general. cbn [snd].
  destruct (merged trs l10n lang) as [u|]; auto.
  destruct (List.length u =? 0)%nat; auto.
  intros I. apply ObjFacts.In_keys_assign in I. destruct I as [I|I]; auto.
  right. apply (paths_named (flat (lproj lang))) in I.
  destruct I as [f [_ E]]. eauto.
Qed.

Lemma loop_names trs codes :
  forall l10n fb key,
    In key (Obj.keys (snd (l10n_loop trs codes (l10n, fb)))) ->
    In key (Obj.keys fb) \/
    exists lang f, In lang codes /\ key = flat (lproj lang) f.
Proof.
  induction codes as [|lang rest IH]; intros l10n fb key; simpl; auto.
  destruct (lang =? ""); simpl; auto.
  pose proof (step_names trs lang l10n fb key) as S.
  destruct (l10n_step trs lang (l10n, fb)) as [l1 f1]. cbn [snd] in S.
  intros I. destruct (IH l1 f1 key I) as [I1|(x & f & Ix & E)].
  - destruct (S I1) as [I0|[f E]]; auto.
    right. exists lang, f. auto.
  - right. exists x, f. auto.
Qed.

Lemma merge_names {C : Collaborators} p h h' fb key :
  merge_l10n p h = Ok (h', fb) ->
  In key (Obj.keys fb) ->
  In key (Obj.keys (bundle p)) \/
  exists lang f,
    In lang (Obj.keys (l10nTranslations p)) /\ key = flat (lproj lang) f.
Proof.
  unfold merge_l10n.
  assert (Root : In key (Obj.keys (Obj.spread (bundle p))) ->
                 In key (Obj.keys (bundle p))).
  { intros I. apply ObjFacts.In_keys_assign in I. destruct I as [[]|I]. exact I. }
  destruct (rev (Obj.keys (l10nTranslations p))) as [|lang rest] eqn:E.
  { intros X. inversion X; subst. auto. }
  destruct (lang =? "").
  { intros X. inversion X; subst. auto. }
  destruct (heap_read (l10nBundles p) h) as [l10n|]; [|discriminate].
  pose proof (loop_names (l10nTranslations p) (lang :: rest) l10n
                (Obj.spread (bundle p)) key) as L.
  destruct (l10n_loop (l10nTranslations p) (lang :: rest)
              (l10n, Obj.spread (bundle p))) as [l10n' fb'].
  cbn [snd] in L. intros X. inversion X; subst. intros I.
  destruct (L I) as [I0|(x & f & Ix & Ex)]; auto.
  right. exists x, f. split; auto.
  apply in_rev. rewrite E. exact Ix.
Qed.

End SourceFacts.

Section GeneralGenerate.
Context {C : Collaborators}.
Import Str Path Vocabulary Placement PathFacts L10nFacts PlacementFacts.

(** Where an archived name comes from, whatever is staged and stored. *)
Lemma archive_source p h p' h' archive :
  generate p h = (p', h', Ok archive) ->
  forall name bytes,
    In (name, bytes) archive ->
    name = "signature" \/ name = "manifest.json" \/
    In name (Obj.keys (bundle p')) \/
    exists lang f,
      In lang (Obj.keys (l10nTranslations p)) /\ name = flat (lproj lang) f.
Proof.
  intros G.
  destruct (generate_frame _ _ _ _ _ G) as (_ & _ & _ & _ & _ & E2).
  apply generate_Ok in G.
  destruct G as (passJson & p1 & patched & fb & sg & _ & _ & _ & GM & _ & ->).
  intros name bytes Ia. apply in_app_or in Ia. destruct Ia as [Ia|Ia].
  - apply (in_map fst) in Ia. simpl in Ia.
    destruct (SourceFacts.merge_names _ _ _ _ _ GM Ia) as [I|(x & f & I & E)].
    + auto.
    + right. right. right. exists x, f. rewrite <- E2. auto.
  - apply archive_tail in Ia. tauto.
Qed.



End GeneralGenerate.

Module SegmentFacts.
Import Str Path Vocabulary Placement PathFacts L10nFacts.


Lemma plain_segment s : plain s = true -> segment s = true.
Proof.
  unfold plain, segment. rewrite !andb_true_iff. tauto.
Qed.








End SegmentFacts.

Section LocalizationMerge.

Context {C : Collaborators}.
Import Str Path Vocabulary Placement.


End LocalizationMerge.



Section Personalization.

Context {C : Collaborators}.
Import Vocabulary.

(** The bundle [generate] leaves in the instance holds no
    personalization artifact when no NFC payload is declared and the
    descriptor was there. *)
Lemma pruned_bundle p h p' h' archive :
  is_type_key (type p) = true ->
  nfc_declared p = false ->
  In "personalization.json" (Obj.keys (bundle p)) ->
  generate p h = (p', h', Ok archive) ->
  forall name, In name (Obj.keys (bundle p')) ->
               is_personalization_file name = false.
Proof.
  intros T N I G. apply generate_Ok in G.
  destruct G as (passJson & p1 & patched & fb & sg & _ & GP & -> & _).
  pose proof (patch_nfc passJson p T) as N1.
  pose proof (patch_frame passJson p) as Fr.
  rewrite GP in N1, Fr. cbn [fst] in N1, Fr. destruct Fr as (B & _).
  rewrite N in N1.
  unfold prune_personalization. cbn [passProps with_bundle bundle].
  unfold nfc_declared in N1. rewrite N1. cbn [negb andb].
  assert (I1 : In "personalization.json"
                  (Obj.keys (Obj.set "pass.json" patched (bundle p1)))).
  { apply ObjFacts.In_keys_set. right. now rewrite B. }
  destruct (existsb _ _) eqn:E.
  2:{ exfalso.
      assert (X : existsb (String.eqb "personalization.json")
                    (Obj.keys (Obj.set "pass.json" patched (bundle p1))) = true).
      { apply existsb_exists. eexists. split; [exact I1|apply String.eqb_refl]. }
      congruence. }
  cbn [bundle with_bundle]. intros name In'.
  unfold Utils.deletePersonalization in In'.
  apply In_keys_delete_all in In'. destruct In' as [Nin Ik].
  unfold is_personalization_file.
  destruct (String.eqb_spec name "personalization.json") as [->|_].
  { exfalso. apply Nin. apply in_or_app. right. now left. }
  destruct (Str.startsWith name "personalizationLogo") eqn:P; auto.
  exfalso. apply Nin. apply in_or_app. left.
  unfold Utils.getAllFilesWithName. apply filter_In. auto.
Qed.

(** A model that passed the checks of [getModelContents] holds
    [pass.json], and holds the personalization descriptor only untouched
    and together with a logo. *)
Lemma checked_model bundle_ b' :
  checkModelContents bundle_ = Ok b' ->
  In "pass.json" (Obj.keys b') /\
  (In "personalization.json" (Obj.keys b') ->
   b' = bundle_ /\
   exists logo, In logo (Obj.keys bundle_) /\
                Str.startsWith logo "personalizationLogo" = true).
Proof.
  unfold checkModelContents.
  destruct (existsb (String.eqb "pass.json") (Obj.keys bundle_)) eqn:PJ;
    [|discriminate].
  destruct (Utils.hasFilesWithName "icon" (Obj.keys bundle_)); [|discriminate].
  cbn [andb negb].
  apply existsb_exists in PJ. destruct PJ as [x [Ix Ex]].
  apply String.eqb_eq in Ex. subst x.
  assert (Del : forall names,
             ~ In "pass.json" names -> In "personalization.json" names ->
             In "pass.json"
                (Obj.keys (fold_left (fun b file => Obj.delete file b)
                                     names bundle_)) /\
             (In "personalization.json"
                 (Obj.keys (fold_left (fun b file => Obj.delete file b)
                                      names bundle_)) ->
              fold_left (fun b file => Obj.delete file b) names bundle_
                = bundle_ /\
              exists logo, In logo (Obj.keys bundle_) /\
                           Str.startsWith logo "personalizationLogo" = true)).
  { intros names N I. split.
    - apply In_keys_delete_all. auto.
    - intros K. apply In_keys_delete_all in K. tauto. }
  assert (Names : ~ In "pass.json"
                      (Utils.getAllFilesWithName "personalizationLogo"
                         (Obj.keys bundle_) ++ ["personalization.json"])%list
                  /\ In "personalization.json"
                        (Utils.getAllFilesWithName "personalizationLogo"
                           (Obj.keys bundle_) ++ ["personalization.json"])%list).
  { split.
    - intros I. apply in_app_or in I. destruct I as [I|[I|[]]].
      + apply filter_In in I. destruct I as [_ I]. discriminate.
      + discriminate.
    - apply in_or_app. right. now left. }
  destruct Names as [N1 N2].
  destruct (Obj.get "personalization.json" bundle_) as [descriptor|] eqn:G.
  2:{ intros E. inversion E; subst. split; auto.
      intros K. apply ObjFacts.get_None_keys in G. contradiction. }
  destruct (Utils.getAllFilesWithName "personalizationLogo" (Obj.keys bundle_))
    as [|logo logos] eqn:L.
  { cbn. intros E. inversion E; subst. apply (Del _ N1 N2). }
  cbn [List.length Nat.eqb negb andb].
  destruct (negb (negb (String.length descriptor =? 0)%nat)).
  { intros E. inversion E; subst. apply (Del _ N1 N2). }
  assert (Logo : exists l, In l (Obj.keys bundle_) /\
                           Str.startsWith l "personalizationLogo" = true).
  { exists logo.
    assert (I : In logo (Utils.getAllFilesWithName "personalizationLogo"
                           (Obj.keys bundle_))) by (rewrite L; now left).
    apply filter_In in I. exact I. }
  destruct (JSON_parse descriptor) as [parsed|].
  - destruct (isValid Personalization parsed).
    + intros E. inversion E; subst. auto.
    + intros E. inversion E; subst. apply (Del _ N1 N2).
  - intros E. inversion E; subst. apply (Del _ N1 N2).
Qed.

Lemma prefix_append p l s :
  String.prefix p l = true -> String.prefix p (l ++ s) = true.
Proof.
  revert l. induction p as [|a p IH]; intros l.
  - intros _. now destruct (l ++ s).
  - destruct l as [|b l]; simpl; [discriminate|].
    destruct (ascii_dec a b); [apply IH|discriminate].
Qed.

Lemma logo_code_path lang f :
  Str.startsWith lang "personalizationLogo" = true ->
  is_personalization_file (lproj lang ++ "/" ++ f) = true.
Proof.
  intros P. unfold is_personalization_file. apply orb_true_iff. right.
  unfold Str.startsWith, lproj in *. rewrite StrFacts.append_assoc.
  now apply prefix_append.
Qed.

Lemma logo_path_code lang f :
  is_personalization_file (lproj lang ++ "/" ++ f) = true ->
  Str.startsWith lang "personalizationLogo" = true.
Proof.
  unfold is_personalization_file.
  destruct (String.eqb_spec (lproj lang ++ "/" ++ f) "personalization.json")
    as [E|_].
  { exfalso. revert E. apply slash_path_not. reflexivity. }
  simpl. intros P.
  unfold Str.startsWith, lproj in *.
  rewrite StrFacts.append_assoc in P.
  change (".lproj" ++ "/" ++ f) with (String "."%char ("lproj" ++ "/" ++ f)) in P.
  apply StrFacts.prefix_before in P; [exact P|reflexivity].
Qed.

(** C3.  When no NFC payload is declared and the bundle holds
    [personalization.json], a successful [generate] leaves no
    personalization artifact -- neither [personalization.json] nor a
    name that starts with [personalizationLogo] -- in the bundle it
    stores back in the instance, and an archived name of that kind can
    only be the path of a file of a staged language, which the pruning
    does not reach.  With no language staged the archive has none.
    With languages staged under codes without separators over folders
    of one-segment names, the archived names of that kind are exactly
    the files of the languages whose code starts with
    [personalizationLogo], and the string table of such a language is
    archived.  The statement is about any instance, hence about every
    call. *)
Theorem personalization_pruned (p : Pass) (h : Heap) p' h' archive :
  is_type_key (type p) = true ->
  nfc_declared p = false ->
  In "personalization.json" (Obj.keys (bundle p)) ->
  generate p h = (p', h', Ok archive) ->
  (forall name, In name (Obj.keys (bundle p')) ->
                is_personalization_file name = false) /\
  (forall name bytes,
      In (name, bytes) archive ->
      is_personalization_file name = true ->
      exists lang f,
        In lang (Obj.keys (l10nTranslations p)) /\
        name = flat (lproj lang) f) /\
  (l10nTranslations p = [] ->
   forall name bytes,
     In (name, bytes) archive -> is_personalization_file name = false) /\
  (forall l10n,
      staged_ok (l10nTranslations p) ->
      heap_read (l10nBundles p) h = Some l10n ->
      folders_ok l10n ->
      (forall name bytes,
          In (name, bytes) archive ->
          (is_personalization_file name = true <->
           exists lang f,
             In lang (Obj.keys (l10nTranslations p)) /\
             Str.startsWith lang "personalizationLogo" = true /\
             name = lproj lang ++ "/" ++ f)) /\
      (forall lang tr,
          Obj.get lang (l10nTranslations p) = Some tr ->
          Utils.generateStringFile tr <> "" ->
          Str.startsWith lang "personalizationLogo" = true ->
          In (lproj lang ++ "/pass.strings") (map fst archive) /\
          is_personalization_file (lproj lang ++ "/pass.strings") = true)).
Proof.
  intros T N I G. pose proof (pruned_bundle _ _ _ _ _ T N I G) as Root.
  assert (Src : forall name bytes,
             In (name, bytes) archive ->
             is_personalization_file name = true ->
             exists lang f,
               In lang (Obj.keys (l10nTranslations p)) /\
               name = flat (lproj lang) f).
  { intros name bytes Ia P.
    destruct (archive_source _ _ _ _ _ G name bytes Ia)
      as [->|[->|[Ir|X]]].
    - vm_compute in P. discriminate.
    - vm_compute in P. discriminate.
    - rewrite (Root name Ir) in P. discriminate.
    - exact X. }
  split; [exact Root|]. split; [exact Src|]. split.
  { intros E0 name bytes Ia.
    destruct (is_personalization_file name) eqn:P; auto.
    destruct (Src name bytes Ia P) as (lang & _ & Il & _).
    rewrite E0 in Il. destruct Il. }
  intros l10n S R F. split.
  - intros name bytes Ia. split.
    + intros P.
      destruct (archive_origin _ _ _ _ _ _ S R F G name bytes Ia)
        as [->|[->|[Ir|(lang & f & Il & Pf & ->)]]].
      * vm_compute in P. discriminate.
      * vm_compute in P. discriminate.
      * rewrite (Root name Ir) in P. discriminate.
      * exists lang, f. split; [exact Il|]. split; [|reflexivity].
        now apply logo_path_code in P.
    + intros (lang & f & _ & P & ->). now apply logo_code_path.
  - intros lang tr E NE P.
    destruct (strings_archived _ _ _ _ _ _ S R F G) as (l1 & _ & _ & A).
    destruct (A lang tr E NE) as (_ & A1 & _). split.
    + apply (in_map fst) in A1. exact A1.
    + now apply (logo_code_path lang "pass.strings").
Qed.

End Personalization.

(** The store card of the sample carries [personalization.json] and a
    logo and declares no NFC payload. *)
Lemma personalization_pruned_witness :
  exists p' h' archive,
    generate (C := Sample.env1) Sample.storeCard_pass Sample.store
      = (p', h', Ok archive) /\
    In "personalizationLogo.png" (Obj.keys (bundle Sample.storeCard_pass)) /\
    (forall name, In name (Obj.keys (bundle p')) ->
                  Vocabulary.is_personalization_file name = false) /\
    (forall name bytes, In (name, bytes) archive ->
                        Vocabulary.is_personalization_file name = false).
Proof.
  destruct (generate (C := Sample.env1) Sample.storeCard_pass Sample.store)
    as [[p' h'] [archive|e]] eqn:G; [|vm_compute in G; discriminate].
  exists p', h', archive. split; [reflexivity|].
  split; [vm_compute; tauto|].
  assert (T : is_type_key (type Sample.storeCard_pass) = true) by reflexivity.
  assert (N : Vocabulary.nfc_declared Sample.storeCard_pass = false)
    by reflexivity.
  assert (I : In "personalization.json"
                 (Obj.keys (bundle Sample.storeCard_pass)))
    by (vm_compute; tauto).
  destruct (personalization_pruned _ _ _ _ _ T N I G) as (Root & _ & _ & Arch).
  split; [exact Root|].
  destruct (Arch [("en.lproj", [("pass.strings", "OLD;"); ("logo.png", "EN-LOGO")])])
    as (Names & _).
  - apply MergeFacts.staged_okb_sound; reflexivity.
  - reflexivity.
  - apply MergeFacts.folders_okb_sound; reflexivity.
  - intros name bytes Ia.
    destruct (Vocabulary.is_personalization_file name) eqn:P; auto.
    apply (Names name bytes Ia) in P.
    destruct P as (lang & f & Il & P & _). vm_compute in Il.
    destruct Il as [<-|[<-|[]]]; discriminate.
Defined.

(** Against C3 as stated: the store card carries [personalization.json]
    and declares no NFC payload, and the string table staged under the
    code [personalizationLogoX] is archived under a name that starts
    with [personalizationLogo]. *)
Lemma personalization_archived_counterexample :
  exists p' h' archive,
    Vocabulary.nfc_declared Fixtures.logo_language_pass = false /\
    In "personalization.json" (Obj.keys (bundle Fixtures.logo_language_pass)) /\
    generate (C := Sample.env1) Fixtures.logo_language_pass Sample.store
      = (p', h', Ok archive) /\
    In "personalizationLogoX.lproj/pass.strings" (map fst archive) /\
    Str.startsWith "personalizationLogoX.lproj/pass.strings"
                   "personalizationLogo" = true.
Proof.
  eexists _, _, _. split; [reflexivity|]. split; [vm_compute; tauto|].
  split; [vm_compute; reflexivity|]. split; [vm_compute; tauto|reflexivity].
Qed.

Section ConstructFacts.

Context {C : Collaborators}.

(** What a successful construction is made of. *)
Lemma construct_Ok options p :
  construct options = Ok p ->
  exists passJson core validOverrides validated sub,
    isValidPassInstance options = true /\
    Obj.get "pass.json" (Obj.spread (pb_bundle (model options)))
      = Some passJson /\
    JSON_parse passJson = Some (JObject core) /\
    getValidatedOverrides
      (match overrides options with Some o => o | None => [] end)
      = Some validOverrides /\
    find is_type_key (Obj.keys core) = Some (type p) /\
    validatedPassKeys (type p) core [] (Obj.keys core) = Ok validated /\
    JS.prop (JObject core) (type p) = Ok sub /\
    create_fields sub FieldsArray._fields FieldsArray.empty = Ok (fields p) /\
    bundle p = Obj.spread (pb_bundle (model options)) /\
    l10nBundles p = l10nBundle (model options) /\
    passProps p = Obj.assign (Obj.spread validated) validOverrides /\
    passCore p = JObject core /\
    Certificates p = certificates options /\
    l10nTranslations p = [] /\
    transitType p =
      (if type p =? "boardingPass" then
         match JS.prop sub "transitType" with
         | Ok t => if JS.truthy t then t else JString ""
         | Err _ => JString ""
         end
       else JString "").
Proof.
  unfold construct.
  destruct (isValidPassInstance options); [|discriminate]. cbn [negb].
  destruct (Obj.get "pass.json" (Obj.spread (pb_bundle (model options))))
    as [passJson|]; [|discriminate].
  destruct (JSON_parse passJson) as [parsed|] eqn:EJ; [|discriminate].
  destruct (getValidatedOverrides _) as [vo|] eqn:EV; [|discriminate].
  destruct parsed as [| | | | | |core]; try discriminate.
  destruct (find is_type_key (Obj.keys core)) as [t|] eqn:ET; [|discriminate].
  destruct (validatedPassKeys t core [] (Obj.keys core)) as [vd|] eqn:EK;
    [|discriminate]. cbn [bind].
  destruct (JS.prop (JObject core) t) as [sub|] eqn:ES; [|discriminate].
  cbn [bind].
  destruct (t =? "boardingPass") eqn:EB.
  - destruct (JS.prop sub "transitType") as [tt'|] eqn:ETT; [|discriminate].
    cbn [bind].
    destruct (create_fields sub FieldsArray._fields FieldsArray.empty)
      as [fl|] eqn:EF; [|discriminate]. cbn [bind].
    intros E. inversion E; subst; clear E. cbn.
    exists passJson, core, vo, vd, sub. rewrite EB, ETT. tauto.
  - cbn [bind].
    destruct (create_fields sub FieldsArray._fields FieldsArray.empty)
      as [fl|] eqn:EF; [|discriminate]. cbn [bind].
    intros E. inversion E; subst; clear E. cbn.
    exists passJson, core, vo, vd, sub. rewrite EB. tauto.
Qed.

End ConstructFacts.

Section Idempotence.

Context {C : Collaborators}.
Import Vocabulary.

(** C10.  [generate] changes the instance and the store it shares with
    its caller: the instance keeps the caller's reference to the
    localization bundle; after a successful call its bundle holds the
    patched [pass.json], and the shared localization bundle holds, for
    every language staged with a mapping that is not empty, the rendered
    bytes appended to [pass.strings].  A second successful call appends
    them again: its archive carries the rendered bytes twice under
    [<lang>.lproj/pass.strings], which differs from what the first
    archive carried. *)
Theorem generate_twice (p : Pass) (h : Heap) l10n p1 h1 a1 p2 h2 a2 :
  staged_ok (l10nTranslations p) ->
  heap_read (l10nBundles p) h = Some l10n ->
  folders_ok l10n ->
  generate p h = (p1, h1, Ok a1) ->
  generate p1 h1 = (p2, h2, Ok a2) ->
  (forall options, construct options = Ok p ->
                   l10nBundles p = l10nBundle (model options)) /\
  (exists passJson q patched,
      Obj.get "pass.json" (bundle p) = Some passJson /\
      _patch passJson p = (q, Ok patched) /\
      Obj.get "pass.json" (bundle p1) = Some patched) /\
  (exists l10n1,
      heap_read (l10nBundles p) h1 = Some l10n1 /\
      forall lang tr,
        Obj.get lang (l10nTranslations p) = Some tr ->
        tr <> [] ->
        existing_strings (Obj.get (lproj lang) l10n1)
          = existing_strings (Obj.get (lproj lang) l10n)
              ++ Utils.generateStringFile tr /\
        In (lproj lang ++ "/pass.strings",
            existing_strings (Obj.get (lproj lang) l10n)
              ++ Utils.generateStringFile tr) a1 /\
        In (lproj lang ++ "/pass.strings",
            (existing_strings (Obj.get (lproj lang) l10n)
               ++ Utils.generateStringFile tr)
              ++ Utils.generateStringFile tr) a2 /\
        (existing_strings (Obj.get (lproj lang) l10n)
           ++ Utils.generateStringFile tr) ++ Utils.generateStringFile tr
        <> existing_strings (Obj.get (lproj lang) l10n)
             ++ Utils.generateStringFile tr).
Proof.
  intros S R F G1 G2. split; [|split].
  - intros options E. apply construct_Ok in E.
    destruct E as (? & ? & ? & ? & ? & E). tauto.
  - pose proof G1 as G. apply generate_Ok in G.
    destruct G as (passJson & q & patched & fb & sg & G0 & GP & -> & _).
    exists passJson, q, patched. split; [|split]; auto.
    rewrite prune_personalization_keeps by (discriminate || reflexivity).
    simpl. apply ObjFacts.get_set_same.
  - destruct (strings_archived _ _ _ _ _ _ S R F G1) as (l10n1 & R1 & F1 & A1).
    destruct (generate_frame _ _ _ _ _ G1) as (E1 & _ & _ & _ & _ & E2).
    rewrite <- E2 in S. rewrite <- E1 in R1.
    destruct (strings_archived _ _ _ _ _ _ S R1 F1 G2) as (l10n2 & _ & _ & A2).
    rewrite E1 in R1. exists l10n1. split; [exact R1|].
    intros lang tr E NE.
    pose proof (generateStringFile_nonempty tr NE) as NS.
    destruct (A1 lang tr E NS) as (X1 & X2 & _).
    rewrite <- E2 in E. destruct (A2 lang tr E NS) as (_ & Y2 & _).
    rewrite X1 in Y2. repeat split; auto.
    intros Q. apply (f_equal String.length) in Q.
    rewrite !StrFacts.length_append in Q.
    destruct (Utils.generateStringFile tr); [congruence|]. simpl in Q. lia.
Qed.

End Idempotence.

(** The store card of the sample, generated twice. *)
Lemma generate_twice_witness :
  exists p1 h1 a1 p2 h2 a2,
    generate (C := Sample.env2) Sample.storeCard_pass Sample.store
      = (p1, h1, Ok a1) /\
    generate (C := Sample.env2) p1 h1 = (p2, h2, Ok a2) /\
    In ("en.lproj/pass.strings",
        "OLD;" ++ Utils.generateStringFile [("HELLO", "Hi")]) a1 /\
    In ("en.lproj/pass.strings",
        ("OLD;" ++ Utils.generateStringFile [("HELLO", "Hi")])
          ++ Utils.generateStringFile [("HELLO", "Hi")]) a2.
Proof.
  destruct (generate (C := Sample.env2) Sample.storeCard_pass Sample.store)
    as [[p1 h1] [a1|e]] eqn:G1; [|vm_compute in G1; discriminate].
  destruct (generate (C := Sample.env2) p1 h1)
    as [[p2 h2] [a2|e]] eqn:G2.
  2:{ exfalso. vm_compute in G1. inversion G1; subst.
      vm_compute in G2. discriminate. }
  exists p1, h1, a1, p2, h2, a2. split; [reflexivity|]. split; [exact G2|].
  assert (S : Vocabulary.staged_ok (l10nTranslations Sample.storeCard_pass))
    by (apply MergeFacts.staged_okb_sound; reflexivity).
  assert (R : heap_read (l10nBundles Sample.storeCard_pass) Sample.store
              = Some [("en.lproj", [("pass.strings", "OLD;");
                                    ("logo.png", "EN-LOGO")])])
    by reflexivity.
  assert (F : Vocabulary.folders_ok
                [("en.lproj", [("pass.strings", "OLD;");
                               ("logo.png", "EN-LOGO")])])
    by (apply MergeFacts.folders_okb_sound; reflexivity).
  destruct (generate_twice _ _ _ _ _ _ _ _ _ S R F G1 G2)
    as (_ & _ & l10n1 & _ & A).
  destruct (A "en" [("HELLO", "Hi")] eq_refl) as (_ & A1 & A2 & _);
    [discriminate|]. auto.
Defined.

Section PatchFacts.

Context {C : Collaborators}.

Lemma keys_prune_colors k props_ :
  In k (Obj.keys (prune_colors props_)) -> In k (Obj.keys props_).
Proof.
  unfold prune_colors. intros I. apply In_keys_delete_all in I. tauto.
Qed.

Lemma has_false_keys {V} k (o : Obj.t V) :
  Obj.has k o = false <-> ~ In k (Obj.keys o).
Proof.
  unfold Obj.has. rewrite <- ObjFacts.get_None_keys.
  destruct (Obj.get k o); split; congruence.
Qed.

Lemma get_overlaid_other p core k :
  ~ In k (Obj.keys (passProps p)) ->
  Obj.get k (overlaid p core) = Obj.get k core.
Proof.
  intros N. unfold overlaid. destruct (negb _); auto.
  rewrite ObjFacts.get_assign.
  destruct (Obj.get k (rev (prune_colors (passProps p)))) eqn:E; auto.
  exfalso. apply N. apply keys_prune_colors.
  apply ObjFacts.get_Some_keys in E.
  unfold Obj.keys in *. rewrite map_rev in E. now apply in_rev in E.
Qed.

Lemma patch_passFile_eq p core passJson :
  JSON_parse passJson = Some (JObject core) ->
  snd (patch_passFile passJson p) =
  match Obj.get (type p) (overlaid p core) with
  | Some (JObject sub) =>
      if (type p =? "boardingPass") && negb (JS.truthy (transitType p))
      then Err TRSTYPE_REQUIRED
      else Ok (Obj.set (type p) (JObject (patched_category p sub))
                       (overlaid p core))
  | Some (JArray _) =>
      if (type p =? "boardingPass") && negb (JS.truthy (transitType p))
      then Err TRSTYPE_REQUIRED
      else Ok (overlaid p core)
  | _ => Err TypeError
  end.
Proof.
  intros EJ. unfold patch_passFile, overlaid, patched_category. rewrite EJ.
  destruct (negb (List.length (passProps p) =? 0)%nat); cbn [passProps with_passProps];
    match goal with |- context [Obj.get (type p) ?y] =>
      destruct (Obj.get (type p) y) as [[]|] end; try reflexivity;
    destruct (_ && _); reflexivity.
Qed.

(** The record [_patch] serializes, for well-formed metadata with the
    transit requirement met. *)
Lemma patch_passFile_Ok p core sub passJson :
  JSON_parse passJson = Some (JObject core) ->
  Obj.get (type p) core = Some (JObject sub) ->
  Obj.has (type p) (passProps p) = false ->
  (type p =? "boardingPass") && transit_unresolved p = false ->
  snd (patch_passFile passJson p)
  = Ok (Obj.set (type p) (JObject (patched_category p sub)) (overlaid p core)).
Proof.
  intros EJ ES EH EM. rewrite (patch_passFile_eq p core passJson EJ).
  apply has_false_keys in EH.
  rewrite (get_overlaid_other p core _ EH), ES.
  unfold transit_unresolved in EM. rewrite EM. reflexivity.
Qed.

Lemma patch_passFile_missing p core sub passJson :
  JSON_parse passJson = Some (JObject core) ->
  Obj.get (type p) core = Some (JObject sub) ->
  Obj.has (type p) (passProps p) = false ->
  (type p =? "boardingPass") && transit_unresolved p = true ->
  snd (patch_passFile passJson p) = Err TRSTYPE_REQUIRED.
Proof.
  intros EJ ES EH EM. rewrite (patch_passFile_eq p core passJson EJ).
  apply has_false_keys in EH.
  rewrite (get_overlaid_other p core _ EH), ES.
  unfold transit_unresolved in EM. rewrite EM. reflexivity.
Qed.

(** Without a transit subtype a boarding pass is never serialized. *)
Lemma patch_passFile_never passJson p x :
  (type p =? "boardingPass") && transit_unresolved p = true ->
  snd (patch_passFile passJson p) <> Ok x.
Proof.
  intros EM. unfold patch_passFile, transit_unresolved in *.
  destruct (JSON_parse passJson) as [[]|]; try discriminate.
  match goal with |- context [Obj.get (type p) ?y] =>
    destruct (Obj.get (type p) y) as [[]|] end;
    try discriminate; rewrite EM; discriminate.
Qed.

(** The transit error is for boarding passes without a subtype only. *)
Lemma patch_passFile_transit passJson p :
  snd (patch_passFile passJson p) = Err TRSTYPE_REQUIRED ->
  type p = "boardingPass" /\ transit_unresolved p = true.
Proof.
  unfold patch_passFile, transit_unresolved.
  destruct (JSON_parse passJson) as [[]|]; try discriminate.
  match goal with |- context [Obj.get (type p) ?y] =>
    destruct (Obj.get (type p) y) as [[]|] end; try discriminate;
    destruct (type p =? "boardingPass") eqn:T; try discriminate;
    destruct (JS.truthy (transitType p)); try discriminate;
    intros _; apply String.eqb_eq in T; auto.
Qed.

Lemma patch_snd passJson p :
  snd (_patch passJson p)
  = match snd (patch_passFile passJson p) with
    | Ok passFile => Ok (JSON_stringify (JObject passFile))
    | Err e => Err e
    end.
Proof.
  unfold _patch. now destruct (patch_passFile passJson p) as [p' [x|e]].
Qed.

(** The outcome of [generate] when [_patch] fails. *)
Lemma generate_patch_Err p h passJson e :
  Obj.get "pass.json" (bundle p) = Some passJson ->
  snd (patch_passFile passJson p) = Err e ->
  snd (generate p h) = Err e.
Proof.
  intros G E. unfold generate. rewrite G.
  pose proof (patch_snd passJson p) as S. rewrite E in S.
  destruct (_patch passJson p) as [p1 [x|e']]; simpl in S; [discriminate|].
  inversion S. reflexivity.
Qed.

Lemma merge_l10n_readable p h :
  store_readable p h -> exists h' fb, merge_l10n p h = Ok (h', fb).
Proof.
  unfold store_readable, merge_l10n. intros [E|R].
  - rewrite E. simpl. eauto.
  - destruct (rev (Obj.keys (l10nTranslations p))) as [|lang rest]; eauto.
    destruct (lang =? ""); eauto.
    destruct (heap_read (l10nBundles p) h); [|congruence].
    destruct (l10n_loop _ _ _). eauto.
Qed.

(** [generate] succeeds once [_patch] does, the store can be read and
    the signer signs. *)
Lemma generate_succeeds p h passJson passFile :
  Obj.get "pass.json" (bundle p) = Some passJson ->
  snd (patch_passFile passJson p) = Ok passFile ->
  store_readable p h -> can_sign p ->
  exists p' h' archive,
    generate p h = (p', h', Ok archive) /\
    Obj.get "pass.json" (bundle p')
      = Some (JSON_stringify (JObject passFile)).
Proof.
  intros G E R Sg. unfold generate. rewrite G.
  pose proof (patch_snd passJson p) as S. rewrite E in S.
  pose proof (patch_frame passJson p) as Fr.
  destruct (_patch passJson p) as [p1 [x|e']]; simpl in S; [|discriminate].
  inversion S; subst x; clear S. cbn [fst] in Fr.
  destruct Fr as (_ & F1 & _ & _ & F4 & _ & F6).
  set (p2 := prune_personalization _).
  destruct (prune_personalization_frame
              (with_bundle (Obj.set "pass.json"
                              (JSON_stringify (JObject passFile)) (bundle p1)) p1))
    as (G1 & _ & _ & _ & G4 & _ & G6).
  fold p2 in G1, G4, G6. cbn in G1, G4, G6.
  assert (R2 : store_readable p2 h).
  { unfold store_readable in *. rewrite G1, G6, F1, F6. exact R. }
  destruct (merge_l10n_readable p2 h R2) as (h' & fb & M). rewrite M.
  rewrite (build_manifest_wf _ (merge_l10n_wf _ _ _ _ M)).
  destruct (Signature_create _ (Certificates p2)) as [sg|] eqn:ES.
  - eexists _, _, _. split; [reflexivity|].
    subst p2. rewrite prune_personalization_keeps
      by (discriminate || reflexivity).
    simpl. apply ObjFacts.get_set_same.
  - exfalso. rewrite G4, F4 in ES. exact (Sg _ ES).
Qed.

End PatchFacts.

Section ConstructErrors.

Context {C : Collaborators}.

Lemma prop_Err v k e : JS.prop v k = Err e -> e = TypeError.
Proof. destruct v; simpl; intros E; inversion E; auto. Qed.

Lemma keys_length_Err v e : JS.keys_length v = Err e -> e = TypeError.
Proof. destruct v; simpl; intros E; inversion E; auto. Qed.

Lemma getValidInArray_Err s l e :
  getValidInArray s l = Err e -> e = TypeError.
Proof.
  unfold getValidInArray. induction l as [|x r IH]; simpl; [discriminate|].
  destruct (JS.keys_length x) as [n|e'] eqn:K; simpl.
  - destruct (JS.filterM _ r) as [r'|e'']; simpl; [discriminate|].
    intros E. inversion E; subst. now apply IH.
  - intros E. inversion E; subst. now apply keys_length_Err in K.
Qed.

Lemma validate_key_Err t core acc k e :
  validate_key t core acc k = Err e -> e = TypeError.
Proof.
  unfold validate_key. destruct (t =? k); [discriminate|].
  destruct (propsSchemaMap k) as [sc|]; [|discriminate].
  destruct (match Obj.get k core with Some x => x | None => JUndefined end);
    try discriminate.
  destruct (getValidInArray sc l) as [v|e'] eqn:G; simpl; [discriminate|].
  intros E. inversion E; subst. now apply getValidInArray_Err in G.
Qed.

Lemma validatedPassKeys_Err t core keys acc e :
  validatedPassKeys t core acc keys = Err e -> e = TypeError.
Proof.
  revert acc. induction keys as [|k r IH]; intros acc; simpl; [discriminate|].
  destruct (validate_key t core acc k) as [acc'|e'] eqn:V; simpl.
  - apply IH.
  - intros E. inversion E; subst. now apply validate_key_Err in V.
Qed.

Lemma FieldsArray_create_Err s l c e :
  FieldsArray.create s l c = Err e -> e = DuplicateKey.
Proof.
  revert c. induction l as [|f r IH]; intros c; simpl; [discriminate|].
  unfold FieldsArray.insert.
  destruct (FieldsArray.pool_has _ _).
  - intros E. now inversion E.
  - apply IH.
Qed.

Lemma template_fields_Err sub s e :
  template_fields sub s = Err e -> e = TypeError.
Proof.
  unfold template_fields.
  destruct (JS.prop sub (FieldsArray.slot_name s)) as [v|e'] eqn:P; simpl.
  - destruct (JS.truthy v); [|discriminate].
    destruct v; try discriminate; intros E; now inversion E.
  - intros E. inversion E; subst. now apply prop_Err in P.
Qed.

Lemma create_fields_Err sub names c e :
  create_fields sub names c = Err e -> e = TypeError \/ e = DuplicateKey.
Proof.
  revert c. induction names as [|s r IH]; intros c; simpl; [discriminate|].
  destruct (template_fields sub s) as [l|e'] eqn:T; simpl.
  - destruct (FieldsArray.create s l c) as [c'|e''] eqn:F; simpl.
    + apply IH.
    + intros E. inversion E; subst. right. now apply FieldsArray_create_Err in F.
  - intros E. inversion E; subst. left. now apply template_fields_Err in T.
Qed.

(** The constructor never raises the transit-subtype error. *)
Lemma construct_no_transit_error options :
  construct options <> Err TRSTYPE_REQUIRED.
Proof.
  unfold construct.
  destruct (isValidPassInstance options); [|discriminate]. cbn [negb].
  destruct (Obj.get "pass.json" (Obj.spread (pb_bundle (model options))))
    as [passJson|]; [|discriminate].
  destruct (JSON_parse passJson) as [parsed|]; [|discriminate].
  destruct (getValidatedOverrides _) as [vo|]; [|discriminate].
  destruct parsed as [| | | | | |core]; try discriminate.
  destruct (find is_type_key (Obj.keys core)) as [t|]; [|discriminate].
  destruct (validatedPassKeys t core [] (Obj.keys core)) as [vd|e] eqn:EK.
  2:{ apply validatedPassKeys_Err in EK. subst. discriminate. }
  cbn [bind].
  destruct (JS.prop (JObject core) t) as [sub|e] eqn:ES; [|discriminate].
  cbn [bind].
  assert (X : forall tt',
             (let* fields_ := create_fields sub FieldsArray._fields
                                            FieldsArray.empty in
              Ok {| bundle := Obj.spread (pb_bundle (model options));
                    l10nBundles := l10nBundle (model options);
                    passProps := Obj.assign (Obj.spread vd) vo;
                    type := t; passCore := JObject core; fields := fields_;
                    Certificates := certificates options;
                    transitType := tt'; l10nTranslations := [] |})
             <> Err TRSTYPE_REQUIRED).
  { intros tt'.
    destruct (create_fields sub FieldsArray._fields FieldsArray.empty)
      as [fl|e] eqn:EF; simpl; [discriminate|].
    apply create_fields_Err in EF. destruct EF; subst; discriminate. }
  destruct (t =? "boardingPass").
  - destruct (JS.prop sub "transitType") as [tt'|e] eqn:ETT.
    + cbn [bind]. apply X.
    + apply prop_Err in ETT. subst. discriminate.
  - cbn [bind]. apply X.
Qed.

Lemma keys_extend {V} k k' (v : V) acc :
  In k (Obj.keys (extend acc k' v)) -> k = k' \/ In k (Obj.keys acc).
Proof.
  unfold extend, Obj.spread. intros I.
  apply ObjFacts.In_keys_set in I. destruct I as [I|I]; auto.
  apply ObjFacts.In_keys_assign in I. destruct I as [[]|I]; auto.
Qed.

Lemma validate_key_keys t core acc k acc' x :
  validate_key t core acc k = Ok acc' ->
  In x (Obj.keys acc') -> In x (Obj.keys acc) \/ (x = k /\ x <> t).
Proof.
  unfold validate_key. destruct (String.eqb_spec t k) as [->|N].
  { intros E. inversion E; subst. auto. }
  assert (X : forall v, In x (Obj.keys (extend acc k v)) ->
                        In x (Obj.keys acc) \/ x = k /\ x <> t).
  { intros v I. apply keys_extend in I. destruct I as [->|I]; auto. }
  destruct (propsSchemaMap k) as [sc|].
  2:{ intros E. inversion E; subst. apply X. }
  destruct (match Obj.get k core with Some y => y | None => JUndefined end);
    try (intros E; inversion E; subst; apply X).
  destruct (getValidInArray sc l) as [v|e']; simpl; [|discriminate].
  intros E. inversion E; subst. apply X.
Qed.

Lemma validatedPassKeys_keys t core keys acc acc' x :
  validatedPassKeys t core acc keys = Ok acc' ->
  In x (Obj.keys acc') -> In x (Obj.keys acc) \/ x <> t.
Proof.
  revert acc. induction keys as [|k r IH]; intros acc; simpl.
  - intros E. inversion E; subst. auto.
  - destruct (validate_key t core acc k) as [a1|e] eqn:V; simpl; [|discriminate].
    intros E I. destruct (IH a1 E I) as [I1|N]; auto.
    destruct (validate_key_keys _ _ _ _ _ _ V I1) as [I0|[_ N]]; auto.
Qed.

Lemma getValidatedOverrides_keys o vo k :
  getValidatedOverrides o = Some vo ->
  In k (Obj.keys vo) -> overridable k = true.
Proof.
  unfold getValidatedOverrides.
  destruct (forallb _ _); [|discriminate].
  intros E. inversion E; subst. unfold Obj.keys. rewrite in_map_iff.
  intros [[a b] [<- I]]. apply filter_In in I. tauto.
Qed.

(** A freshly constructed instance has well-formed metadata when the
    template holds a record under its category key and the category is
    not an overridable key. *)
Lemma construct_metadata options p :
  construct options = Ok p ->
  overridable (type p) = false ->
  exists core,
    passCore p = JObject core /\
    forall sub, Obj.get (type p) core = Some (JObject sub) ->
                metadata_record p core sub.
Proof.
  intros E NO. apply construct_Ok in E.
  destruct E as (passJson & core & vo & vd & sub0 & _ & GJ & EJ & EV & ET & EK
                 & _ & _ & EB & _ & EP & EC & _).
  exists core. split; auto. intros sub ES.
  split; [|split]; auto.
  - exists passJson. rewrite EB. auto.
  - apply has_false_keys. rewrite EP. intros I.
    apply ObjFacts.In_keys_assign in I. destruct I as [I|I].
    + unfold Obj.spread in I. apply ObjFacts.In_keys_assign in I.
      destruct I as [[]|I].
      destruct (validatedPassKeys_keys _ _ _ _ _ _ EK I) as [[]|N]. congruence.
    + apply (getValidatedOverrides_keys _ _ _ EV) in I. congruence.
Qed.

End ConstructErrors.

Section TransitSubtype.

Context {C : Collaborators}.

Lemma generate_never p h archive :
  type p = "boardingPass" -> transit_unresolved p = true ->
  snd (generate p h) <> Ok archive.
Proof.
  intros T U. unfold generate.
  destruct (Obj.get "pass.json" (bundle p)) as [passJson|]; [|discriminate].
  pose proof (patch_snd passJson p) as S.
  destruct (snd (patch_passFile passJson p)) as [x|e] eqn:E.
  { exfalso. revert E. apply patch_passFile_never.
    rewrite T, U. reflexivity. }
  destruct (_patch passJson p) as [p1 [y|e']]; simpl in S; discriminate.
Qed.

Lemma merge_l10n_Err p h e : merge_l10n p h = Err e -> e = TypeError.
Proof.
  unfold merge_l10n.
  destruct (rev (Obj.keys (l10nTranslations p))) as [|lang rest]; [discriminate|].
  destruct (lang =? ""); [discriminate|].
  destruct (heap_read (l10nBundles p) h).
  - destruct (l10n_loop _ _ _). discriminate.
  - intros E. now inversion E.
Qed.

Lemma generate_transit_error p h :
  snd (generate p h) = Err TRSTYPE_REQUIRED ->
  type p = "boardingPass" /\ transit_unresolved p = true.
Proof.
  unfold generate.
  destruct (Obj.get "pass.json" (bundle p)) as [passJson|]; [|discriminate].
  pose proof (patch_snd passJson p) as S.
  destruct (_patch passJson p) as [p1 [y|e']]; simpl in S.
  - destruct (merge_l10n _ h) as [[h' fb]|e] eqn:M.
    + destruct (build_manifest fb) as [m a].
      destruct (Signature_create m _); discriminate.
    + apply merge_l10n_Err in M. subst. discriminate.
  - simpl. intros E. inversion E; subst.
    apply (patch_passFile_transit passJson).
    destruct (snd (patch_passFile passJson p)); congruence.
Qed.

Lemma metadata_record_set_transitType value p core sub :
  metadata_record p core sub ->
  metadata_record (set_transitType value p) core sub.
Proof.
  unfold metadata_record, set_transitType.
  destruct (negb (isValid TransitType value)); simpl; auto.
Qed.

(** C2.  The transit-subtype error belongs to generation:
    - the constructor never raises it;
    - a boarding pass constructed from a template whose category
      record names no transit type is unresolved, and an invalid value
      handed to the setter leaves it unresolved;
    - for a boarding pass whose subtype is unresolved, [generate] never
      succeeds, and on well-formed metadata it fails with
      [TRSTYPE_REQUIRED];
    - for any other category, [storeCard] included, [generate] never
      fails with that error, and on well-formed metadata, with a
      readable store and a signer that signs, it succeeds;
    - once a valid subtype is set on a boarding pass, [generate]
      succeeds under the same conditions. *)
Theorem transit_subtype_required :
  (forall options, construct options <> Err TRSTYPE_REQUIRED) /\
  (forall options p core sub,
      construct options = Ok p ->
      type p = "boardingPass" ->
      passCore p = JObject core ->
      Obj.get "boardingPass" core = Some (JObject sub) ->
      (forall t, Obj.get "transitType" sub = Some t -> JS.truthy t = false) ->
      transit_unresolved p = true) /\
  (forall p value,
      isValid TransitType value = false ->
      transit_unresolved p = true ->
      transit_unresolved (set_transitType value p) = true) /\
  (forall p h,
      type p = "boardingPass" -> transit_unresolved p = true ->
      (forall archive, snd (generate p h) <> Ok archive) /\
      (forall core sub, metadata_record p core sub ->
                        snd (generate p h) = Err TRSTYPE_REQUIRED)) /\
  (forall p h,
      type p <> "boardingPass" ->
      snd (generate p h) <> Err TRSTYPE_REQUIRED /\
      (forall core sub,
          metadata_record p core sub -> store_readable p h -> can_sign p ->
          exists p' h' archive, generate p h = (p', h', Ok archive))) /\
  (forall p h value core sub,
      type p = "boardingPass" ->
      isValid TransitType value = true -> JS.truthy value = true ->
      metadata_record p core sub -> store_readable p h -> can_sign p ->
      exists p' h' archive,
        generate (set_transitType value p) h = (p', h', Ok archive)).
Proof.
  split; [exact construct_no_transit_error|].
  split; [|split; [|split; [|split]]].
  - intros options p core sub E T PC ES NT.
    apply construct_Ok in E.
    destruct E as (passJson & core' & vo & vd & sub0 & _ & _ & _ & _ & _ & _
                   & EP & _ & _ & _ & _ & EC & _ & _ & ETT).
    rewrite PC in EC. inversion EC; subst core'.
    rewrite T in ETT, EP. simpl in EP. rewrite ES in EP.
    inversion EP; subst sub0. simpl in ETT.
    unfold transit_unresolved. rewrite ETT.
    destruct (Obj.get "transitType" sub) as [t|] eqn:G; simpl.
    + rewrite (NT t eq_refl). reflexivity.
    + reflexivity.
  - intros p value IV U. unfold set_transitType, transit_unresolved in *.
    rewrite IV. simpl. apply negb_true_iff in U. rewrite U. reflexivity.
  - intros p h T U. split.
    + intros archive. now apply generate_never.
    + intros core sub ((passJson & G & EJ) & ES & EH).
      apply (generate_patch_Err p h passJson _ G).
      apply (patch_passFile_missing p core sub passJson EJ ES EH).
      rewrite T, U. reflexivity.
  - intros p h T. split.
    + intros E. apply generate_transit_error in E. tauto.
    + intros core sub ((passJson & G & EJ) & ES & EH) R Sg.
      assert (EM : (type p =? "boardingPass") && transit_unresolved p = false).
      { apply String.eqb_neq in T. now rewrite T. }
      pose proof (patch_passFile_Ok p core sub passJson EJ ES EH EM) as P.
      destruct (generate_succeeds p h passJson _ G P R Sg)
        as (p' & h' & a & Gn & _).
      eauto.
  - intros p h value core sub T IV TV M R Sg.
    pose proof (metadata_record_set_transitType value p core sub M) as M'.
    destruct M' as ((passJson & G & EJ) & ES & EH).
    assert (EM : (type (set_transitType value p) =? "boardingPass")
                 && transit_unresolved (set_transitType value p) = false).
    { unfold transit_unresolved, set_transitType. rewrite IV. simpl.
      rewrite TV. apply andb_false_r. }
    pose proof (patch_passFile_Ok _ core sub passJson EJ ES EH EM) as P.
    assert (R' : store_readable (set_transitType value p) h).
    { unfold store_readable, set_transitType in *. rewrite IV. exact R. }
    assert (Sg' : can_sign (set_transitType value p)).
    { unfold can_sign, set_transitType in *. rewrite IV. exact Sg. }
    destruct (generate_succeeds _ h passJson _ G P R' Sg')
      as (p' & h' & a & Gn & _).
    eauto.
Qed.

End TransitSubtype.

(** The boarding pass of the sample fails at generation and succeeds
    once a subtype is set; the store card succeeds as it is. *)
Lemma transit_subtype_required_witness :
  snd (generate (C := Sample.env3) Sample.boarding_pass Sample.store)
    = Err TRSTYPE_REQUIRED /\
  (exists p' h' archive,
      generate (C := Sample.env3)
               (set_transitType (C := Sample.env3)
                                (JString "PKTransitTypeAir")
                                Sample.boarding_pass)
               Sample.store = (p', h', Ok archive)) /\
  (exists p' h' archive,
      generate (C := Sample.env1) Sample.storeCard_pass Sample.store
        = (p', h', Ok archive)).
Proof.
  destruct (@transit_subtype_required Sample.env3) as (_ & _ & _ & B & _ & S).
  destruct (@transit_subtype_required Sample.env1) as (_ & _ & _ & _ & O & _).
  assert (M3 : metadata_record (C := Sample.env3) Sample.boarding_pass
                 [("formatVersion", JNumber 1); ("boardingPass", JObject [])]
                 []).
  { split; [eexists; split; reflexivity | split; reflexivity]. }
  split; [|split].
  - apply (B Sample.boarding_pass Sample.store eq_refl eq_refl) in M3.
    exact M3.
  - apply (S Sample.boarding_pass Sample.store (JString "PKTransitTypeAir")
             _ _ eq_refl eq_refl eq_refl M3).
    + left. reflexivity.
    + intros m. discriminate.
  - apply (O Sample.storeCard_pass Sample.store) with
      (core := [("formatVersion", JNumber 1);
                ("backgroundColor", JString "rgb(10,20,30)");
                ("storeCard",
                 JObject [("primaryFields",
                           JArray [JObject [("key", JString "balance");
                                            ("value", JString "21.75")]])])])
      (sub := [("primaryFields",
                JArray [JObject [("key", JString "balance");
                                 ("value", JString "21.75")]])]).
    + discriminate.
    + split; [eexists; split; reflexivity | split; reflexivity].
    + right. discriminate.
    + intros m. discriminate.
Defined.

Section TransitTypeWritten.

Context {C : Collaborators}.

(** C9.  Whatever the category, the record [_patch] serializes holds,
    in the sub-record under the category key, the key [transitType]
    with the value stored in the instance: on well-formed metadata (and
    for a boarding pass, a resolved subtype), with a readable store and
    a signer that signs, [generate] succeeds and stores in the bundle
    the serialization of such a record.  For an instance constructed
    with a category other than [boardingPass] the stored value is the
    empty string, and it stays so when the setter is handed an invalid
    value. *)
Theorem transit_type_written :
  (forall p h core sub,
      metadata_record p core sub ->
      (type p =? "boardingPass") && transit_unresolved p = false ->
      store_readable p h -> can_sign p ->
      exists p' h' archive passFile sub',
        generate p h = (p', h', Ok archive) /\
        Obj.get "pass.json" (bundle p')
          = Some (JSON_stringify (JObject passFile)) /\
        Obj.get (type p) passFile = Some (JObject sub') /\
        Obj.get "transitType" sub' = Some (transitType p)) /\
  (forall options p,
      construct options = Ok p -> type p <> "boardingPass" ->
      transitType p = JString "") /\
  (forall p value,
      isValid TransitType value = false ->
      transitType p = JString "" ->
      transitType (set_transitType value p) = JString "").
Proof.
  split; [|split].
  - intros p h core sub ((passJson & G & EJ) & ES & EH) EM R Sg.
    pose proof (patch_passFile_Ok p core sub passJson EJ ES EH EM) as P.
    destruct (generate_succeeds p h passJson _ G P R Sg)
      as (p' & h' & a & Gn & Gb).
    exists p', h', a,
      (Obj.set (type p) (JObject (patched_category p sub)) (overlaid p core)),
      (patched_category p sub).
    split; [exact Gn|]. split; [exact Gb|]. split.
    + apply ObjFacts.get_set_same.
    + unfold patched_category. apply ObjFacts.get_set_same.
  - intros options p E T. apply construct_Ok in E.
    destruct E as (? & ? & ? & ? & ? & E).
    repeat (destruct E as (_ & E)).
    apply String.eqb_neq in T. now rewrite T in E.
  - intros p value IV E. unfold set_transitType. rewrite IV. simpl.
    rewrite E. reflexivity.
Qed.

End TransitTypeWritten.

(** The store card of the sample: its final metadata carries an empty
    [transitType] under [storeCard]. *)
Lemma transit_type_written_witness :
  exists p' h' archive passFile sub',
    generate (C := Sample.env1) Sample.storeCard_pass Sample.store
      = (p', h', Ok archive) /\
    Obj.get "pass.json" (bundle p')
      = Some (Sample.stringify (JObject passFile)) /\
    Obj.get "storeCard" passFile = Some (JObject sub') /\
    Obj.get "transitType" sub' = Some (JString "").
Proof.
  destruct (@transit_type_written Sample.env1) as (W & _ & _).
  apply (W Sample.storeCard_pass Sample.store
           [("formatVersion", JNumber 1);
            ("backgroundColor", JString "rgb(10,20,30)");
            ("storeCard",
             JObject [("primaryFields",
                       JArray [JObject [("key", JString "balance");
                                        ("value", JString "21.75")]])])]
           [("primaryFields",
             JArray [JObject [("key", JString "balance");
                              ("value", JString "21.75")]])]).
  - split; [eexists; split; reflexivity | split; reflexivity].
  - reflexivity.
  - right. discriminate.
  - intros m. discriminate.
Defined.

Section Overrides.

Context {C : Collaborators}.

Lemma whitelisted_id o :
  (forall k, In k (Obj.keys o) -> overridable k = true) -> whitelisted o = o.
Proof.
  intros H. unfold whitelisted.
  induction o as [|[k v] r IH]; simpl; auto.
  rewrite (H k) by now left. f_equal. apply IH.
  intros x I. apply H. now right.
Qed.

Lemma getValidatedOverrides_whitelisted o vo :
  getValidatedOverrides o = Some vo -> vo = whitelisted o.
Proof.
  unfold getValidatedOverrides. fold (whitelisted o).
  destruct (forallb _ _); [|discriminate]. intros E. now inversion E.
Qed.

Lemma wf_prune_colors props_ : Obj.wf props_ -> Obj.wf (prune_colors props_).
Proof.
  unfold prune_colors. generalize (filter (fun v =>
    match Obj.get v props_ with
    | Some x => JS.truthy x && negb (isValidRGB x)
    | None => false
    end) passColors).
  intros names. revert props_.
  induction names as [|n r IH]; intros o W; simpl; auto.
  apply IH. now apply ObjFacts.wf_delete.
Qed.

(** What [prune_colors] leaves under a key. *)
Lemma get_prune_colors_kept k v props_ :
  Obj.get k props_ = Some v -> color_rejected k v = false ->
  Obj.get k (prune_colors props_) = Some v.
Proof.
  intros G R. unfold prune_colors. rewrite get_delete_all.
  destruct (existsb (String.eqb k) (filter _ passColors)) eqn:E; auto.
  exfalso. apply existsb_exists in E. destruct E as [x [I E]].
  apply String.eqb_eq in E. subst x. apply filter_In in I.
  destruct I as [I T]. rewrite G in T.
  unfold color_rejected in R.
  assert (X : existsb (String.eqb k) passColors = true).
  { apply existsb_exists. exists k. split; auto. apply String.eqb_refl. }
  rewrite X in R. simpl in R. congruence.
Qed.

(** C4, as amended.  For a template and an overrides record whose keys
    are all whitelisted (the category key is not), constructing and
    patching yields final metadata that holds, under each overridden
    key, the override's value whatever the template held there --
    except for a colour key ([backgroundColor], [foregroundColor],
    [labelColor]) whose override is truthy but not an RGB string:
    [_patch] deletes such a key from the properties before the merge.
    With a signer that signs, [generate] stores the serialization of
    that metadata as the instance's [pass.json]. *)
Theorem overrides_take_precedence options o p core sub :
  construct options = Ok p ->
  overrides options = Some o ->
  Obj.wf o ->
  (forall k, In k (Obj.keys o) -> overridable k = true) ->
  overridable (type p) = false ->
  passCore p = JObject core ->
  Obj.get (type p) core = Some (JObject sub) ->
  (type p =? "boardingPass") && transit_unresolved p = false ->
  exists passJson passFile,
    Obj.get "pass.json" (bundle p) = Some passJson /\
    snd (patch_passFile passJson p) = Ok passFile /\
    (forall k v,
        Obj.get k o = Some v -> color_rejected k v = false ->
        Obj.get k passFile = Some v) /\
    (forall h, can_sign p ->
       exists p' h' archive,
         generate p h = (p', h', Ok archive) /\
         Obj.get "pass.json" (bundle p')
           = Some (JSON_stringify (JObject passFile))).
Proof.
  intros E EO W WL NT PC ES EM.
  destruct (construct_metadata options p E NT) as (core' & PC' & M).
  rewrite PC in PC'. inversion PC'; subst core'; clear PC'.
  destruct (M sub ES) as ((passJson & G & EJ) & _ & EH).
  pose proof (patch_passFile_Ok p core sub passJson EJ ES EH EM) as P.
  exists passJson,
    (Obj.set (type p) (JObject (patched_category p sub)) (overlaid p core)).
  split; [exact G|]. split; [exact P|]. split.
  - intros k v Gk NR.
    apply construct_Ok in E.
    destruct E as (pj & core' & vo & vd & sub0 & _ & _ & _ & EV & _ & _ & _
                   & _ & _ & _ & EP & _).
    rewrite EO in EV. apply getValidatedOverrides_whitelisted in EV.
    rewrite (whitelisted_id o WL) in EV. subst vo.
    assert (Gp : Obj.get k (passProps p) = Some v).
    { rewrite EP, ObjFacts.get_assign_wf by exact W. now rewrite Gk. }
    assert (Wp : Obj.wf (passProps p)).
    { rewrite EP. apply ObjFacts.wf_assign, ObjFacts.wf_spread. }
    assert (Nk : k <> type p).
    { intros ->. apply has_false_keys in EH. apply EH.
      now apply ObjFacts.get_Some_keys in Gp. }
    rewrite ObjFacts.get_set_other by exact Nk.
    unfold overlaid.
    destruct (passProps p) as [|e r] eqn:PP; [discriminate|].
    cbn [List.length Nat.eqb negb]. rewrite <- PP in *.
    rewrite ObjFacts.get_assign_wf by (apply wf_prune_colors; exact Wp).
    now rewrite (get_prune_colors_kept k v _ Gp NR).
  - intros h Sg.
    assert (R : store_readable p h).
    { left. apply construct_Ok in E.
      destruct E as (? & ? & ? & ? & ? & E). tauto. }
    destruct (generate_succeeds p h passJson _ G P R Sg)
      as (p' & h' & a & Gn & Gb).
    eauto.
Qed.

End Overrides.

(** The store card of the sample with two whitelisted overrides: the
    hypotheses of [overrides_take_precedence] hold, and the accepted
    override reaches the final metadata. *)
Lemma overrides_take_precedence_witness :
  exists passJson passFile,
    Obj.get "pass.json" (bundle Sample.recolored_pass) = Some passJson /\
    snd (patch_passFile (C := Sample.env1) passJson Sample.recolored_pass)
      = Ok passFile /\
    Obj.get "logoText" passFile = Some (JString "Shop").
Proof.
  destruct (@overrides_take_precedence Sample.env1
              (Sample.options Sample.storeCard_json (Some Sample.bad_color))
              Sample.bad_color Sample.recolored_pass
              [("formatVersion", JNumber 1);
               ("backgroundColor", JString "rgb(10,20,30)");
               ("storeCard",
                JObject [("primaryFields",
                          JArray [JObject [("key", JString "balance");
                                           ("value", JString "21.75")]])])]
              [("primaryFields",
                JArray [JObject [("key", JString "balance");
                                 ("value", JString "21.75")]])])
    as (passJson & passFile & G & P & K & _);
    try reflexivity.
  - apply MergeFacts.distinct_NoDup. reflexivity.
  - intros k I. vm_compute in I. destruct I as [<-|[<-|[]]]; reflexivity.
  - exists passJson, passFile. split; [exact G|]. split; [exact P|].
    apply K; reflexivity.
Defined.

(** Against C4 as stated: the override [backgroundColor := "not-a-color"]
    is whitelisted and accepted by the constructor, yet the final
    metadata holds the template's colour under that key. *)
Lemma overridden_color_counterexample :
  construct (C := Sample.env1)
            (Sample.options Sample.storeCard_json (Some Sample.bad_color))
    = Ok Sample.recolored_pass /\
  forallb (overridable (Collaborators := Sample.env1))
          (Obj.keys Sample.bad_color) = true /\
  Obj.get "backgroundColor" Sample.bad_color = Some (JString "not-a-color") /\
  exists passFile,
    snd (patch_passFile (C := Sample.env1)
                        (Sample.stringify Sample.storeCard_json)
                        Sample.recolored_pass) = Ok passFile /\
    Obj.get "backgroundColor" passFile = Some (JString "rgb(10,20,30)") /\
    Obj.get "backgroundColor" passFile <> Some (JString "not-a-color").
Proof.
  split; [reflexivity|]. split; [reflexivity|]. split; [reflexivity|].
  eexists. split; [vm_compute; reflexivity|].
  split; [reflexivity | discriminate].
Qed.

Section UnknownOverrides.

Context {C : Collaborators}.

Lemma whitelisted_idem o : whitelisted (whitelisted o) = whitelisted o.
Proof.
  unfold whitelisted. induction o as [|[k v] r IH]; simpl; auto.
  destruct (overridable k) eqn:E; simpl; rewrite ?E, IH; reflexivity.
Qed.

Lemma whitelisted_keys o k :
  In k (Obj.keys (whitelisted o)) -> overridable k = true.
Proof.
  unfold whitelisted, Obj.keys. rewrite in_map_iff.
  intros [[a b] [<- I]]. apply filter_In in I. tauto.
Qed.

(** C5.  Keys of the overrides record outside the whitelist are
    dropped by the validation and change nothing:
    - validating a record gives what validating its whitelisted part
      gives, so such keys never make the validation fail;
    - when the shape check of the options does not tell the two apart,
      constructing with a record gives exactly what constructing with
      its whitelisted part gives -- the same instance, or the same
      error;
    - in a constructed instance the properties are the validated
      template keys overlaid with the whitelisted part only: under a
      key outside the whitelist they hold what the template gave. *)
Theorem unknown_overrides_dropped :
  (forall o, getValidatedOverrides o = getValidatedOverrides (whitelisted o)) /\
  (forall options o,
      overrides options = Some o ->
      isValidPassInstance (with_overrides (Some (whitelisted o)) options)
        = isValidPassInstance options ->
      construct options
        = construct (with_overrides (Some (whitelisted o)) options)) /\
  (forall options o p,
      construct options = Ok p ->
      overrides options = Some o ->
      exists core validated,
        passCore p = JObject core /\
        validatedPassKeys (type p) core [] (Obj.keys core) = Ok validated /\
        passProps p = Obj.assign (Obj.spread validated) (whitelisted o) /\
        forall k, overridable k = false ->
                  Obj.get k (passProps p) = Obj.get k (Obj.spread validated)).
Proof.
  assert (V : forall o,
             getValidatedOverrides o = getValidatedOverrides (whitelisted o)).
  { intros o. unfold getValidatedOverrides.
    fold (whitelisted o). fold (whitelisted (whitelisted o)).
    now rewrite whitelisted_idem. }
  split; [exact V|]. split.
  - intros options o EO EV. unfold construct.
    rewrite EV. cbn [model with_overrides overrides certificates].
    rewrite EO. rewrite <- V. reflexivity.
  - intros options o p E EO. apply construct_Ok in E.
    destruct E as (pj & core & vo & vd & sub0 & _ & _ & _ & EV & _ & EK & _
                   & _ & _ & _ & EP & EC & _).
    rewrite EO in EV. apply getValidatedOverrides_whitelisted in EV. subst vo.
    exists core, vd. split; [exact EC|]. split; [exact EK|].
    split; [exact EP|].
    intros k NK. rewrite EP, ObjFacts.get_assign.
    destruct (Obj.get k (rev (whitelisted o))) eqn:G; auto.
    apply ObjFacts.get_Some_keys in G. unfold Obj.keys in G.
    rewrite map_rev in G. apply in_rev in G.
    apply whitelisted_keys in G. congruence.
Qed.

End UnknownOverrides.

(** The store card of the sample constructed with a stray override:
    the instance is the one constructed without it. *)
Lemma unknown_overrides_dropped_witness :
  construct (C := Sample.env1)
            (Sample.options Sample.storeCard_json (Some Sample.stray))
  = construct (C := Sample.env1)
              (Sample.options Sample.storeCard_json
                              (Some [("logoText", JString "Shop")])) /\
  exists p,
    construct (C := Sample.env1)
              (Sample.options Sample.storeCard_json (Some Sample.stray))
    = Ok p /\
    Obj.get "nonsense" (passProps p) = None /\
    Obj.get "formatVersion" (passProps p) = Some (JNumber 1).
Proof.
  destruct (@unknown_overrides_dropped Sample.env1) as (_ & S & _).
  split.
  - apply (S (Sample.options Sample.storeCard_json (Some Sample.stray))
             Sample.stray); reflexivity.
  - eexists. split; [vm_compute; reflexivity|]. split; reflexivity.
Defined.

Section Barcodes.

Context {C : Collaborators}.
Import Vocabulary.

(** C7.  Provided the validation of a generated barcode keeps its
    format and message (it may add defaults), [barcodes("12345")] sets
    the [barcodes] property to exactly four entries, of formats QR,
    PDF417, Aztec and Code128 in this order, each with the message
    [12345].  After it, [barcode("PKBarcodeFormatCode128")] is rejected:
    it returns the instance unchanged, so the single-barcode field
    stays unset if it was; and [barcode("PKBarcodeFormatQR")] sets the
    single-barcode field to the QR entry. *)
Theorem barcodes_scenario (p : Pass) :
  (forall format,
      In format barcode_formats ->
      exists b,
        getValidated Barcode
          (JObject [("format", JString format); ("message", JString "12345")])
          = Some b /\
        barcode_entry format "12345" b) ->
  exists qr pdf aztec code128,
    passProps (barcodes [JString "12345"] p)
      = Obj.set "barcodes" (JArray [qr; pdf; aztec; code128]) (passProps p) /\
    Obj.get "barcodes" (passProps (barcodes [JString "12345"] p))
      = Some (JArray [qr; pdf; aztec; code128]) /\
    barcode_entry "PKBarcodeFormatQR" "12345" qr /\
    barcode_entry "PKBarcodeFormatPDF417" "12345" pdf /\
    barcode_entry "PKBarcodeFormatAztec" "12345" aztec /\
    barcode_entry "PKBarcodeFormatCode128" "12345" code128 /\
    barcode (JString "PKBarcodeFormatCode128") (barcodes [JString "12345"] p)
      = Ok (barcodes [JString "12345"] p) /\
    (Obj.get "barcode" (passProps p) = None ->
     Obj.get "barcode" (passProps (barcodes [JString "12345"] p)) = None) /\
    exists p'',
      barcode (JString "PKBarcodeFormatQR") (barcodes [JString "12345"] p)
        = Ok p'' /\
      Obj.get "barcode" (passProps p'') = Some qr.
Proof.
  intros H.
  destruct (H "PKBarcodeFormatQR") as (qr & V1 & E1); [simpl; tauto|].
  destruct (H "PKBarcodeFormatPDF417") as (pdf & V2 & E2); [simpl; tauto|].
  destruct (H "PKBarcodeFormatAztec") as (aztec & V3 & E3); [simpl; tauto|].
  destruct (H "PKBarcodeFormatCode128") as (c128 & V4 & E4); [simpl; tauto|].
  exists qr, pdf, aztec, c128.
  assert (B : barcodes [JString "12345"] p
              = with_passProps
                  (Obj.set "barcodes" (JArray [qr; pdf; aztec; c128])
                           (passProps p)) p).
  { unfold barcodes, barcodesFromUncompleteData. cbn [String.eqb Ascii.eqb Bool.eqb map].
    simpl. rewrite V1, V2, V3, V4. reflexivity. }
  rewrite B. cbn [passProps with_passProps].
  split; [reflexivity|]. split; [apply ObjFacts.get_set_same|].
  split; [exact E1|]. split; [exact E2|]. split; [exact E3|].
  split; [exact E4|]. split; [reflexivity|]. split.
  - intros N. rewrite ObjFacts.get_set_other by discriminate. exact N.
  - unfold barcode. cbn [String.eqb Ascii.eqb Bool.eqb].
    simpl passProps. rewrite ObjFacts.get_set_same.
    destruct E1 as [F1 _]. cbn [findBarcode]. rewrite F1. cbn [bind].
    eexists. split; [reflexivity|]. simpl. apply ObjFacts.get_set_same.
Qed.

End Barcodes.

(** With the collaborators of the sample, whose validation adds the
    default encoding, the hypothesis of [barcodes_scenario] holds. *)
Lemma barcodes_scenario_witness :
  exists qr pdf aztec code128,
    Obj.get "barcodes"
      (passProps (barcodes (C := Sample.env1) [JString "12345"]
                           Sample.storeCard_pass))
      = Some (JArray [qr; pdf; aztec; code128]) /\
    Vocabulary.barcode_entry "PKBarcodeFormatQR" "12345" qr /\
    exists p'',
      barcode (JString "PKBarcodeFormatQR")
              (barcodes (C := Sample.env1) [JString "12345"]
                        Sample.storeCard_pass) = Ok p'' /\
      Obj.get "barcode" (passProps p'') = Some qr.
Proof.
  destruct (@barcodes_scenario Sample.env1 Sample.storeCard_pass)
    as (qr & pdf & aztec & c128 & _ & G & E & _ & _ & _ & _ & _ & Q).
  - intros format I. simpl in I.
    destruct I as [<-|[<-|[<-|[<-|[]]]]];
      (eexists; split; [reflexivity | split; reflexivity]).
  - exists qr, pdf, aztec, c128. auto.
Defined.

Section FieldCollection.

Context {C : Collaborators}.
Import FieldsArray.

Lemma pool_has_In k pool : pool_has k pool = true <-> In k pool.
Proof.
  unfold pool_has. rewrite existsb_exists. split.
  - intros [x [I E]]. apply String.eqb_eq in E. now subst.
  - intros I. exists k. split; auto. apply String.eqb_refl.
Qed.

Lemma all_keys_with_slot s f pool c k :
  In k (all_keys (with_slot s (slot s c ++ [f])%list pool c))
  <-> In k (all_keys c) \/ k = key f.
Proof.
  destruct s; unfold all_keys, _fields; simpl;
    rewrite ?map_app, ?in_app_iff; simpl; intuition.
Qed.

Lemma slot_with_slot s s' l pool c :
  slot s' (with_slot s l pool c) = if slot_eqb s s' then l else slot s' c.
Proof. destruct s, s'; reflexivity. Qed.

Lemma pool_ok_empty : pool_ok empty.
Proof. intros k. simpl. tauto. Qed.

Lemma insert_fresh s f c :
  pool_ok c -> ~ In (key f) (all_keys c) ->
  pool_ok (fst (insert s f c)) /\
  snd (insert s f c) = Ok tt /\
  slot s (fst (insert s f c)) = (slot s c ++ [f])%list /\
  forall s', s' <> s -> slot s' (fst (insert s f c)) = slot s' c.
Proof.
  intros P N. unfold insert.
  destruct (pool_has (key f) (fieldsKeys c)) eqn:H.
  { exfalso. apply N. apply P. now apply pool_has_In. }
  cbn [fst snd]. split; [|split; [|split]]; auto.
  - intros k. rewrite all_keys_with_slot. cbn [fieldsKeys with_slot].
    rewrite in_app_iff. simpl. rewrite (P k). intuition.
  - rewrite slot_with_slot. now destruct s.
  - intros s' Ns. rewrite slot_with_slot.
    destruct s, s'; try reflexivity; congruence.
Qed.

Lemma insert_duplicate s f c :
  pool_ok c -> In (key f) (all_keys c) -> insert s f c = (c, Err DuplicateKey).
Proof.
  intros P I. unfold insert. apply P in I. apply pool_has_In in I.
  now rewrite I.
Qed.

Lemma create_pool_ok s l c c' :
  pool_ok c -> create s l c = Ok c' -> pool_ok c'.
Proof.
  revert c. induction l as [|f r IH]; intros c P; simpl.
  - intros E. inversion E; subst. exact P.
  - destruct (in_dec string_dec (key f) (all_keys c)) as [I|N].
    + rewrite (insert_duplicate s f c P I). discriminate.
    + destruct (insert_fresh s f c P N) as (P' & O & _).
      destruct (insert s f c) as [c1 [[]|e]]; simpl in *; [|discriminate].
      now apply IH.
Qed.

Lemma create_fields_pool_ok sub names c c' :
  pool_ok c -> create_fields sub names c = Ok c' -> pool_ok c'.
Proof.
  revert c. induction names as [|s r IH]; intros c P; simpl.
  - intros E. inversion E; subst. exact P.
  - destruct (template_fields sub s) as [l|e]; simpl; [|discriminate].
    destruct (create s l c) as [c1|e] eqn:E1; simpl; [|discriminate].
    apply IH. eapply create_pool_ok; eauto.
Qed.

(** C8.  In the field collection of an instance the pool of keys
    mirrors the five slots -- the constructor establishes this and
    every successful insertion keeps it.  Then inserting a field whose
    key is held by any of the five slots fails with [DuplicateKey] and
    leaves the collection as it was, and inserting a field with a fresh
    key succeeds, appends the field at the end of the target slot and
    leaves the other slots alone. *)
Theorem duplicate_key_rejected :
  (forall options p, construct options = Ok p -> pool_ok (fields p)) /\
  (forall c s f,
      pool_ok c ->
      (In (key f) (all_keys c) -> insert s f c = (c, Err DuplicateKey)) /\
      (~ In (key f) (all_keys c) ->
       pool_ok (fst (insert s f c)) /\
       snd (insert s f c) = Ok tt /\
       slot s (fst (insert s f c)) = (slot s c ++ [f])%list /\
       forall s', s' <> s -> slot s' (fst (insert s f c)) = slot s' c)).
Proof.
  split.
  - intros options p E. apply construct_Ok in E.
    destruct E as (pj & core & vo & vd & sub0 & _ & _ & _ & _ & _ & _ & _
                   & EF & _).
    eapply create_fields_pool_ok; [apply pool_ok_empty | exact EF].
  - intros c s f P. split.
    + now apply insert_duplicate.
    + now apply insert_fresh.
Qed.

End FieldCollection.

(** The store card of the sample holds the key [balance] in its primary
    slot: a second field of that key is refused in any slot, a field
    with a new key is appended. *)
Lemma duplicate_key_rejected_witness :
  FieldsArray.insert FieldsArray.backFields
    (JObject [("key", JString "balance"); ("value", JString "0")])
    (fields Sample.storeCard_pass)
  = (fields Sample.storeCard_pass, Err DuplicateKey) /\
  FieldsArray.slot FieldsArray.backFields
    (fst (FieldsArray.insert FieldsArray.backFields
            (JObject [("key", JString "terms"); ("value", JString "T")])
            (fields Sample.storeCard_pass)))
  = [JObject [("key", JString "terms"); ("value", JString "T")]].
Proof.
  destruct (@duplicate_key_rejected Sample.env1) as (P & I).
  assert (OK : FieldsArray.pool_ok (fields Sample.storeCard_pass)).
  { change (fields Sample.storeCard_pass)
      with (fields (Sample.unwrap
                      (construct (C := Sample.env1)
                         (Sample.options Sample.storeCard_json None)))).
    apply (P (Sample.options Sample.storeCard_json None)).
    vm_compute. reflexivity. }
  split.
  - apply (I _ FieldsArray.backFields _ OK). simpl. tauto.
  - destruct (I (fields Sample.storeCard_pass) FieldsArray.backFields
                (JObject [("key", JString "terms"); ("value", JString "T")])
                OK) as (_ & F).
    destruct F as (_ & _ & S & _).
    + simpl. intros [E|[]]. discriminate.
    + exact S.
Defined.

(* ================================================================== *)
(** * Further properties of the constructor *)
(* ================================================================== *)

Section ConstructorOutcomes.

Context {C : Collaborators}.

Lemma find_split {A} (f : A -> bool) (l : list A) x :
  find f l = Some x ->
  exists before after,
    l = (before ++ x :: after)%list /\ f x = true /\
    forall y, In y before -> f y = false.
Proof.
  induction l as [|a r IH]; simpl; [discriminate|].
  destruct (f a) eqn:E.
  - intros H. inversion H; subst. exists [], r. simpl. tauto.
  - intros H. destruct (IH H) as (b & a' & -> & Fx & Fb).
    exists (a :: b), a'. simpl. split; [reflexivity|]. split; [exact Fx|].
    intros y [<-|I]; auto.
Qed.

Ltac outcome_cases :=
  repeat match goal with
         | |- _ /\ _ => split
         | |- _ <-> _ => split
         end;
  intros;
  repeat match goal with
         | H : _ /\ _ |- _ => destruct H
         | H : exists _, _ |- _ => destruct H
         | H : Some _ = Some _ |- _ => inversion H; subst; clear H
         end;
  cbn [nullish category_key] in *;
  try discriminate; try congruence; try tauto;
  try solve [repeat split; congruence].

(** X1. The constructor fails with exactly one of four
    coded errors, each for its own reason: REQUIR_VALID_FAILED when the options
    do not pass the instance schema, PASSFILE_VALIDATION_FAILED when the
    bundle's pass.json cannot be read and parsed, OVV_KEYS_BADFORMAT when the
    given overrides are rejected, and NO_PASS_TYPE when the parsed pass.json
    is a value without any of the five category keys. *)
Theorem construct_failures options :
  (construct options = Err REQUIR_VALID_FAILED <->
     isValidPassInstance options = false) /\
  (construct options = Err PASSFILE_VALIDATION_FAILED <->
     isValidPassInstance options = true /\
     template_metadata options = None) /\
  (construct options = Err OVV_KEYS_BADFORMAT <->
     isValidPassInstance options = true /\
     template_metadata options <> None /\
     getValidatedOverrides (given_overrides options) = None) /\
  (construct options = Err NO_PASS_TYPE <->
     isValidPassInstance options = true /\
     getValidatedOverrides (given_overrides options) <> None /\
     exists v, template_metadata options = Some v /\
               nullish v = false /\ category_key v = None).
Proof.
  unfold construct, template_metadata, given_overrides.
  destruct (isValidPassInstance options); cbn [negb]; [|outcome_cases].
  destruct (match Obj.get "pass.json" (Obj.spread (pb_bundle (model options)))
            with Some b => JSON_parse b | None => None end) as [v|];
    [|outcome_cases].
  destruct (getValidatedOverrides
              (match overrides options with Some o => o | None => [] end))
    as [vo|]; [|outcome_cases].
  assert (Tail : forall t core e,
             (let* validated := validatedPassKeys t core [] (Obj.keys core) in
              let props_ := Obj.assign (Obj.spread validated) vo in
              let* sub := JS.prop (JObject core) t in
              let* transit :=
                if t =? "boardingPass" then
                  let* t0 := JS.prop sub "transitType" in
                  Ok (if JS.truthy t0 then t0 else JString "")
                else Ok (JString "") in
              let* fields_ :=
                create_fields sub FieldsArray._fields FieldsArray.empty in
              Ok {| bundle := Obj.spread (pb_bundle (model options));
                    l10nBundles := l10nBundle (model options);
                    passProps := props_; type := t;
                    passCore := JObject core; fields := fields_;
                    Certificates := certificates options;
                    transitType := transit; l10nTranslations := [] |})
             = Err e -> e = TypeError \/ e = DuplicateKey).
  { intros t core e.
    destruct (validatedPassKeys t core [] (Obj.keys core)) as [vd|e1] eqn:EK;
      cbn [bind].
    2:{ intros E. inversion E; subst. left.
        now apply validatedPassKeys_Err in EK. }
    destruct (JS.prop (JObject core) t) as [sub|e1] eqn:ES; cbn [bind].
    2:{ intros E. inversion E; subst. left. now apply prop_Err in ES. }
    assert (X : forall tr,
               (let* fields_ :=
                  create_fields sub FieldsArray._fields FieldsArray.empty in
                Ok {| bundle := Obj.spread (pb_bundle (model options));
                      l10nBundles := l10nBundle (model options);
                      passProps := Obj.assign (Obj.spread vd) vo; type := t;
                      passCore := JObject core; fields := fields_;
                      Certificates := certificates options;
                      transitType := tr; l10nTranslations := [] |})
               = Err e -> e = TypeError \/ e = DuplicateKey).
    { intros tr.
      destruct (create_fields sub FieldsArray._fields FieldsArray.empty)
        as [fl|e1] eqn:EF; cbn [bind]; [discriminate|].
      intros E. inversion E; subst. now apply create_fields_Err in EF. }
    destruct (t =? "boardingPass").
    - destruct (JS.prop sub "transitType") as [t0|e1] eqn:ET; cbn [bind].
      + apply X.
      + intros E. inversion E; subst. left. now apply prop_Err in ET.
    - cbn [bind]. apply X. }
  destruct v as [| | | | | |core]; cbn [nullish category_key];
    [ outcome_cases | outcome_cases | | | | | ];
    try solve [outcome_cases;
               split; [reflexivity|]; split; [congruence|];
               eexists; split; [reflexivity|]; split; reflexivity].
  destruct (find is_type_key (Obj.keys core)) as [t|] eqn:EF.
  - outcome_cases;
      try match goal with
          | H : _ = Err _ |- _ => apply Tail in H; destruct H; discriminate
          end.
  - outcome_cases. split; [reflexivity|]. split; [congruence|].
    eexists; split; [reflexivity|]. split; [reflexivity|]. exact EF.
Qed.

End ConstructorOutcomes.
Section TemplateProperties.

Context {C : Collaborators}.

(** X2. After a successful construction the pass
    category is the first key of pass.json, in the record's key order, whose
    name contains one of boardingPass, eventTicket, coupon, generic and
    storeCard: no earlier key contains one. *)
Theorem category_detection options p :
  construct options = Ok p ->
  exists core before after,
    passCore p = JObject core /\
    Obj.keys core = (before ++ type p :: after)%list /\
    (exists name,
        In name ["boardingPass"; "eventTicket"; "coupon"; "generic";
                 "storeCard"] /\
        Str.includes (type p) name = true) /\
    forall k, In k before -> is_type_key k = false.
Proof.
  intros E. apply construct_Ok in E.
  destruct E as (pj & core & vo & vd & sub & _ & _ & _ & _ & EF & _ & _ & _
                 & _ & _ & _ & EC & _).
  apply find_split in EF. destruct EF as (before & after & EK & ET & EB).
  exists core, before, after. split; [exact EC|]. split; [exact EK|].
  split; [|exact EB].
  unfold is_type_key in ET. apply existsb_exists in ET. exact ET.
Qed.

(** What [getValidInArray] keeps, when it returns. *)
Lemma getValidInArray_Ok s l valid :
  getValidInArray s l = Ok valid -> valid = filter (kept s) l.
Proof.
  unfold getValidInArray. revert valid.
  induction l as [|x r IH]; intros valid; simpl.
  - intros E. now inversion E.
  - unfold kept at 1.
    destruct (JS.keys_length x) as [n|e]; simpl; [|discriminate].
    destruct (JS.filterM _ r) as [r'|e]; simpl; [|discriminate].
    intros E. inversion E; subst. rewrite (IH r' eq_refl).
    now destruct (negb (n =? 0)%nat && isValid s x).
Qed.

(** It throws exactly when an entry is [null] or [undefined]. *)
Lemma getValidInArray_throws s l :
  (exists e, getValidInArray s l = Err e) <-> existsb nullish l = true.
Proof.
  unfold getValidInArray. induction l as [|x r IH]; simpl.
  - split; [intros [e E]; discriminate | discriminate].
  - destruct (JS.keys_length x) as [n|e] eqn:K; simpl.
    + assert (N : nullish x = false) by (destruct x; simpl in *; congruence).
      rewrite N. simpl. rewrite <- IH.
      destruct (JS.filterM _ r) as [r'|e]; simpl; split;
        intros [e' E]; try discriminate; eauto.
    + assert (N : nullish x = true) by (destruct x; simpl in *; congruence).
      rewrite N. simpl. split; eauto.
Qed.

Lemma get_extend {V} x k (v : V) acc :
  Obj.wf acc ->
  Obj.get x (extend acc k v) = if k =? x then Some v else Obj.get x acc.
Proof.
  intros W. unfold extend. rewrite ObjFacts.get_set.
  now rewrite ObjFacts.get_spread.
Qed.

Lemma validate_key_get t core acc k acc' :
  Obj.wf acc ->
  validate_key t core acc k = Ok acc' ->
  Obj.wf acc' /\
  forall x, Obj.get x acc' =
            if (k =? x) && negb (t =? x)
            then Some (validated_value core x) else Obj.get x acc.
Proof.
  intros W. unfold validate_key.
  destruct (String.eqb_spec t k) as [->|N].
  { intros E. inversion E; subst. split; auto.
    intros x. destruct (k =? x); reflexivity. }
  assert (X : forall v, v = validated_value core k ->
                Obj.wf (extend acc k v) /\
                forall x, Obj.get x (extend acc k v) =
                          if (k =? x) && negb (t =? x)
                          then Some (validated_value core x)
                          else Obj.get x acc).
  { intros v ->. split; [apply ObjFacts.wf_extend|].
    intros x. rewrite get_extend by exact W.
    destruct (String.eqb_spec k x) as [<-|]; auto.
    destruct (String.eqb_spec t k); [contradiction|reflexivity]. }
  unfold validated_value in X.
  destruct (propsSchemaMap k) as [sc|].
  2:{ intros E. inversion E; subst. now apply X. }
  destruct (match Obj.get k core with Some y => y | None => JUndefined end)
    eqn:V; try (intros E; inversion E; subst; now apply X).
  destruct (getValidInArray sc l) as [valid|e] eqn:G; simpl; [|discriminate].
  intros E. inversion E; subst. apply X.
  now rewrite (getValidInArray_Ok _ _ _ G).
Qed.

Lemma validatedPassKeys_get t core keys acc acc' :
  Obj.wf acc ->
  validatedPassKeys t core acc keys = Ok acc' ->
  Obj.wf acc' /\
  forall x, Obj.get x acc' =
            if existsb (String.eqb x) keys && negb (t =? x)
            then Some (validated_value core x) else Obj.get x acc.
Proof.
  revert acc. induction keys as [|k r IH]; intros acc W; simpl.
  - intros E. inversion E; subst. auto.
  - destruct (validate_key t core acc k) as [a1|e] eqn:V; simpl; [|discriminate].
    destruct (validate_key_get _ _ _ _ _ W V) as [W1 G1].
    intros E. destruct (IH a1 W1 E) as [W2 G2]. split; auto.
    intros x. rewrite G2, G1. rewrite (String.eqb_sym x k).
    destruct (k =? x), (existsb (String.eqb x) r), (negb (t =? x)); reflexivity.
Qed.

(** X3. After a successful construction the stored
    properties form a record without repeated keys, and every key that the
    overrides do not set holds the validated value of the same key of
    pass.json; the category key itself, and keys missing from pass.json, are
    not stored. *)
Theorem template_properties options p core :
  construct options = Ok p ->
  passCore p = JObject core ->
  Obj.wf (passProps p) /\
  (forall k,
      Obj.get k (whitelisted (given_overrides options)) = None ->
      Obj.get k (passProps p) =
      if existsb (String.eqb k) (Obj.keys core) && negb (type p =? k)
      then Some (validated_value core k) else None).
Proof.
  intros E PC. apply construct_Ok in E.
  destruct E as (pj & core' & vo & vd & sub & _ & _ & _ & EV & _ & EK & _ & _
                 & _ & _ & EP & EC & _).
  rewrite PC in EC. inversion EC; subst core'; clear EC.
  apply getValidatedOverrides_whitelisted in EV. subst vo.
  destruct (validatedPassKeys_get _ _ _ _ _ (ObjFacts.wf_nil) EK) as [W G].
  split.
  - rewrite EP. apply ObjFacts.wf_assign, ObjFacts.wf_spread.
  - intros k NO. rewrite EP, ObjFacts.get_assign.
    unfold given_overrides in NO.
    destruct (Obj.get k (rev (whitelisted _))) eqn:R.
    { exfalso. apply ObjFacts.get_Some_keys in R.
      unfold Obj.keys in R. rewrite map_rev in R. apply in_rev in R.
      apply ObjFacts.get_None_keys in NO. contradiction. }
    rewrite ObjFacts.get_spread by exact W. rewrite G. reflexivity.
Qed.

End TemplateProperties.
Section Staging.

Context {C : Collaborators}.
Import Vocabulary.

(** X6. localize with an empty language changes nothing;
    with a language it stages the given translations (an empty record when
    none is given) under that language, leaves the other languages as they
    were, replaces in place a language already staged, and, for a language name
    without a slash or backslash, keeps what holds after the constructor: no
    language is staged twice and none has an empty or slashed name. *)
Theorem localize_staging :
  (forall options p,
      construct options = Ok p -> staged_ok (l10nTranslations p)) /\
  (forall translations p, localize "" translations p = p) /\
  (forall lang translations p,
      lang <> "" ->
      Obj.get lang (l10nTranslations (localize lang translations p))
        = Some (match translations with Some t => t | None => [] end) /\
      (forall other,
          other <> lang ->
          Obj.get other (l10nTranslations (localize lang translations p))
            = Obj.get other (l10nTranslations p)) /\
      (Obj.has lang (l10nTranslations p) = true ->
       Obj.keys (l10nTranslations (localize lang translations p))
         = Obj.keys (l10nTranslations p)) /\
      (staged_ok (l10nTranslations p) -> lang_ok lang = true ->
       staged_ok (l10nTranslations (localize lang translations p)))).
Proof.
  split; [|split].
  - intros options p E. apply construct_Ok in E.
    destruct E as (? & ? & ? & ? & ? & E).
    assert (L : l10nTranslations p = []) by tauto.
    rewrite L. split; [constructor | intros lang []].
  - reflexivity.
  - intros lang translations p N. unfold localize.
    apply String.eqb_neq in N. rewrite N. cbn [negb l10nTranslations
      with_l10nTranslations].
    split; [apply ObjFacts.get_set_same|].
    split; [intros other NO; now apply ObjFacts.get_set_other|].
    split.
    + intros H. rewrite ObjFacts.keys_set. now rewrite H.
    + intros [W K] L. split; [now apply ObjFacts.wf_set|].
      intros x I. apply ObjFacts.In_keys_set in I.
      destruct I as [->|I]; auto.
Qed.

End Staging.

Section Metadata.

Context {C : Collaborators}.

Lemma assign_overlaid p core k v :
  Obj.wf (passProps p) ->
  Obj.get k (passProps p) = Some v ->
  color_rejected k v = false ->
  Obj.get k (overlaid p core) = Some v.
Proof.
  intros W G NR. unfold overlaid.
  destruct (passProps p) as [|e r] eqn:PP; [discriminate|].
  cbn [List.length Nat.eqb negb]. rewrite <- PP in *.
  rewrite ObjFacts.get_assign_wf by (apply wf_prune_colors; exact W).
  now rewrite (get_prune_colors_kept k v _ G NR).
Qed.

(** X7. A stored property that is not a rejected
    colour is written into the metadata record, and generate, when the bundle
    can be read and signed, leaves the serialised record with that value under
    pass.json of the bundle. *)
Theorem properties_reach_metadata p core sub k v :
  metadata_record p core sub ->
  (type p =? "boardingPass") && transit_unresolved p = false ->
  Obj.wf (passProps p) ->
  Obj.get k (passProps p) = Some v ->
  color_rejected k v = false ->
  exists passJson passFile,
    Obj.get "pass.json" (bundle p) = Some passJson /\
    snd (patch_passFile passJson p) = Ok passFile /\
    Obj.get k passFile = Some v /\
    forall h,
      store_readable p h -> can_sign p ->
      exists p' h' archive,
        generate p h = (p', h', Ok archive) /\
        Obj.get "pass.json" (bundle p')
          = Some (JSON_stringify (JObject passFile)).
Proof.
  intros ((passJson & G & EJ) & ES & EH) EM W Gk NR.
  pose proof (patch_passFile_Ok p core sub passJson EJ ES EH EM) as P.
  exists passJson,
    (Obj.set (type p) (JObject (patched_category p sub)) (overlaid p core)).
  split; [exact G|]. split; [exact P|]. split.
  - assert (Nk : k <> type p).
    { intros ->. apply has_false_keys in EH. apply EH.
      now apply ObjFacts.get_Some_keys in Gk. }
    rewrite ObjFacts.get_set_other by exact Nk.
    now apply assign_overlaid.
  - intros h R Sg.
    destruct (generate_succeeds p h passJson _ G P R Sg)
      as (p' & h' & a & Gn & Gb).
    eauto.
Qed.

(** What [prune_colors] does to a rejected colour. *)
Lemma get_prune_colors_rejected k v props_ :
  Obj.get k props_ = Some v -> color_rejected k v = true ->
  Obj.get k (prune_colors props_) = None.
Proof.
  intros G R. unfold prune_colors. rewrite get_delete_all.
  unfold color_rejected in R.
  apply andb_true_iff in R. destruct R as [R1 R3].
  apply andb_true_iff in R1. destruct R1 as [R1 R2].
  assert (X : existsb (String.eqb k)
                (filter (fun c =>
                           match Obj.get c props_ with
                           | Some x => JS.truthy x && negb (isValidRGB x)
                           | None => false
                           end) passColors) = true).
  { apply existsb_exists. exists k. split; [|apply String.eqb_refl].
    apply filter_In. split.
    - apply existsb_exists in R1. destruct R1 as [c [I E]].
      apply String.eqb_eq in E. now subst.
    - rewrite G, R2, R3. reflexivity. }
  now rewrite X.
Qed.

Lemma props_after_patch p core passJson :
  JSON_parse passJson = Some (JObject core) ->
  Obj.has (type p) (passProps p) = false ->
  passProps (fst (patch_passFile passJson p))
  = if negb (List.length (passProps p) =? 0)%nat
    then prune_colors (passProps p) else passProps p.
Proof.
  intros EJ EH. unfold patch_passFile. rewrite EJ.
  set (p1 := if negb (List.length (passProps p) =? 0)%nat
             then with_passProps (prune_colors (passProps p)) p else p).
  assert (P1 : passProps p1
               = if negb (List.length (passProps p) =? 0)%nat
                 then prune_colors (passProps p) else passProps p).
  { subst p1. now destruct (negb _). }
  assert (H1 : Obj.has (type p) (passProps p1) = false).
  { rewrite P1. destruct (negb _); auto.
    apply has_false_keys. apply has_false_keys in EH.
    intros I. apply EH. now apply keys_prune_colors in I. }
  assert (A : forall s q, passProps q = passProps p1 ->
                          passProps (alias_write (type p) s q) = passProps p1).
  { intros s q Eq. unfold alias_write. rewrite Eq, H1. exact Eq. }
  match goal with |- context [Obj.get (type p) ?x] =>
    destruct (Obj.get (type p) x) as [[]|] end; try exact P1.
  - destruct (_ && _); exact P1.
  - destruct (_ && _); cbn [fst]; rewrite <- P1; repeat rewrite A; auto.
Qed.

Lemma template_entry_kept p core sub k :
  k <> type p ->
  Obj.get k (prune_colors (passProps p)) = None ->
  Obj.get k (Obj.set (type p) (JObject (patched_category p sub))
                     (overlaid p core))
  = Obj.get k core.
Proof.
  intros Nk Pr. rewrite ObjFacts.get_set_other by exact Nk.
  unfold overlaid. destruct (negb _); auto.
  rewrite ObjFacts.get_assign.
  destruct (Obj.get k (rev (prune_colors (passProps p)))) eqn:X; auto.
  exfalso. apply ObjFacts.get_Some_keys in X.
  unfold Obj.keys in X. rewrite map_rev in X. apply in_rev in X.
  apply ObjFacts.get_None_keys in Pr. contradiction.
Qed.

(** X8. A property other than the category key that
    is not stored, or a colour that is stored but rejected, is not written: the metadata record keeps the
    value the template had for it, and the rejected colour is no longer in the
    stored properties afterwards. *)
Theorem template_value_survives p core sub k :
  metadata_record p core sub ->
  (type p =? "boardingPass") && transit_unresolved p = false ->
  k <> type p ->
  match Obj.get k (passProps p) with
  | Some v => color_rejected k v = true
  | None => True
  end ->
  exists passJson passFile,
    Obj.get "pass.json" (bundle p) = Some passJson /\
    snd (patch_passFile passJson p) = Ok passFile /\
    Obj.get k passFile = Obj.get k core /\
    Obj.get k (passProps (fst (patch_passFile passJson p))) = None.
Proof.
  intros ((passJson & G & EJ) & ES & EH) EM Nk R.
  pose proof (patch_passFile_Ok p core sub passJson EJ ES EH EM) as P.
  exists passJson,
    (Obj.set (type p) (JObject (patched_category p sub)) (overlaid p core)).
  split; [exact G|]. split; [exact P|].
  assert (Pr : Obj.get k (prune_colors (passProps p)) = None).
  { destruct (Obj.get k (passProps p)) as [v|] eqn:Gk.
    - exact (get_prune_colors_rejected k v _ Gk R).
    - unfold prune_colors. rewrite get_delete_all, Gk.
      now destruct (existsb _ _). }
  split.
  - exact (template_entry_kept p core sub k Nk Pr).
  - rewrite (props_after_patch p core passJson EJ EH).
    destruct (negb _) eqn:NE; auto.
    destruct (passProps p); [reflexivity|discriminate].
Qed.

Lemma get_patch_fields k sub c :
  Obj.get k (patch_fields sub c) =
  match find (fun s => FieldsArray.slot_name s =? k) FieldsArray._fields with
  | Some s => Some (JArray (FieldsArray.slot s c))
  | None => Obj.get k sub
  end.
Proof.
  unfold patch_fields, FieldsArray._fields. cbn [fold_left find].
  rewrite !ObjFacts.get_set. cbn [FieldsArray.slot_name].
  destruct ("primaryFields" =? k) eqn:E1;
    destruct ("secondaryFields" =? k) eqn:E2;
    destruct ("auxiliaryFields" =? k) eqn:E3;
    destruct ("backFields" =? k) eqn:E4;
    destruct ("headerFields" =? k) eqn:E5; try reflexivity;
    repeat match goal with
           | H : (_ =? k) = true |- _ => apply String.eqb_eq in H
           end; subst; discriminate.
Qed.

(** X9. The metadata record written by _patch holds,
    under the category key, the five field arrays of the pass, one per slot
    name, and otherwise the template's entries of that key, except
    transitType. *)
Theorem category_fields_written p core sub :
  metadata_record p core sub ->
  (type p =? "boardingPass") && transit_unresolved p = false ->
  exists passJson passFile sub',
    Obj.get "pass.json" (bundle p) = Some passJson /\
    snd (patch_passFile passJson p) = Ok passFile /\
    Obj.get (type p) passFile = Some (JObject sub') /\
    (forall s,
        Obj.get (FieldsArray.slot_name s) sub'
          = Some (JArray (FieldsArray.slot s (fields p)))) /\
    (forall k,
        k <> "transitType" ->
        (forall s, k <> FieldsArray.slot_name s) ->
        Obj.get k sub' = Obj.get k sub).
Proof.
  intros ((passJson & G & EJ) & ES & EH) EM.
  pose proof (patch_passFile_Ok p core sub passJson EJ ES EH EM) as P.
  exists passJson,
    (Obj.set (type p) (JObject (patched_category p sub)) (overlaid p core)),
    (patched_category p sub).
  split; [exact G|]. split; [exact P|].
  split; [apply ObjFacts.get_set_same|]. unfold patched_category. split.
  - intros s. rewrite ObjFacts.get_set_other by (destruct s; discriminate).
    rewrite get_patch_fields. destruct s; reflexivity.
  - intros k NT NS. rewrite ObjFacts.get_set_other by exact NT.
    rewrite get_patch_fields.
    destruct (find _ FieldsArray._fields) as [s|] eqn:F; auto.
    apply find_some in F. destruct F as [_ F]. apply String.eqb_eq in F.
    exfalso. apply (NS s). now symmetry.
Qed.

End Metadata.
Section GenerateOutcomes.

Context {C : Collaborators}.
Import Vocabulary.

Lemma l10n_step_keys tr lang l10n fb k :
  In k (Obj.keys fb) -> In k (Obj.keys (snd (l10n_step tr lang (l10n, fb)))).
Proof.
  intros I. unfold l10n_step.
  match goal with |- context [Obj.get (lang ++ ".lproj") ?x] =>
    destruct (Obj.get (lang ++ ".lproj") x) as [u|] end; simpl; auto.
  destruct (List.length u =? 0)%nat; simpl; auto.
  apply ObjFacts.In_keys_assign. now left.
Qed.

Lemma l10n_loop_keys tr codes l10n fb k :
  In k (Obj.keys fb) -> In k (Obj.keys (snd (l10n_loop tr codes (l10n, fb)))).
Proof.
  revert l10n fb. induction codes as [|lang rest IH]; intros l10n fb I; simpl; auto.
  destruct (lang =? ""); simpl; auto.
  pose proof (l10n_step_keys tr lang l10n fb k I) as I'.
  destruct (l10n_step tr lang (l10n, fb)) as [l10n' fb']. simpl in I'.
  now apply IH.
Qed.

Lemma merge_l10n_keys p h h' fb k :
  merge_l10n p h = Ok (h', fb) ->
  In k (Obj.keys (bundle p)) -> In k (Obj.keys fb).
Proof.
  intros M I.
  assert (I0 : In k (Obj.keys (Obj.spread (bundle p)))).
  { unfold Obj.spread. apply ObjFacts.In_keys_assign. now right. }
  unfold merge_l10n in M.
  destruct (rev (Obj.keys (l10nTranslations p))) as [|lang rest].
  { inversion M; subst. exact I0. }
  destruct (lang =? "").
  { inversion M; subst. exact I0. }
  destruct (heap_read (l10nBundles p) h) as [l10n|]; [|discriminate].
  pose proof (l10n_loop_keys (l10nTranslations p) (lang :: rest) l10n _ k I0)
    as I1.
  destruct (l10n_loop _ _ _) as [l10n' fb']. inversion M; subst. exact I1.
Qed.

(** X10. When the pass declares nfc, a
    successful generate changes only the pass.json entry of the bundle, and
    every file of the bundle is a member of the archive. *)
Theorem personalization_kept_with_nfc p h p' h' archive :
  is_type_key (type p) = true ->
  nfc_declared p = true ->
  generate p h = (p', h', Ok archive) ->
  (exists patched, bundle p' = Obj.set "pass.json" patched (bundle p)) /\
  (forall name,
      name <> "pass.json" ->
      Obj.get name (bundle p') = Obj.get name (bundle p)) /\
  (forall name,
      In name (Obj.keys (bundle p)) -> In name (map fst archive)).
Proof.
  intros T N G. apply generate_Ok in G.
  destruct G as (passJson & p1 & patched & fb & sg & _ & GP & -> & GM & _ & ->).
  pose proof (patch_nfc passJson p T) as N1.
  pose proof (patch_frame passJson p) as Fr.
  rewrite GP in N1, Fr. cbn [fst] in N1, Fr. destruct Fr as (B & _).
  rewrite N in N1.
  assert (E : bundle (prune_personalization
                        (with_bundle (Obj.set "pass.json" patched (bundle p1)) p1))
              = Obj.set "pass.json" patched (bundle p)).
  { unfold prune_personalization. cbn [passProps with_bundle bundle].
    unfold nfc_declared in N1. rewrite N1. cbn [negb andb bundle with_bundle].
    now rewrite B. }
  split; [eauto|]. split.
  - intros name NP. rewrite E. now apply ObjFacts.get_set_other.
  - intros name I. rewrite map_app. apply in_or_app. left.
    apply (merge_l10n_keys _ _ _ _ name GM). rewrite E.
    apply ObjFacts.In_keys_set. now right.
Qed.

Lemma wf_delete_all {V} names (b : Obj.t V) :
  Obj.wf b -> Obj.wf (fold_left (fun acc f => Obj.delete f acc) names b).
Proof.
  revert b. induction names as [|n r IH]; intros b W; simpl; auto.
  apply IH. now apply ObjFacts.wf_delete.
Qed.

Lemma wf_prune_personalization p :
  Obj.wf (bundle p) -> Obj.wf (bundle (prune_personalization p)).
Proof.
  intros W. unfold prune_personalization.
  match goal with |- context [if ?c then _ else _] => destruct c end; auto.
  simpl. unfold Utils.deletePersonalization. now apply wf_delete_all.
Qed.

(** X11. With no language staged a successful
    generate leaves the shared store as it was, and the archive is the final
    bundle followed by the signature, made from the digests of the final
    bundle, and by manifest.json, the serialised digests. *)
Theorem generate_without_languages p h p' h' archive :
  l10nTranslations p = [] ->
  Obj.wf (bundle p) ->
  generate p h = (p', h', Ok archive) ->
  h' = h /\
  Obj.wf (bundle p') /\
  exists signatureBuffer,
    Signature_create (map digest_entry (bundle p')) (Certificates p)
      = Some signatureBuffer /\
    archive =
      (bundle p' ++
       [("signature", signatureBuffer);
        ("manifest.json",
         JSON_stringify (manifest_json (map digest_entry (bundle p'))))])%list.
Proof.
  intros L W G.
  destruct (generate_frame _ _ _ _ _ G) as (_ & _ & _ & EC & _ & EL).
  apply generate_Ok in G.
  destruct G as (passJson & p1 & patched & fb & sg & _ & GP & E & GM & GS & ->).
  pose proof (patch_frame passJson p) as Fr.
  rewrite GP in Fr. cbn [fst] in Fr. destruct Fr as (B & _).
  assert (W' : Obj.wf (bundle p')).
  { subst p'. apply wf_prune_personalization. cbn [bundle with_bundle].
    apply ObjFacts.wf_set. now rewrite B. }
  unfold merge_l10n in GM. rewrite EL, L in GM. cbn in GM.
  inversion GM; subst h' fb. rewrite ObjFacts.spread_wf_id in * by exact W'.
  split; [reflexivity|]. split; [exact W'|].
  exists sg. rewrite <- EC. auto.
Qed.

Lemma patch_passFile_errors passJson p e :
  snd (patch_passFile passJson p) = Err e ->
  e = SyntaxError \/ e = TypeError \/ e = TRSTYPE_REQUIRED.
Proof.
  unfold patch_passFile.
  destruct (JSON_parse passJson) as [[]|]; cbn [snd];
    try (intros E; inversion E; tauto).
  match goal with |- context [Obj.get (type p) ?y] =>
    destruct (Obj.get (type p) y) as [[]|] end; cbn [snd];
    try (intros E; inversion E; tauto);
    destruct (_ && _); cbn [snd]; intros E; inversion E; tauto.
Qed.

(** X12. A failing generate raises a TypeError, a
    SyntaxError, TRSTYPE_REQUIRED or a signature error; only a signature error
    can follow a change of the shared store, the bundle is untouched after a
    SyntaxError or TRSTYPE_REQUIRED, and a signature error comes after the
    languages were merged. *)
Theorem generate_failure_state p h p' h' e :
  generate p h = (p', h', Err e) ->
  (e = TypeError \/ e = SyntaxError \/ e = TRSTYPE_REQUIRED \/
   e = SignatureError) /\
  (e = SignatureError \/ h' = h) /\
  (e = SyntaxError \/ e = TRSTYPE_REQUIRED -> bundle p' = bundle p) /\
  (e = SignatureError ->
   exists finalBundle, merge_l10n p' h = Ok (h', finalBundle)).
Proof.
  unfold generate.
  destruct (Obj.get "pass.json" (bundle p)) as [passJson|].
  2:{ intros E. inversion E; subst.
      split; [tauto|]. split; [tauto|].
      split; [intros [X|X]; discriminate | discriminate]. }
  pose proof (patch_snd passJson p) as S.
  pose proof (patch_frame passJson p) as Fr.
  destruct (_patch passJson p) as [p1 [patched|e1]]; cbn [fst snd] in S, Fr.
  2:{ intros E. inversion E; subst.
      destruct (snd (patch_passFile passJson p)) as [x|e2] eqn:P;
        [discriminate|]. inversion S; subst e2.
      apply patch_passFile_errors in P. destruct Fr as (B & _).
      split; [tauto|]. split; [tauto|]. split; [auto|].
      intros ->. destruct P as [P|[P|P]]; discriminate. }
  set (p2 := prune_personalization _).
  destruct (merge_l10n p2 h) as [[h2 fb]|e2] eqn:M.
  2:{ intros E. inversion E; subst. apply merge_l10n_Err in M. subst e.
      split; [tauto|]. split; [tauto|].
      split; [intros [X|X]; discriminate | discriminate]. }
  destruct (build_manifest fb) as [m a].
  destruct (Signature_create m (Certificates p2)); [discriminate|].
  intros E. inversion E; subst.
  split; [tauto|]. split; [tauto|].
  split; [intros [X|X]; discriminate | intros _; eauto].
Qed.

End GenerateOutcomes.
Section Regeneration.

Context {C : Collaborators}.
Import Vocabulary.

Lemma set_same {V} k (v : V) o : Obj.get k o = Some v -> Obj.set k v o = o.
Proof.
  induction o as [|[a b] r IH]; simpl; [discriminate|].
  destruct (String.eqb_spec a k) as [->|N].
  - intros E. now inversion E.
  - intros E. now rewrite IH.
Qed.

Lemma assign_same {V} (s o : Obj.t V) :
  (forall k v, In (k, v) s -> Obj.get k o = Some v) -> Obj.assign o s = o.
Proof.
  unfold Obj.assign. induction s as [|[k v] r IH]; intros H; simpl; auto.
  rewrite set_same by (apply H; now left).
  apply IH. intros k' v' I. apply H. now right.
Qed.

Lemma filter_none {A} (f : A -> bool) l :
  (forall x, In x l -> f x = false) -> filter f l = [].
Proof.
  induction l as [|a r IH]; intros H; simpl; auto.
  rewrite (H a) by now left. apply IH. intros x I. apply H. now right.
Qed.

Lemma prune_colors_idem props_ :
  prune_colors (prune_colors props_) = prune_colors props_.
Proof.
  unfold prune_colors at 1.
  rewrite filter_none; [reflexivity|].
  intros c I. unfold prune_colors. rewrite get_delete_all.
  destruct (existsb (String.eqb c) _) eqn:E; auto.
  destruct (Obj.get c props_) as [x|] eqn:G; auto.
  destruct (JS.truthy x && negb (isValidRGB x)) eqn:T; auto.
  exfalso.
  assert (X : existsb (String.eqb c)
                (filter (fun v =>
                           match Obj.get v props_ with
                           | Some x => JS.truthy x && negb (isValidRGB x)
                           | None => false
                           end) passColors) = true).
  { apply existsb_exists. exists c. split; [|apply String.eqb_refl].
    apply filter_In. split; auto. now rewrite G. }
  congruence.
Qed.

Lemma patch_fields_same p sub :
  patch_fields (patched_category p sub) (fields p) = patched_category p sub.
Proof.
  assert (G : forall s,
             Obj.get (FieldsArray.slot_name s) (patched_category p sub)
             = Some (JArray (FieldsArray.slot s (fields p)))).
  { intros s. unfold patched_category.
    rewrite ObjFacts.get_set_other by (destruct s; discriminate).
    rewrite get_patch_fields. destruct s; reflexivity. }
  unfold patch_fields, FieldsArray._fields. cbn [fold_left].
  rewrite (set_same _ _ _ (G FieldsArray.primaryFields)).
  rewrite (set_same _ _ _ (G FieldsArray.secondaryFields)).
  rewrite (set_same _ _ _ (G FieldsArray.auxiliaryFields)).
  rewrite (set_same _ _ _ (G FieldsArray.backFields)).
  now rewrite (set_same _ _ _ (G FieldsArray.headerFields)).
Qed.

Lemma with_passProps_same p : with_passProps (passProps p) p = p.
Proof. now destruct p. Qed.

Lemma with_bundle_same p : with_bundle (bundle p) p = p.
Proof. now destruct p. Qed.

Lemma prune_personalization_idem p :
  prune_personalization (prune_personalization p) = prune_personalization p.
Proof.
  unfold prune_personalization at 2.
  destruct (negb _ && existsb _ _) eqn:E.
  - unfold prune_personalization. rewrite E. cbn [passProps with_bundle bundle].
    match goal with |- (if ?a && ?b then _ else _) = _ =>
      assert (X : b = false); [|rewrite X, andb_false_r; reflexivity] end.
    match goal with |- ?b = false => destruct b eqn:Y end; auto. exfalso.
    apply existsb_exists in Y. destruct Y as [x [I Ex]].
    apply String.eqb_eq in Ex. subst x.
    unfold Utils.deletePersonalization in I.
    apply In_keys_delete_all in I. destruct I as [N _]. apply N.
    apply in_or_app. right. now left.
  - unfold prune_personalization. now rewrite E.
Qed.

Lemma l10n_loop_idle trs codes l10n fb :
  (forall lang tr, Obj.get lang trs = Some tr -> tr = []) ->
  fst (l10n_loop trs codes (l10n, fb)) = l10n.
Proof.
  intros H. revert fb. induction codes as [|lang rest IH]; intros fb; simpl; auto.
  destruct (lang =? ""); auto.
  assert (S : fst (l10n_step trs lang (l10n, fb)) = l10n).
  { unfold l10n_step. cbv zeta.
    match goal with |- context [Utils.generateStringFile ?x] =>
      assert (R : Utils.generateStringFile x = "") end.
    { match goal with |- context [match ?g with Some _ => _ | None => _ end] =>
        destruct g as [tr|] eqn:G end; [|reflexivity].
      now rewrite (H lang tr G). }
    rewrite R. cbn [String.length Nat.eqb negb].
    destruct (Obj.get (lang ++ ".lproj") l10n) as [u|]; auto.
    destruct (List.length u =? 0)%nat; auto. }
  destruct (l10n_step trs lang (l10n, fb)) as [l1 fb1]. simpl in S. subst l1.
  apply IH.
Qed.

Lemma merge_l10n_idle p h h' fb :
  (forall lang tr, Obj.get lang (l10nTranslations p) = Some tr -> tr = []) ->
  merge_l10n p h = Ok (h', fb) -> h' = h.
Proof.
  intros H. unfold merge_l10n.
  destruct (rev (Obj.keys (l10nTranslations p))) as [|lang rest].
  { intros E. now inversion E. }
  destruct (lang =? ""). { intros E. now inversion E. }
  destruct (heap_read (l10nBundles p) h) as [l10n|] eqn:R; [|discriminate].
  pose proof (l10n_loop_idle (l10nTranslations p) (lang :: rest) l10n
                (Obj.spread (bundle p)) H) as I.
  destruct (l10n_loop _ _ _) as [l10n' fb']. simpl in I. subst l10n'.
  intros E. inversion E; subst. now apply L10nFacts.heap_write_same.
Qed.

(** Patching the serialized record again gives the same record and
    leaves the instance as it is. *)
Lemma patch_again p core sub passJson q :
  JSON_parse passJson = Some (JObject core) ->
  Obj.get (type p) core = Some (JObject sub) ->
  Obj.has (type p) (passProps p) = false ->
  Obj.wf (passProps p) ->
  (type p =? "boardingPass") && transit_unresolved p = false ->
  JSON_parse (JSON_stringify
                (JObject (Obj.set (type p) (JObject (patched_category p sub))
                                  (overlaid p core))))
  = Some (JObject (Obj.set (type p) (JObject (patched_category p sub))
                           (overlaid p core))) ->
  type q = type p -> fields q = fields p -> transitType q = transitType p ->
  passProps q = (if negb (List.length (passProps p) =? 0)%nat
                 then prune_colors (passProps p) else passProps p) ->
  patch_passFile
    (JSON_stringify
       (JObject (Obj.set (type p) (JObject (patched_category p sub))
                         (overlaid p core)))) q
  = (q, Ok (Obj.set (type p) (JObject (patched_category p sub))
                    (overlaid p core))).
Proof.
  intros EJ ES EH W EM RT ET EF ETT EP.
  set (R := Obj.set (type p) (JObject (patched_category p sub))
                    (overlaid p core)) in *.
  assert (PI : prune_colors (passProps q) = passProps q).
  { rewrite EP. destruct (negb _) eqn:NE; [apply prune_colors_idem|].
    destruct (passProps p); [reflexivity|discriminate]. }
  assert (Hq : Obj.has (type p) (passProps q) = false).
  { rewrite EP. destruct (negb _); auto.
    apply has_false_keys. apply has_false_keys in EH.
    intros I. apply EH. now apply keys_prune_colors in I. }
  assert (Wq : Obj.wf (passProps q)).
  { rewrite EP. destruct (negb _); auto. now apply wf_prune_colors. }
  assert (AR : Obj.assign R (passProps q) = R).
  { apply assign_same. intros k v I.
    apply ObjFacts.In_get in I; [|exact Wq].
    assert (Nk : k <> type p).
    { intros ->. apply has_false_keys in Hq. apply Hq.
      now apply ObjFacts.get_Some_keys in I. }
    subst R. rewrite ObjFacts.get_set_other by exact Nk.
    unfold overlaid. rewrite EP in I.
    destruct (negb (List.length (passProps p) =? 0)%nat) eqn:NE.
    - rewrite ObjFacts.get_assign_wf by (apply wf_prune_colors; exact W).
      now rewrite I.
    - destruct (passProps p); [discriminate I|discriminate NE]. }
  assert (GR : Obj.get (type p) R = Some (JObject (patched_category p sub))).
  { subst R. apply ObjFacts.get_set_same. }
  assert (TS : Obj.set "transitType" (transitType p) (patched_category p sub)
               = patched_category p sub).
  { apply set_same. unfold patched_category. apply ObjFacts.get_set_same. }
  unfold transit_unresolved in EM.
  unfold patch_passFile. rewrite RT.
  destruct (negb (List.length (passProps q) =? 0)%nat);
    [rewrite PI, with_passProps_same, AR|];
    (rewrite ET, GR, EF, ETT, EM, patch_fields_same;
     unfold alias_write; rewrite Hq, TS, Hq;
     now rewrite (set_same _ _ _ GR)).
Qed.

(** [generate] with another signer: only the call of
    [Signature.create] differs. *)
Lemma generate_with_signer sign p h :
  generate (C := with_signer sign) p h =
  match Obj.get "pass.json" (bundle p) with
  | None => (p, h, Err TypeError)
  | Some passJson =>
      match _patch passJson p with
      | (p1, Err e) => (p1, h, Err e)
      | (p1, Ok patched) =>
          let p2 := prune_personalization
                      (with_bundle (Obj.set "pass.json" patched (bundle p1)) p1) in
          match merge_l10n p2 h with
          | Err e => (p2, h, Err e)
          | Ok (h', finalBundle) =>
              let (manifest, archive) := build_manifest finalBundle in
              match sign manifest (Certificates p2) with
              | None => (p2, h', Err SignatureError)
              | Some signatureBuffer =>
                  (p2, h',
                   Ok (archive ++
                       [("signature", signatureBuffer);
                        ("manifest.json",
                         JSON_stringify (manifest_json manifest))])%list)
              end
          end
      end
  end.
Proof. reflexivity. Qed.

(** X13. When every staged language has an empty
    translation record, so that no strings file is rendered, and the written
    metadata record survives a parse of its serialisation, a first generate
    leaves the shared store as it was, and a second generate changes neither
    the pass nor the store and archives the same files and the same manifest:
    whatever the signer returns this time, the archive differs from the first
    in the signature entry at most, and the call fails only if the signer
    does. *)
Theorem generate_again_same p h p1 h1 a1 core sub :
  metadata_record p core sub ->
  Obj.wf (passProps p) ->
  (forall lang tr, Obj.get lang (l10nTranslations p) = Some tr -> tr = []) ->
  (forall passJson passFile,
      Obj.get "pass.json" (bundle p) = Some passJson ->
      snd (patch_passFile passJson p) = Ok passFile ->
      JSON_parse (JSON_stringify (JObject passFile))
        = Some (JObject passFile)) ->
  generate p h = (p1, h1, Ok a1) ->
  h1 = h /\
  exists files signature1,
    a1 = (files ++
          [("signature", signature1);
           ("manifest.json",
            JSON_stringify (manifest_json (map digest_entry files)))])%list /\
    forall sign,
      generate (C := with_signer sign) p1 h1 =
      (p1, h1,
       match sign (map digest_entry files) (Certificates p1) with
       | Some signature2 =>
           Ok (files ++
               [("signature", signature2);
                ("manifest.json",
                 JSON_stringify (manifest_json (map digest_entry files)))])%list
       | None => Err SignatureError
       end).
Proof.
  intros ((passJson & G & EJ) & ES & EH) W Idle RT Gn.
  assert (EM : (type p =? "boardingPass") && transit_unresolved p = false).
  { destruct ((type p =? "boardingPass") && transit_unresolved p) eqn:X; auto.
    exfalso. apply andb_true_iff in X. destruct X as [X1 X2].
    apply String.eqb_eq in X1.
    apply (generate_never p h a1 X1 X2). now rewrite Gn. }
  pose proof (patch_passFile_Ok p core sub passJson EJ ES EH EM) as P.
  specialize (RT passJson _ G P).
  destruct (generate_frame _ _ _ _ _ Gn) as (F1 & F2 & F3 & F4 & F5 & F6).
  apply generate_Ok in Gn.
  destruct Gn as (pj & q & patched & fb & sg & G' & GP & E1 & GM & GS & EA).
  rewrite G in G'. inversion G'; subst pj; clear G'.
  pose proof (patch_snd passJson p) as PS. rewrite GP, P in PS. cbn [snd] in PS.
  inversion PS; subst patched; clear PS.
  pose proof (props_after_patch p core passJson EJ EH) as PP.
  unfold _patch in GP.
  destruct (patch_passFile passJson p) as [q0 [x|e]] eqn:PF; [|discriminate].
  inversion GP; subst q0; clear GP. cbn [fst] in PP.
  assert (Idle1 : forall lang tr,
             Obj.get lang (l10nTranslations p1) = Some tr -> tr = []).
  { now rewrite F6. }
  assert (Hh : h1 = h) by (eapply merge_l10n_idle; eauto).
  split; [exact Hh|]. subst h1.
  exists fb, sg. split; [exact EA|]. intros sign.
  assert (Gp : Obj.get "pass.json" (bundle p1)
               = Some (JSON_stringify
                         (JObject (Obj.set (type p)
                                     (JObject (patched_category p sub))
                                     (overlaid p core))))).
  { rewrite E1. rewrite prune_personalization_keeps
      by (discriminate || reflexivity).
    cbn [bundle with_bundle]. apply ObjFacts.get_set_same. }
  assert (Pp : passProps p1 = passProps q).
  { rewrite E1.
    destruct (prune_personalization_frame
                (with_bundle
                   (Obj.set "pass.json"
                      (JSON_stringify
                         (JObject (Obj.set (type p)
                                     (JObject (patched_category p sub))
                                     (overlaid p core))))
                      (bundle q)) q)) as (_ & X & _).
    exact X. }
  rewrite PP in Pp.
  pose proof (patch_again p core sub passJson p1 EJ ES EH W EM RT F2 F3 F5 Pp)
    as PA.
  assert (Pr : prune_personalization p1 = p1).
  { rewrite E1. apply prune_personalization_idem. }
  rewrite generate_with_signer. rewrite Gp. unfold _patch. rewrite PA.
  rewrite (set_same _ _ _ Gp), with_bundle_same, Pr, GM.
  rewrite (build_manifest_wf _ (merge_l10n_wf _ _ _ _ GM)).
  destruct (sign _ _); reflexivity.
Qed.

End Regeneration.
Section Builders.

Context {C : Collaborators}.
Import Vocabulary.

Lemma findBarcode_find chosen l :
  (forall b, In b l -> exists f, JS.prop b "format" = Ok (JString f)) ->
  findBarcode chosen l = Ok (find (format_matches chosen) l).
Proof.
  induction l as [|b r IH]; intros H; simpl; auto.
  destruct (H b) as [f F]; [now left|].
  unfold format_matches. rewrite F. cbn [bind].
  destruct (Str.includes _ _); auto.
  apply IH. intros x I. apply H. now right.
Qed.

Lemma includes_empty s : Str.includes s "" = true.
Proof. destruct s; reflexivity. Qed.

Lemma barcode_found chosen pool p :
  chosen <> "PKBarcodeFormatCode128" ->
  Obj.get "barcodes" (passProps p) = Some (JArray pool) ->
  (forall b, In b pool -> exists f, JS.prop b "format" = Ok (JString f)) ->
  barcode (JString chosen) p
  = Ok (match find (format_matches chosen) pool with
        | Some b => with_passProps (Obj.set "barcode" b (passProps p)) p
        | None => p
        end).
Proof.
  intros N G H.
  unfold barcode. apply String.eqb_neq in N. rewrite N, G.
  destruct pool as [|b r]; [reflexivity|].
  rewrite (findBarcode_find chosen (b :: r) H). cbn [bind].
  now destruct (find _ _).
Qed.

(** X14. barcode, given a format name other than the
    exact Code128 name, stores as barcode the first entry of the stored
    barcodes whose format contains the name, letter case aside, and changes
    nothing when there is none; the entry is one of the stored ones, and the
    empty name selects the first entry. *)
Theorem barcode_selection chosen pool p :
  chosen <> "PKBarcodeFormatCode128" ->
  Obj.get "barcodes" (passProps p) = Some (JArray pool) ->
  (forall b, In b pool -> exists f, JS.prop b "format" = Ok (JString f)) ->
  barcode (JString chosen) p
  = Ok (match find (format_matches chosen) pool with
        | Some b => with_passProps (Obj.set "barcode" b (passProps p)) p
        | None => p
        end) /\
  (forall b, find (format_matches chosen) pool = Some b -> In b pool) /\
  (chosen = "" ->
   find (format_matches chosen) pool = List.head pool).
Proof.
  intros N G H. split; [|split].
  - exact (barcode_found chosen pool p N G H).
  - intros b F. apply find_some in F. tauto.
  - intros ->. destruct pool as [|b r]; [reflexivity|]. simpl.
    destruct (H b) as [f F]; [now left|].
    unfold format_matches. rewrite F. cbn [Str.toLowerCase].
    now rewrite includes_empty.
Qed.

(** X15. The refusal of Code128 as legacy barcode
    compares the name exactly, while the selection ignores letter case: after
    barcodes is given a message, barcode with the Code128 name in another
    letter case stores the Code128 entry. *)
Theorem code128_guard_is_exact chosen message p :
  chosen <> "PKBarcodeFormatCode128" ->
  Str.toLowerCase chosen = "pkbarcodeformatcode128" ->
  message <> "" ->
  (forall format,
      In format barcode_formats ->
      exists b,
        getValidated Barcode
          (JObject [("format", JString format); ("message", JString message)])
          = Some b /\
        barcode_entry format message b) ->
  exists code128,
    barcode_entry "PKBarcodeFormatCode128" message code128 /\
    barcode (JString chosen) (barcodes [JString message] p)
    = Ok (with_passProps
            (Obj.set "barcode" code128
                     (passProps (barcodes [JString message] p)))
            (barcodes [JString message] p)).
Proof.
  intros N L M H.
  destruct (H "PKBarcodeFormatQR") as (qr & V1 & E1 & _); [simpl; tauto|].
  destruct (H "PKBarcodeFormatPDF417") as (pdf & V2 & E2 & _); [simpl; tauto|].
  destruct (H "PKBarcodeFormatAztec") as (aztec & V3 & E3 & _); [simpl; tauto|].
  destruct (H "PKBarcodeFormatCode128") as (c128 & V4 & E4); [simpl; tauto|].
  exists c128. split; [exact E4|]. destruct E4 as [E4 _].
  assert (B : barcodes [JString message] p
              = with_passProps
                  (Obj.set "barcodes" (JArray [qr; pdf; aztec; c128])
                           (passProps p)) p).
  { unfold barcodes, barcodesFromUncompleteData.
    apply String.eqb_neq in M. rewrite M. cbn [map].
    rewrite V1, V2, V3, V4. reflexivity. }
  rewrite B.
  rewrite (barcode_found chosen [qr; pdf; aztec; c128]
             (with_passProps
                (Obj.set "barcodes" (JArray [qr; pdf; aztec; c128])
                         (passProps p)) p)).
  - cbn [find]. unfold format_matches.
    rewrite E1, E2, E3, E4, L. reflexivity.
  - exact N.
  - cbn [passProps with_passProps]. apply ObjFacts.get_set_same.
  - intros b [<-|[<-|[<-|[<-|[]]]]]; eauto.
Qed.

Lemma validBarcodes_fold data acc :
  fold_left
    (fun acc current =>
       if negb (JS.truthy current && JS.instanceofObject current) then acc
       else
         match getValidated Barcode current with
         | Some validated =>
             if JS.truthy validated && JS.instanceofObject validated
                && match JS.keys_length validated with
                   | Ok n => negb (n =? 0)%nat
                   | Err _ => false
                   end
             then (acc ++ [validated])%list
             else acc
         | None => acc
         end)
    data acc
  = (acc ++ accepted_barcodes data)%list.
Proof.
  revert acc. induction data as [|c r IH]; intros acc; simpl.
  - now rewrite app_nil_r.
  - rewrite IH. unfold accepted_barcode.
    destruct (JS.truthy c && JS.instanceofObject c); simpl; auto.
    destruct (getValidated Barcode c) as [v|]; simpl; auto.
    destruct (JS.truthy v && JS.instanceofObject v && _); simpl; auto.
    now rewrite <- app_assoc.
Qed.

(** X16. barcodes with a string first uses only that
    string, and does nothing for the empty string; with records it stores, in
    order, the validated form of each record the schema accepts, and nothing
    when none is accepted. *)
Theorem barcodes_entries p :
  (forall m rest, barcodes (JString m :: rest) p = barcodes [JString m] p) /\
  (forall rest, barcodes (JString "" :: rest) p = p) /\
  (forall data,
      (forall rest, data <> JNull :: rest) ->
      (forall m rest, data <> JString m :: rest) ->
      barcodes data p
      = match accepted_barcodes data with
        | [] => p
        | l => with_passProps (Obj.set "barcodes" (JArray l) (passProps p)) p
        end) /\
  (forall data v,
      In v (accepted_barcodes data) ->
      exists current,
        In current data /\ JS.instanceofObject current = true /\
        getValidated Barcode current = Some v /\
        JS.instanceofObject v = true).
Proof.
  split; [reflexivity|]. split; [reflexivity|]. split.
  - intros data N1 N2.
    assert (V : validBarcodes data = accepted_barcodes data).
    { unfold validBarcodes. now rewrite validBarcodes_fold. }
    unfold barcodes. rewrite V.
    destruct data as [|[] rest]; try reflexivity.
    + exfalso. now apply (N1 rest).
    + exfalso. now apply (N2 s rest).
  - intros data v I. unfold accepted_barcodes in I.
    apply in_flat_map in I. destruct I as (c & Ic & Iv).
    exists c. unfold accepted_barcode in Iv.
    destruct (JS.truthy c && JS.instanceofObject c) eqn:T; [|destruct Iv].
    apply andb_true_iff in T. destruct T as [_ T].
    destruct (getValidated Barcode c) as [w|] eqn:G; [|destruct Iv].
    destruct (JS.truthy w && JS.instanceofObject w && _) eqn:U; [|destruct Iv].
    destruct Iv as [<-|[]].
    apply andb_true_iff in U. destruct U as [U _].
    apply andb_true_iff in U. destruct U as [_ U]. auto.
Qed.

(** X17. beacons and locations throw a TypeError when
    an entry is null or undefined; otherwise they store the entries their
    schema accepts, in order, and leave the pass as it is when none is
    accepted. *)
Theorem relevance_entries data p :
  (forall rest, data <> JNull :: rest) ->
  (existsb nullish data = true ->
   beacons data p = Err TypeError /\ locations data p = Err TypeError) /\
  (existsb nullish data = false ->
   beacons data p
   = Ok (match filter (kept Beacon) data with
         | [] => p
         | l => with_passProps (Obj.set "beacons" (JArray l) (passProps p)) p
         end) /\
   locations data p
   = Ok (match filter (kept Location) data with
         | [] => p
         | l => with_passProps (Obj.set "locations" (JArray l) (passProps p)) p
         end)).
Proof.
  intros N.
  assert (EB : beacons data p
               = let* valid := getValidInArray Beacon data in
                 Ok (if negb (List.length valid =? 0)%nat
                     then with_passProps
                            (Obj.set "beacons" (JArray valid) (passProps p)) p
                     else p)).
  { unfold beacons. destruct data as [|[] rest]; try reflexivity.
    exfalso. now apply (N rest). }
  assert (EL : locations data p
               = let* valid := getValidInArray Location data in
                 Ok (if negb (List.length valid =? 0)%nat
                     then with_passProps
                            (Obj.set "locations" (JArray valid) (passProps p)) p
                     else p)).
  { unfold locations. destruct data as [|[] rest]; try reflexivity.
    exfalso. now apply (N rest). }
  rewrite EB, EL. clear EB EL. split.
  - intros T. split.
    + apply (getValidInArray_throws Beacon) in T. destruct T as [e T].
      rewrite T. apply getValidInArray_Err in T. now subst.
    + apply (getValidInArray_throws Location) in T. destruct T as [e T].
      rewrite T. apply getValidInArray_Err in T. now subst.
  - intros T.
    assert (X : forall s, exists valid,
               getValidInArray s data = Ok valid /\
               valid = filter (kept s) data).
    { intros s. destruct (getValidInArray s data) as [valid|e] eqn:G.
      - exists valid. split; auto. now apply getValidInArray_Ok.
      - exfalso.
        assert (Y : existsb nullish data = true)
          by (apply (getValidInArray_throws s); eauto).
        congruence. }
    destruct (X Beacon) as (vb & Gb & ->).
    destruct (X Location) as (vl & Gl & ->).
    rewrite Gb, Gl. cbn [bind]. split.
    + now destruct (filter (kept Beacon) data).
    + now destruct (filter (kept Location) data).
Qed.

End Builders.
Section BuilderFrames.

Context {C : Collaborators}.
Variable Date : Type.
Variable dateToW3CString : Date -> JSValue.

Lemma touches_refl key p : touches_only key p p.
Proof. unfold touches_only, same_but_props. tauto. Qed.

Lemma touches_set key v p :
  touches_only key p (with_passProps (Obj.set key v (passProps p)) p).
Proof.
  unfold touches_only, same_but_props. cbn. repeat split; auto.
  intros k N. now apply ObjFacts.get_set_other.
Qed.

Lemma touches_delete key p :
  touches_only key p (with_passProps (Obj.delete key (passProps p)) p).
Proof.
  unfold touches_only, same_but_props. cbn. repeat split; auto.
  intros k N. rewrite ObjFacts.get_delete.
  destruct (String.eqb_spec key k); congruence.
Qed.

(** X18. Each builder method changes at most its
    own key of the stored properties and nothing else of the pass: void,
    nfc, barcodes, barcode, beacons, locations, expiration and relevantDate;
    localize and the transitType setter leave the stored properties and the
    bundle alone, and an invalid transit type does not replace a valid
    one. *)
Theorem builders_touch_own_key p :
  touches_only "voided" p (void p) /\
  (forall data, touches_only "nfc" p (nfc data p)) /\
  (forall data, touches_only "barcodes" p (barcodes data p)) /\
  (forall chosen q, barcode chosen p = Ok q -> touches_only "barcode" p q) /\
  (forall data q, beacons data p = Ok q -> touches_only "beacons" p q) /\
  (forall data q, locations data p = Ok q -> touches_only "locations" p q) /\
  (forall date,
      touches_only "expirationDate" p (expiration dateToW3CString date p)) /\
  (forall date,
      touches_only "relevantDate" p (relevantDate dateToW3CString date p)) /\
  (forall lang translations,
      passProps (localize lang translations p) = passProps p /\
      bundle (localize lang translations p) = bundle p /\
      transitType (localize lang translations p) = transitType p) /\
  (forall value,
      passProps (set_transitType value p) = passProps p /\
      bundle (set_transitType value p) = bundle p /\
      l10nTranslations (set_transitType value p) = l10nTranslations p /\
      (isValid TransitType value = false ->
       JS.truthy (transitType p) = true ->
       transitType (set_transitType value p) = transitType p)).
Proof.
  split; [apply touches_set|].
  split.
  { intros data. unfold nfc.
    destruct data; try apply touches_refl; [apply touches_delete|].
    destruct (isValid NFC (JObject o)); [apply touches_set|apply touches_refl]. }
  split.
  { intros data. unfold barcodes.
    destruct data as [|[] rest];
      try (destruct (validBarcodes _);
           [apply touches_refl|apply touches_set]).
    - apply touches_delete.
    - destruct (barcodesFromUncompleteData (JString s));
        [apply touches_refl|apply touches_set]. }
  split.
  { intros chosen q. unfold barcode.
    destruct chosen; try (intros E; inversion E; subst; apply touches_refl).
    - intros E. inversion E; subst. apply touches_delete.
    - destruct (s =? "PKBarcodeFormatCode128");
        [intros E; inversion E; subst; apply touches_refl|].
      destruct (Obj.get "barcodes" (passProps p)) as [[]|];
        try (intros E; inversion E; subst; apply touches_refl).
      + destruct (s0 =? ""); [|discriminate].
        intros E; inversion E; subst; apply touches_refl.
      + destruct l as [|b r];
          [intros E; inversion E; subst; apply touches_refl|].
        destruct (findBarcode s (b :: r)) as [[x|]|e]; cbn [bind];
          intros E; inversion E; subst;
          [apply touches_set|apply touches_refl].
      + destruct (Obj.get "length" o) as [n|];
          [destruct (JS.truthy n); [discriminate|]|];
          intros E; inversion E; subst; apply touches_refl. }
  split.
  { intros data q. unfold beacons.
    assert (X : forall l,
               (let* valid := getValidInArray Beacon l in
                Ok (if negb (List.length valid =? 0)%nat
                    then with_passProps
                           (Obj.set "beacons" (JArray valid) (passProps p)) p
                    else p)) = Ok q -> touches_only "beacons" p q).
    { intros l. destruct (getValidInArray Beacon l) as [v|e]; cbn [bind];
        [|discriminate].
      destruct (negb _); intros E; inversion E; subst;
        [apply touches_set|apply touches_refl]. }
    destruct data as [|[] rest]; try apply X.
    intros E; inversion E; subst. apply touches_delete. }
  split.
  { intros data q. unfold locations.
    assert (X : forall l,
               (let* valid := getValidInArray Location l in
                Ok (if negb (List.length valid =? 0)%nat
                    then with_passProps
                           (Obj.set "locations" (JArray valid) (passProps p)) p
                    else p)) = Ok q -> touches_only "locations" p q).
    { intros l. destruct (getValidInArray Location l) as [v|e]; cbn [bind];
        [|discriminate].
      destruct (negb _); intros E; inversion E; subst;
        [apply touches_set|apply touches_refl]. }
    destruct data as [|[] rest]; try apply X.
    intros E; inversion E; subst. apply touches_delete. }
  split.
  { intros date. unfold expiration.
    destruct date as [d|[]];
      try (destruct (JS.truthy _); [apply touches_set|apply touches_refl]).
    apply touches_delete. }
  split.
  { intros date. unfold relevantDate.
    destruct date as [d|[]];
      try (destruct (JS.truthy _); [apply touches_set|apply touches_refl]).
    apply touches_delete. }
  split.
  { intros lang translations. unfold localize.
    destruct (negb _); cbn; auto. }
  intros value. unfold set_transitType.
  destruct (isValid TransitType value); cbn.
  - repeat split; auto. discriminate.
  - repeat split; auto. intros _ T. now rewrite T.
Qed.

Lemma metadata_record_reset key p core sub :
  metadata_record p core sub ->
  metadata_record (with_passProps (Obj.delete key (passProps p)) p) core sub.
Proof.
  intros (B & S & H). split; [|split]; auto.
  cbn. apply has_false_keys. apply has_false_keys in H.
  intros I. apply ObjFacts.In_keys_delete in I. tauto.
Qed.

(** X19. Resetting a property with null removes it
    from the stored properties only: the metadata record written afterwards
    holds again the value the template's pass.json has for that key. *)
Theorem reset_restores_template p core sub key q :
  metadata_record p core sub ->
  (type p =? "boardingPass") && transit_unresolved p = false ->
  is_type_key (type p) = true ->
  (key = "barcodes" /\ q = barcodes [JNull] p) \/
  (key = "barcode" /\ barcode JNull p = Ok q) \/
  (key = "beacons" /\ beacons [JNull] p = Ok q) \/
  (key = "locations" /\ locations [JNull] p = Ok q) \/
  (key = "nfc" /\ q = nfc JNull p) \/
  (key = "expirationDate"
   /\ q = expiration dateToW3CString (AValue JNull) p) \/
  (key = "relevantDate"
   /\ q = relevantDate dateToW3CString (AValue JNull) p) ->
  Obj.get key (passProps q) = None /\
  exists passJson passFile,
    Obj.get "pass.json" (bundle q) = Some passJson /\
    snd (patch_passFile passJson q) = Ok passFile /\
    Obj.get key passFile = Obj.get key core.
Proof.
  intros M EM T K.
  assert (Q : q = with_passProps (Obj.delete key (passProps p)) p /\
              is_type_key key = false).
  { destruct K as [[-> ->]|[[-> E]|[[-> E]|[[-> E]|[[-> ->]|[[-> ->]|[-> ->]]]]]]];
      try (cbn in E; inversion E; subst); split; reflexivity. }
  destruct Q as [-> NK].
  assert (N : key <> type p) by (intros ->; congruence).
  assert (G : Obj.get key (Obj.delete key (passProps p)) = None).
  { rewrite ObjFacts.get_delete. now rewrite String.eqb_refl. }
  split; [exact G|].
  set (q := with_passProps (Obj.delete key (passProps p)) p) in *.
  destruct (metadata_record_reset key p core sub M)
    as ((passJson & GJ & EJ) & ES & EH).
  fold q in GJ, ES, EH.
  exists passJson,
    (Obj.set (type q) (JObject (patched_category q sub)) (overlaid q core)).
  split; [exact GJ|].
  split; [exact (patch_passFile_Ok q core sub passJson EJ ES EH EM)|].
  apply template_entry_kept; [exact N|].
  unfold prune_colors. rewrite get_delete_all.
  subst q. cbn [passProps with_passProps]. rewrite G.
  now destruct (existsb _ _).
Qed.

End BuilderFrames.
Section ModelChecks.

Context {C : Collaborators}.
Import Vocabulary.

Lemma existsb_eqb_In k l : existsb (String.eqb k) l = true <-> In k l.
Proof.
  rewrite existsb_exists. split.
  - intros [x [I E]]. apply String.eqb_eq in E. now subst.
  - intros I. exists k. split; auto. apply String.eqb_refl.
Qed.

(** X20. The only failure of the bundle check is
    MODEL_UNINITIALIZED, raised exactly when the bundle has no pass.json or no
    file whose name starts with icon. *)
Theorem model_check_failure bundle_ :
  (forall e, checkModelContents bundle_ = Err e -> e = MODEL_UNINITIALIZED) /\
  (checkModelContents bundle_ = Err MODEL_UNINITIALIZED <->
   ~ In "pass.json" (Obj.keys bundle_) \/
   forall file, In file (Obj.keys bundle_) ->
                Str.startsWith file "icon" = false).
Proof.
  unfold checkModelContents.
  assert (Rest : forall e,
             match Obj.get "personalization.json" bundle_ with
             | None => Ok bundle_
             | Some descriptor =>
                 let logoFullNames :=
                   Utils.getAllFilesWithName "personalizationLogo"
                     (Obj.keys bundle_) in
                 if negb (negb (List.length logoFullNames =? 0)%nat
                          && negb (String.length descriptor =? 0)%nat)
                 then Ok (Utils.deletePersonalization bundle_ logoFullNames)
                 else
                   match JSON_parse descriptor with
                   | Some parsedPersonalization =>
                       if isValid Personalization parsedPersonalization
                       then Ok bundle_
                       else Ok (fold_left (fun b file => Obj.delete file b)
                                  (logoFullNames ++ ["personalization.json"])%list
                                  bundle_)
                   | None =>
                       Ok (Utils.deletePersonalization bundle_ logoFullNames)
                   end
             end <> Err e).
  { intros e. destruct (Obj.get "personalization.json" bundle_); [|discriminate].
    cbv zeta. destruct (negb _); [discriminate|].
    destruct (JSON_parse s) as [x|]; [|discriminate].
    destruct (isValid Personalization x); discriminate. }
  destruct (existsb (String.eqb "pass.json") (Obj.keys bundle_)) eqn:PJ.
  - destruct (Utils.hasFilesWithName "icon" (Obj.keys bundle_)) eqn:IC;
      cbn [andb negb].
    + split.
      * intros e E. exfalso. exact (Rest e E).
      * split; [intros E; exfalso; exact (Rest _ E)|].
        intros [N|N]; exfalso.
        -- apply N. now apply existsb_eqb_In.
        -- unfold Utils.hasFilesWithName in IC. apply existsb_exists in IC.
           destruct IC as [f [I S]]. rewrite (N f I) in S. discriminate.
    + split; [intros e E; now inversion E|].
      split; auto. intros _. right. intros file I.
      destruct (Str.startsWith file "icon") eqn:S; auto.
      exfalso. unfold Utils.hasFilesWithName in IC.
      assert (X : existsb (fun f => Str.startsWith f "icon") (Obj.keys bundle_)
                  = true) by (apply existsb_exists; eauto).
      congruence.
  - cbn [andb negb]. split; [intros e E; now inversion E|].
    split; auto. intros _. left. intros I.
    apply existsb_eqb_In in I. congruence.
Qed.

Lemma not_personalization_kept name names (b : BundleUnit) :
  is_personalization_file name = false ->
  (forall n, In n names -> is_personalization_file n = true) ->
  Obj.get name (fold_left (fun acc f => Obj.delete f acc) names b)
  = Obj.get name b.
Proof.
  intros N H. rewrite get_delete_all.
  destruct (existsb (String.eqb name) names) eqn:E; auto.
  apply existsb_eqb_In in E. apply H in E. congruence.
Qed.

Lemma personalization_names (files : list string) n :
  In n (Utils.getAllFilesWithName "personalizationLogo" files
        ++ ["personalization.json"])%list ->
  is_personalization_file n = true.
Proof.
  intros I. apply in_app_or in I. unfold is_personalization_file.
  destruct I as [I|[<-|[]]]; [|reflexivity].
  apply filter_In in I. destruct I as [_ I]. rewrite I. apply orb_true_r.
Qed.

Lemma personalization_deleted (b : BundleUnit) name :
  In name (Obj.keys
             (fold_left (fun acc f => Obj.delete f acc)
                (Utils.getAllFilesWithName "personalizationLogo" (Obj.keys b)
                 ++ ["personalization.json"])%list b)) ->
  is_personalization_file name = false.
Proof.
  intros I. apply In_keys_delete_all in I. destruct I as [N K].
  unfold is_personalization_file.
  destruct (String.eqb_spec name "personalization.json") as [->|_].
  { exfalso. apply N. apply in_or_app. right. now left. }
  destruct (Str.startsWith name "personalizationLogo") eqn:P; auto.
  exfalso. apply N. apply in_or_app. left.
  unfold Utils.getAllFilesWithName. apply filter_In. auto.
Qed.

Lemma checked_files bundle_ b' :
  checkModelContents bundle_ = Ok b' ->
  (forall name,
      is_personalization_file name = false ->
      Obj.get name b' = Obj.get name bundle_) /\
  (b' = bundle_ \/
   forall name, In name (Obj.keys b') -> is_personalization_file name = false).
Proof.
  unfold checkModelContents.
  destruct (negb _); [discriminate|].
  intros E.
  assert (K : b' = bundle_ \/
              b' = fold_left (fun acc f => Obj.delete f acc)
                     (Utils.getAllFilesWithName "personalizationLogo"
                        (Obj.keys bundle_) ++ ["personalization.json"])%list
                     bundle_).
  { revert E. cbv zeta.
    repeat match goal with
           | |- context [if ?c then _ else _] => destruct c
           | |- context [match ?c with _ => _ end] => destruct c
           end;
      intros E; inversion E; auto. }
  destruct K as [->| ->]; [auto|]. split.
  - intros name N. apply not_personalization_kept; auto.
    intros n. apply personalization_names.
  - right. intros name. apply personalization_deleted.
Qed.

(** X21. A bundle that passes the check keeps every
    file other than personalization.json and the personalization logos, and is
    either returned whole or without any of those; personalization.json is
    kept exactly when it is not empty, a personalization logo exists and the
    descriptor parses to a valid personalization record. *)
Theorem model_check_outcome bundle_ b' :
  checkModelContents bundle_ = Ok b' ->
  (forall name,
      is_personalization_file name = false ->
      Obj.get name b' = Obj.get name bundle_) /\
  (b' = bundle_ \/
   forall name, In name (Obj.keys b') -> is_personalization_file name = false) /\
  (In "personalization.json" (Obj.keys b') <->
   exists descriptor parsed logo,
     Obj.get "personalization.json" bundle_ = Some descriptor /\
     descriptor <> "" /\
     In logo (Obj.keys bundle_) /\
     Str.startsWith logo "personalizationLogo" = true /\
     JSON_parse descriptor = Some parsed /\
     isValid Personalization parsed = true).
Proof.
  unfold checkModelContents.
  destruct (negb _); [discriminate|].
  assert (Del : forall b,
             b = fold_left (fun acc f => Obj.delete f acc)
                   (Utils.getAllFilesWithName "personalizationLogo"
                      (Obj.keys bundle_) ++ ["personalization.json"])%list
                   bundle_ ->
             (forall name,
                 is_personalization_file name = false ->
                 Obj.get name b = Obj.get name bundle_) /\
             (b = bundle_ \/
              forall name, In name (Obj.keys b) ->
                           is_personalization_file name = false) /\
             ~ In "personalization.json" (Obj.keys b)).
  { intros b ->. split; [|split].
    - intros name N. apply not_personalization_kept; auto.
      intros n. apply personalization_names.
    - right. intros name. apply personalization_deleted.
    - intros I. apply personalization_deleted in I. discriminate. }
  destruct (Obj.get "personalization.json" bundle_) as [descriptor|] eqn:G.
  2:{ intros E. inversion E; subst. split; [auto|]. split; [auto|].
      split.
      - intros I. apply ObjFacts.get_None_keys in G. contradiction.
      - intros (d & _ & _ & X & _). discriminate. }
  cbv zeta.
  destruct (Utils.getAllFilesWithName "personalizationLogo" (Obj.keys bundle_))
    as [|logo logos] eqn:L.
  { cbn [List.length Nat.eqb negb andb]. intros E. inversion E; subst b'.
    destruct (Del _ eq_refl) as (D1 & D2 & D3).
    split; [exact D1|]. split; [exact D2|]. split; [tauto|].
    intros (d & parsed & lg & _ & _ & I & S & _). exfalso.
    assert (X : In lg (Utils.getAllFilesWithName "personalizationLogo"
                         (Obj.keys bundle_)))
      by (apply filter_In; auto).
    rewrite L in X. destruct X. }
  cbn [List.length Nat.eqb negb andb].
  destruct (String.length descriptor =? 0)%nat eqn:Z; cbn [negb].
  { intros E. inversion E; subst b'. rewrite <- L in *.
    destruct (Del _ eq_refl) as (D1 & D2 & D3).
    split; [exact D1|]. split; [exact D2|]. split; [tauto|].
    intros (d & parsed & lg & X & NE & _). exfalso.
    inversion X; subst d. apply StrFacts.length_zero in Z. contradiction. }
  assert (Logo : In logo (Obj.keys bundle_) /\
                 Str.startsWith logo "personalizationLogo" = true).
  { assert (I : In logo (Utils.getAllFilesWithName "personalizationLogo"
                           (Obj.keys bundle_))) by (rewrite L; now left).
    apply filter_In in I. exact I. }
  rewrite <- L in *.
  destruct (JSON_parse descriptor) as [parsed|] eqn:P.
  - destruct (isValid Personalization parsed) eqn:V.
    + intros E. inversion E; subst b'. split; [auto|]. split; [auto|].
      split.
      * intros _. exists descriptor, parsed, logo.
        destruct Logo as [L1 L2]. repeat split; auto.
        intros ->. discriminate.
      * intros _. now apply ObjFacts.get_Some_keys in G.
    + intros E. inversion E; subst b'.
      destruct (Del _ eq_refl) as (D1 & D2 & D3).
      split; [exact D1|]. split; [exact D2|]. split; [tauto|].
      intros (d & pr & lg & X & _ & _ & _ & Y & W). exfalso.
      inversion X; subst d. congruence.
  - intros E. inversion E; subst b'.
    destruct (Del _ eq_refl) as (D1 & D2 & D3).
    split; [exact D1|]. split; [exact D2|]. split; [tauto|].
    intros (d & pr & lg & X & _ & _ & _ & Y & _). exfalso.
    inversion X; subst d. congruence.
Qed.

End ModelChecks.
Section BufferModels.

Context {C : Collaborators}.
Variable removeHidden : list string -> list string.
Variable splitBufferBundle : BundleUnit -> L10nBundle * BundleUnit.
Variable getModelFolderContents : string -> outcome ModelContents.
Import Vocabulary.

Lemma rawBundle_fold (model : Obj.t (option Buffer)) names acc :
  Obj.wf acc ->
  let acc' :=
    fold_left
      (fun acc current =>
         match Obj.get current model with
         | Some (Some content) =>
             if is_generated_name current then acc
             else extend acc current content
         | _ => acc
         end) names acc in
  Obj.wf acc' /\
  forall k,
    Obj.get k acc' =
    match
      (if existsb (String.eqb k) names && negb (is_generated_name k)
       then Obj.get k model else None)
    with
    | Some (Some content) => Some content
    | _ => Obj.get k acc
    end.
Proof.
  revert acc. induction names as [|n r IH]; intros acc W; cbn zeta.
  - simpl. auto.
  - cbn [fold_left].
    set (a1 := match Obj.get n model with
               | Some (Some content) =>
                   if is_generated_name n then acc else extend acc n content
               | _ => acc
               end).
    assert (W1 : Obj.wf a1).
    { subst a1. destruct (Obj.get n model) as [[c|]|]; auto.
      destruct (is_generated_name n); auto. apply ObjFacts.wf_extend. }
    destruct (IH a1 W1) as [W2 G2]. split; [exact W2|].
    intros k. rewrite G2. cbn [existsb].
    assert (G1 : Obj.get k a1 =
                 match
                   (if (k =? n) && negb (is_generated_name k)
                    then Obj.get k model else None)
                 with
                 | Some (Some content) => Some content
                 | _ => Obj.get k acc
                 end).
    { subst a1. destruct (String.eqb_spec k n) as [->|N]; cbn [andb].
      - destruct (Obj.get n model) as [[c|]|];
          destruct (is_generated_name n); cbn [negb]; auto.
        rewrite get_extend by exact W. now rewrite String.eqb_refl.
      - destruct (Obj.get n model) as [[c|]|]; auto.
        destruct (is_generated_name n); auto.
        rewrite get_extend by exact W.
        destruct (String.eqb_spec n k); congruence. }
    rewrite G1. clear G1 G2. clearbody a1.
    destruct (String.eqb_spec k n) as [E|N]; [subst k|]; cbn [orb andb].
    + destruct (negb (is_generated_name n)); cbn [andb].
      * rewrite andb_true_r.
        destruct (existsb (String.eqb n) r);
          destruct (Obj.get n model) as [[c|]|]; reflexivity.
      * rewrite andb_false_r. reflexivity.
    + destruct (existsb (String.eqb k) r && negb (is_generated_name k));
        [destruct (Obj.get k model) as [[c|]|]|]; reflexivity.
Qed.

Lemma rawBundle_get model k content :
  Obj.get k (rawBundle removeHidden model) = Some content <->
  In k (removeHidden (Obj.keys model)) /\
  is_generated_name k = false /\
  Obj.get k model = Some (Some content).
Proof.
  unfold rawBundle.
  destruct (rawBundle_fold model (removeHidden (Obj.keys model)) []
              ObjFacts.wf_nil) as [_ G].
  cbn zeta in G. rewrite G. cbn [Obj.get].
  destruct (existsb (String.eqb k) (removeHidden (Obj.keys model))) eqn:E;
    cbn [andb].
  - apply existsb_eqb_In in E.
    destruct (is_generated_name k); cbn [negb].
    + split; [discriminate|]. intros (_ & X & _). discriminate.
    + destruct (Obj.get k model) as [[c|]|]; split;
        try discriminate; try (intros (_ & _ & X); congruence).
      intros X. inversion X; subst. auto.
  - split; [discriminate|]. intros (I & _).
    apply existsb_eqb_In in I. congruence.
Qed.

(** X22. A model given as a record of buffers keeps
    the files that are not hidden, have a buffer, and whose name contains
    neither manifest nor signature; it is refused, with MODEL_UNINITIALIZED
    only, exactly when no kept file starts with icon, and is otherwise split
    into bundle and localised bundles. *)
Theorem buffer_model_contents model :
  Obj.wf (rawBundle removeHidden model) /\
  (forall k content,
      Obj.get k (rawBundle removeHidden model) = Some content <->
      In k (removeHidden (Obj.keys model)) /\
      is_generated_name k = false /\
      Obj.get k model = Some (Some content)) /\
  (forall e,
      getModelBufferContents removeHidden splitBufferBundle model = Err e ->
      e = MODEL_UNINITIALIZED) /\
  (getModelBufferContents removeHidden splitBufferBundle model
     = Err MODEL_UNINITIALIZED <->
   forall file, In file (Obj.keys (rawBundle removeHidden model)) ->
                Str.startsWith file "icon" = false) /\
  (forall mc,
      getModelBufferContents removeHidden splitBufferBundle model = Ok mc ->
      (mc_l10nBundle mc, mc_bundle mc)
        = splitBufferBundle (rawBundle removeHidden model)).
Proof.
  split.
  { unfold rawBundle.
    destruct (rawBundle_fold model (removeHidden (Obj.keys model)) []
                ObjFacts.wf_nil) as [W _]. exact W. }
  split; [intros k content; apply rawBundle_get|].
  unfold getModelBufferContents. cbv zeta.
  set (raw := rawBundle removeHidden model).
  assert (NoIcon : Utils.hasFilesWithName "icon" (Obj.keys raw) = false <->
                   forall file, In file (Obj.keys raw) ->
                                Str.startsWith file "icon" = false).
  { unfold Utils.hasFilesWithName. split.
    - intros H file I. destruct (Str.startsWith file "icon") eqn:S; auto.
      assert (X : existsb (fun f => Str.startsWith f "icon") (Obj.keys raw)
                  = true) by (apply existsb_exists; eauto).
      congruence.
    - intros H. destruct (existsb _ _) eqn:E; auto.
      apply existsb_exists in E. destruct E as [f [I S]].
      rewrite (H f I) in S. discriminate. }
  destruct (negb (List.length (Obj.keys raw) =? 0)%nat) eqn:NE; cbn [andb].
  - destruct (Utils.hasFilesWithName "icon" (Obj.keys raw)) eqn:IC; cbn [negb].
    + destruct (splitBufferBundle raw) as [l b].
      split; [discriminate|]. split.
      * split; [discriminate|]. intros H. apply NoIcon in H. discriminate.
      * intros mc E. inversion E; subst. reflexivity.
    + split; [intros e E; now inversion E|]. split; [|discriminate].
      split; auto. intros _. now apply NoIcon.
  - cbn [negb]. split; [intros e E; now inversion E|]. split; [|discriminate].
    split; auto. intros _ file I.
    destruct (Obj.keys raw); [destruct I|discriminate].
Qed.

(** X23. getModelContents refuses a model that is
    neither a path nor a record, and an empty record, with MODEL_NOT_VALID,
    throws a TypeError for null, passes a failure of the folder reader on, and returns only checked
    bundles: the result has pass.json and an icon, and the localised bundles
    of the loaded model. *)
Theorem loaded_model_is_checked model :
  (model = ModelOther \/ model = ModelRecord [] ->
   getModelContents removeHidden splitBufferBundle getModelFolderContents model
   = Failed MODEL_NOT_VALID) /\
  (model = ModelNull ->
   getModelContents removeHidden splitBufferBundle getModelFolderContents model
   = Failed (Passed TypeError)) /\
  (forall path e,
      model = ModelPath path -> getModelFolderContents path = Failed e ->
      getModelContents removeHidden splitBufferBundle getModelFolderContents
                       model = Failed e) /\
  (forall mc,
      getModelContents removeHidden splitBufferBundle getModelFolderContents
                       model = Done mc ->
      exists loaded,
        match model with
        | ModelPath path => getModelFolderContents path = Done loaded
        | ModelRecord m =>
            getModelBufferContents removeHidden splitBufferBundle m = Ok loaded
        | _ => False
        end /\
        checkModelContents (mc_bundle loaded) = Ok (mc_bundle mc) /\
        mc_l10nBundle mc = mc_l10nBundle loaded /\
        In "pass.json" (Obj.keys (mc_bundle mc)) /\
        (exists icon, In icon (Obj.keys (mc_bundle mc)) /\
                      Str.startsWith icon "icon" = true) /\
        (mc_bundle mc = mc_bundle loaded \/
         forall name, In name (Obj.keys (mc_bundle mc)) ->
                      is_personalization_file name = false)).
Proof.
  split; [|split; [|split]].
  - intros [->| ->]; reflexivity.
  - intros ->. reflexivity.
  - intros path e -> E. unfold getModelContents. now rewrite E.
  - intros mc. unfold getModelContents.
    assert (Checked : forall loaded,
               match checkModelContents (mc_bundle loaded) with
               | Ok bundle_ =>
                   Done {| mc_bundle := bundle_;
                           mc_l10nBundle := mc_l10nBundle loaded |}
               | Err e => Failed (Passed e)
               end = Done mc ->
               checkModelContents (mc_bundle loaded) = Ok (mc_bundle mc) /\
               mc_l10nBundle mc = mc_l10nBundle loaded /\
               In "pass.json" (Obj.keys (mc_bundle mc)) /\
               (exists icon, In icon (Obj.keys (mc_bundle mc)) /\
                             Str.startsWith icon "icon" = true) /\
               (mc_bundle mc = mc_bundle loaded \/
                forall name, In name (Obj.keys (mc_bundle mc)) ->
                             is_personalization_file name = false)).
    { intros loaded.
      destruct (checkModelContents (mc_bundle loaded)) as [b|e] eqn:K;
        [|discriminate].
      intros E. inversion E; subst mc; clear E. cbn [mc_bundle mc_l10nBundle].
      destruct (checked_files _ _ K) as (Keep & Same).
      destruct (checked_model _ _ K) as (PJ & _).
      split; [reflexivity|]. split; [reflexivity|]. split; [exact PJ|].
      split; [|exact Same].
      unfold checkModelContents in K.
      destruct (existsb (String.eqb "pass.json") (Obj.keys (mc_bundle loaded)));
        [|discriminate].
      destruct (Utils.hasFilesWithName "icon" (Obj.keys (mc_bundle loaded)))
        eqn:IC; [|discriminate].
      unfold Utils.hasFilesWithName in IC. apply existsb_exists in IC.
      destruct IC as [icon [I S]]. exists icon. split; [|exact S].
      apply ObjFacts.keys_get in I. destruct I as [v G].
      assert (N : is_personalization_file icon = false).
      { unfold is_personalization_file. unfold Str.startsWith in *.
        destruct icon as [|c0 icon]; [discriminate|].
        change (String.prefix "icon" (String c0 icon))
          with (if ascii_dec "i"%char c0 then String.prefix "con" icon
                else false) in S.
        destruct (ascii_dec "i"%char c0) as [<-|];
          [reflexivity|discriminate]. }
      rewrite <- (Keep icon N) in G. now apply ObjFacts.get_Some_keys in G. }
    destruct model as [path|m| |]; try discriminate.
    + destruct (getModelFolderContents path) as [loaded|e]; [|discriminate].
      intros E. exists loaded. split; [reflexivity|]. now apply Checked.
    + destruct (negb _); [|discriminate].
      destruct (getModelBufferContents removeHidden splitBufferBundle m)
        as [loaded|e]; [|discriminate].
      cbn [passed]. intros E. exists loaded. split; [reflexivity|].
      now apply Checked.
Qed.

End BufferModels.
Section CertificateReading.

Variable Pem : Type.
Variable certificateFromPem : string -> ForgeResult Pem.
Variable decryptRsaPrivateKey : string -> string -> ForgeResult Pem.
Variable isValidCertificates : Obj.t CertValue -> bool.
Variable hasExtension : string -> bool.
Variable readFile : string -> option string.

Lemma contents_Done ds l : contents ds = Done l -> ds = map Some l.
Proof.
  revert l. induction ds as [|[c|] r IH]; intros l; simpl.
  - intros E. now inversion E.
  - destruct (contents r) as [l'|e]; [|discriminate].
    intros E. inversion E; subst. simpl. now rewrite (IH l' eq_refl).
  - discriminate.
Qed.

Lemma contents_Failed ds e :
  contents ds = Failed e -> e = Passed TypeError /\ In None ds.
Proof.
  induction ds as [|[c|] r IH]; simpl.
  - discriminate.
  - destruct (contents r) as [l'|e']; [discriminate|].
    intros E. inversion E; subst. destruct (IH eq_refl). auto.
  - intros E. inversion E. auto.
Qed.

Lemma contents_strings ds :
  ~ In None ds -> exists l, contents ds = Done l.
Proof.
  intros N. destruct (contents ds) as [l|e] eqn:E; eauto.
  apply contents_Failed in E. tauto.
Qed.

Lemma readAll_Done l files :
  readAll hasExtension readFile l = Done files ->
  List.length files = List.length l /\
  forall j content,
    nth_error l j = Some content ->
    exists file,
      nth_error files j = Some file /\
      (if hasExtension content then readFile content else Some content)
      = Some file.
Proof.
  revert files. induction l as [|c r IH]; intros files; simpl.
  - intros E. inversion E; subst. split; auto.
    intros [|j] content; discriminate.
  - destruct (if hasExtension c then readFile c else Some c) as [file|] eqn:R;
      [|discriminate].
    destruct (readAll hasExtension readFile r) as [fs|e]; [|discriminate].
    intros E. inversion E; subst. destruct (IH fs eq_refl) as [L H].
    split; [simpl; now rewrite L|].
    intros [|j] content; simpl.
    + intros X. inversion X; subst. eauto.
    + apply H.
Qed.

Lemma readAll_Failed l e :
  readAll hasExtension readFile l = Failed e ->
  e = INVALID_CERT_PATH /\
  exists content,
    In content l /\ hasExtension content = true /\ readFile content = None.
Proof.
  revert e. induction l as [|c r IH]; intros e; simpl; [discriminate|].
  destruct (if hasExtension c then readFile c else Some c) as [file|] eqn:R.
  - destruct (readAll hasExtension readFile r) as [fs|e']; [discriminate|].
    intros E. inversion E; subst.
    destruct (IH e' eq_refl) as [_ (x & I & X)].
    split; auto. exists x. auto.
  - intros E. inversion E; subst. split; auto. exists c.
    destruct (hasExtension c); [auto|discriminate].
Qed.

Lemma readAll_readable l :
  (forall content, In content l -> hasExtension content = true ->
                   readFile content <> None) ->
  exists files, readAll hasExtension readFile l = Done files.
Proof.
  intros H. destruct (readAll hasExtension readFile l) as [fs|e] eqn:E; eauto.
  apply readAll_Failed in E. destruct E as [_ (c & I & X & Y)].
  exfalso. exact (H c I X Y).
Qed.

Lemma set_map_key {A B} (g : A -> B) k x (o : Obj.t A) :
  Obj.wf o -> In k (Obj.keys o) ->
  Obj.set k x (map (fun kv => (fst kv, g (snd kv))) o)
  = map (fun kv => (fst kv, if fst kv =? k then x else g (snd kv))) o.
Proof.
  unfold Obj.wf. induction o as [|[a b] r IH]; simpl; [tauto|].
  intros W I. inversion W; subst.
  destruct (String.eqb_spec a k) as [->|N].
  - f_equal. apply map_ext_in. intros [a' b'] I'. simpl.
    destruct (String.eqb_spec a' k) as [->|]; auto.
    exfalso. apply H1. change k with (fst (k, b')). now apply in_map.
  - f_equal. apply IH; auto. destruct I; congruence.
Qed.

Lemma flattenedDocs_wf o :
  Obj.wf o -> In "signerKey" (Obj.keys o) ->
  map snd (flattenedDocs o) = map (document o) (Obj.keys o).
Proof.
  intros W I. unfold flattenedDocs.
  assert (W' : Obj.wf ([] ++ map (fun kv : string * CertValue =>
                          (fst kv,
                           match snd kv with
                           | CertString s => Some s
                           | CertObject _ _ => None
                           end)) o)%list).
  { unfold Obj.wf, Obj.keys in *. simpl. rewrite map_map. exact W. }
  rewrite (ObjFacts.assign_app_wf _ _ W'). cbn [app].
  unfold Obj.assign. cbn [fold_left fst snd].
  rewrite (set_map_key
             (fun v => match v with
                       | CertString s => Some s
                       | CertObject _ _ => None
                       end) "signerKey" _ o W I).
  unfold Obj.keys. rewrite !map_map. apply map_ext_in.
  intros [k v] Ik. cbn [fst snd]. unfold document.
  rewrite (ObjFacts.In_get _ _ W Ik).
  destruct (String.eqb_spec k "signerKey") as [->|N].
  - rewrite (ObjFacts.In_get _ _ W Ik). now destruct v.
  - now destruct v.
Qed.

Lemma flattenedDocs_no_key o :
  ~ In "signerKey" (Obj.keys o) -> In None (map snd (flattenedDocs o)).
Proof.
  intros N. unfold flattenedDocs.
  apply ObjFacts.get_None_keys in N. rewrite N.
  unfold Obj.assign at 1. cbn [fold_left fst snd].
  apply in_map_iff. exists ("signerKey", None). split; auto.
  apply ObjFacts.get_In. apply ObjFacts.get_set_same.
Qed.

Lemma firstn_S_nth {A} (l : list A) i d :
  i < List.length l -> firstn (S i) l = (firstn i l ++ [nth i l d])%list.
Proof.
  revert i. induction l as [|a r IH]; intros i L; simpl in L; [lia|].
  destruct i as [|i]; simpl; auto. f_equal. apply IH. lia.
Qed.

Lemma nth_not_in_firstn (l : list string) i d :
  NoDup l -> i < List.length l -> ~ In (nth i l d) (firstn i l).
Proof.
  intros ND L I. apply (In_nth _ _ d) in I. destruct I as (j & Lj & E).
  pose proof (firstn_le_length i l) as FL.
  assert (Lj' : j < i).
  { rewrite length_firstn in Lj. lia. }
  rewrite nth_firstn in E.
  assert (X : (j <? i)%nat = true) by (apply Nat.ltb_lt; lia).
  rewrite X in E.
  apply (proj1 (NoDup_nth l d) ND) in E; lia.
Qed.

Lemma parseAll_spec names pp files :
  NoDup names ->
  forall i acc pems,
    i + List.length files <= List.length names ->
    Obj.keys acc = firstn i names ->
    parseAll certificateFromPem decryptRsaPrivateKey names pp i files acc
      = Done pems ->
    Obj.keys pems = firstn (i + List.length files) names /\
    (forall k, In k (firstn i names) -> Obj.get k pems = Obj.get k acc) /\
    (forall j file,
        nth_error files j = Some file ->
        exists pem,
          parsePEM certificateFromPem decryptRsaPrivateKey
                   (nth (i + j) names "undefined") file pp = Parsed pem /\
          Obj.get (nth (i + j) names "undefined") pems = Some pem).
Proof.
  intros ND. induction files as [|file rest IH]; intros i acc pems L K; simpl.
  - intros E. inversion E; subst. rewrite Nat.add_0_r.
    split; [exact K|]. split; auto. intros [|j] f; discriminate.
  - simpl in L.
    destruct (parsePEM certificateFromPem decryptRsaPrivateKey
                (nth i names "undefined") file pp) as [pem| |] eqn:P;
      try discriminate.
    intros E.
    assert (Li : i < List.length names) by lia.
    assert (Fresh : ~ In (nth i names "undefined") (Obj.keys acc)).
    { rewrite K. now apply nth_not_in_firstn. }
    assert (K1 : Obj.keys (Obj.set (nth i names "undefined") pem acc)
                 = firstn (S i) names).
    { rewrite ObjFacts.keys_set.
      assert (H : Obj.has (nth i names "undefined") acc = false).
      { unfold Obj.has. apply ObjFacts.get_None_keys in Fresh.
        now rewrite Fresh. }
      rewrite H, K. symmetry. now apply firstn_S_nth. }
    destruct (IH (S i) _ pems ltac:(lia) K1 E) as (A & B & D).
    split; [|split].
    + rewrite A. f_equal. lia.
    + intros k I. rewrite B.
      * apply ObjFacts.get_set_other. intros ->.
        rewrite <- K in I. contradiction.
      * rewrite (firstn_S_nth names i "undefined" Li).
        apply in_or_app. now left.
    + intros [|j] f; simpl.
      * intros X. inversion X; subst f. rewrite Nat.add_0_r.
        exists pem. split; [exact P|]. rewrite B.
        -- apply ObjFacts.get_set_same.
        -- rewrite (firstn_S_nth names i "undefined" Li).
           apply in_or_app. right. now left.
      * intros X. destruct (D j f X) as (pm & P1 & G1).
        replace (i + S j) with (S i + j) by lia. eauto.
Qed.

Lemma parsePEM_passphraseOf name file o :
  parsePEM certificateFromPem decryptRsaPrivateKey name file (passphraseOf o)
  = if name =? "signerKey"
    then match passphraseOf o with
         | Some phrase => decryptRsaPrivateKey file phrase
         | None => certificateFromPem file
         end
    else certificateFromPem file.
Proof.
  unfold parsePEM.
  destruct (passphraseOf o) as [ph|] eqn:PP;
    [|now destruct (name =? "signerKey")].
  assert (Z : (ph =? "") = false).
  { unfold passphraseOf in PP.
    destruct (Obj.get "signerKey" o) as [[s|kf [x|]]|]; try discriminate.
    destruct (x =? "") eqn:Z; [discriminate|]. now inversion PP; subst. }
  rewrite Z. now destruct (name =? "signerKey").
Qed.

(** X24. When the certificates are read, the options
    were valid and hold a signerKey, the result has the keys of the options in
    their order, and each value is the parse of the document's content, read
    from the file when the value has an extension; the signerKey is decrypted
    with its passphrase when one is given and not empty, and parsed as a
    certificate otherwise. *)
Theorem certificates_parsed options pems :
  Obj.wf options ->
  readCertificatesFromOptions certificateFromPem decryptRsaPrivateKey
    isValidCertificates hasExtension readFile (Some options) = Done pems ->
  isValidCertificates options = true /\
  Obj.keys pems = Obj.keys options /\
  In "signerKey" (Obj.keys options) /\
  forall name,
    In name (Obj.keys options) ->
    exists content file pem,
      document options name = Some content /\
      (if hasExtension content then readFile content else Some content)
      = Some file /\
      Obj.get name pems = Some pem /\
      (if name =? "signerKey"
       then match passphraseOf options with
            | Some phrase => decryptRsaPrivateKey file phrase
            | None => certificateFromPem file
            end
       else certificateFromPem file) = Parsed pem.
Proof.
  intros W. unfold readCertificatesFromOptions.
  destruct (negb (List.length (Obj.keys options) =? 0)%nat) eqn:NE;
    [|discriminate].
  destruct (isValidCertificates options); [|discriminate].
  cbn [andb negb].
  destruct (contents (map snd (flattenedDocs options))) as [l|e] eqn:EC;
    [|discriminate].
  destruct (readAll hasExtension readFile l) as [files|e] eqn:ER;
    [|discriminate].
  intros EP.
  assert (SK : In "signerKey" (Obj.keys options)).
  { destruct (in_dec string_dec "signerKey" (Obj.keys options)) as [I|N]; auto.
    exfalso. apply flattenedDocs_no_key in N.
    destruct (contents_strings (map snd (flattenedDocs options))) as [x X].
    - intros I. apply contents_Done in EC. rewrite EC in I.
      apply in_map_iff in I. destruct I as (y & Y & _). discriminate.
    - apply contents_Done in EC. rewrite EC in N.
      apply in_map_iff in N. destruct N as (y & Y & _). discriminate. }
  apply contents_Done in EC. rewrite (flattenedDocs_wf options W SK) in EC.
  destruct (readAll_Done _ _ ER) as [LF RF].
  assert (LN : List.length l = List.length (Obj.keys options)).
  { apply (f_equal (@List.length _)) in EC. rewrite !length_map in EC.
    lia. }
  destruct (parseAll_spec (Obj.keys options) (passphraseOf options) files W
              0 [] pems ltac:(simpl; lia) eq_refl EP) as (A & _ & D).
  split; [reflexivity|]. split.
  { rewrite A. simpl. rewrite LF, LN. apply firstn_all. }
  split; [exact SK|].
  intros name I. apply (In_nth _ _ "undefined") in I.
  destruct I as (j & Lj & Ej).
  assert (NC : exists content, nth_error l j = Some content).
  { destruct (nth_error l j) eqn:X; eauto.
    apply nth_error_None in X. lia. }
  destruct NC as [content NC].
  destruct (RF j content NC) as (file & NF & R).
  destruct (D j file NF) as (pem & P & G). simpl in P, G. rewrite Ej in P, G.
  exists content, file, pem. split; [|split; [exact R|split; [exact G|]]].
  - assert (X : nth_error (map (document options) (Obj.keys options)) j
                = Some (Some content)).
    { rewrite EC. rewrite nth_error_map, NC. reflexivity. }
    rewrite nth_error_map in X.
    rewrite (nth_error_nth' _ "undefined" Lj), Ej in X. simpl in X.
    now inversion X.
  - now rewrite <- parsePEM_passphraseOf.
Qed.

(** X25. Reading the certificates fails with
    CP_NO_CERTS exactly when the options are missing, empty or refused by the
    validator; for options the validator accepts, with a TypeError exactly
    when a document has no content, and, when every document has content,
    with INVALID_CERT_PATH exactly when a document with an extension cannot
    be read. *)
Theorem certificates_failures options :
  let run :=
    readCertificatesFromOptions certificateFromPem decryptRsaPrivateKey
      isValidCertificates hasExtension readFile in
  (run options = Failed CP_NO_CERTS <->
   options = None \/ options = Some [] \/
   exists o, options = Some o /\ isValidCertificates o = false) /\
  (forall o,
      options = Some o -> o <> [] -> isValidCertificates o = true ->
      (run options = Failed (Passed TypeError) <->
       In None (map snd (flattenedDocs o))) /\
      (forall l,
          map snd (flattenedDocs o) = map Some l ->
          (run options = Failed INVALID_CERT_PATH <->
           exists content,
             In content l /\ hasExtension content = true /\
             readFile content = None))).
Proof.
  cbv zeta. unfold readCertificatesFromOptions. split.
  - destruct options as [o|]; [|split; auto].
    destruct o as [|kv r]; [cbn; split; auto|].
    cbn [Obj.keys map List.length Nat.eqb negb andb].
    destruct (isValidCertificates (kv :: r)) eqn:V; cbn [negb].
    + split.
      * intros E. exfalso.
        destruct (contents (map snd (flattenedDocs (kv :: r)))) as [l|e] eqn:EC.
        -- destruct (readAll hasExtension readFile l) as [fs|e] eqn:ER.
           ++ clear - E. revert E.
              generalize 0 (@nil (string * Pem)) (passphraseOf (kv :: r)).
              induction fs as [|f fs IH]; intros i acc pp; simpl;
                [discriminate|].
              destruct (parsePEM _ _ _ f pp); try discriminate. apply IH.
           ++ apply readAll_Failed in ER. destruct ER as [-> _]. discriminate.
        -- apply contents_Failed in EC. destruct EC as [-> _]. discriminate.
      * intros [X|[X|(o & X & Y)]]; try discriminate.
        inversion X; subst. congruence.
    + split; auto. intros _. right. right. eauto.
  - intros o -> NE V.
    destruct o as [|kv r]; [congruence|].
    cbn [Obj.keys map List.length Nat.eqb negb andb]. rewrite V. cbn [negb].
    assert (TE : match contents (map snd (flattenedDocs (kv :: r))) with
                 | Done l =>
                     match readAll hasExtension readFile l with
                     | Done files =>
                         parseAll certificateFromPem decryptRsaPrivateKey
                           (fst kv :: map fst r)
                           (passphraseOf (kv :: r)) 0 files []
                     | Failed e => Failed e
                     end
                 | Failed e => Failed e
                 end = Failed (Passed TypeError) <->
                 In None (map snd (flattenedDocs (kv :: r)))).
    { destruct (contents (map snd (flattenedDocs (kv :: r)))) as [l|e] eqn:EC.
      - apply contents_Done in EC. split.
        + intros E. exfalso.
          destruct (readAll hasExtension readFile l) as [fs|e] eqn:ER.
          * clear - E. revert E.
            generalize 0 (@nil (string * Pem)) (passphraseOf (kv :: r)).
            induction fs as [|f fs IH]; intros i acc pp; simpl;
              [discriminate|].
            destruct (parsePEM _ _ _ f pp); try discriminate. apply IH.
          * apply readAll_Failed in ER. destruct ER as [-> _]. discriminate.
        + intros I. exfalso. rewrite EC in I.
          apply in_map_iff in I. destruct I as (y & Y & _). discriminate.
      - apply contents_Failed in EC. destruct EC as [-> I]. tauto. }
    split; [exact TE|].
    + intros l EL.
      assert (EC : contents (map snd (flattenedDocs (kv :: r))) = Done l).
      { destruct (contents_strings (map snd (flattenedDocs (kv :: r))))
          as [l' X].
        - rewrite EL. intros I. apply in_map_iff in I.
          destruct I as (y & Y & _). discriminate.
        - rewrite X. apply contents_Done in X. rewrite EL in X.
          f_equal. clear - X. revert l' X.
          induction l as [|a l IH]; intros [|b l'] X; simpl in X;
            try discriminate; auto.
          inversion X; subst. f_equal. now apply IH. }
      rewrite EC.
      destruct (readAll hasExtension readFile l) as [fs|e] eqn:ER.
      * split.
        -- intros E. exfalso. clear - E. revert E.
           generalize 0 (@nil (string * Pem)) (passphraseOf (kv :: r)).
           induction fs as [|f fs IH]; intros i acc pp; simpl;
             [discriminate|].
           destruct (parsePEM _ _ _ f pp); try discriminate. apply IH.
        -- intros (c & I & X & Y). exfalso.
           destruct (readAll_Done _ _ ER) as [_ H].
           apply (In_nth_error l c) in I. destruct I as [j I].
           destruct (H j c I) as (file & _ & R). rewrite X in R. congruence.
      * apply readAll_Failed in ER. destruct ER as [-> X]. tauto.
Qed.

End CertificateReading.
Lemma coupon_constructed :
  construct (C := Fixtures.coupon_env)
            (Sample.options Fixtures.coupon_json None)
  = Ok Fixtures.coupon_pass.
Proof. vm_compute. reflexivity. Qed.

Lemma coupon_metadata :
  metadata_record (C := Fixtures.coupon_env) Fixtures.coupon_pass
                  Fixtures.coupon_core Fixtures.coupon_sub.
Proof. split; [eexists; split; reflexivity | split; reflexivity]. Qed.

Lemma category_detection_witness :
  exists core before after,
    passCore Fixtures.coupon_pass = JObject core /\
    Obj.keys core = (before ++ "coupon" :: after)%list /\
    forall k, In k before -> is_type_key k = false.
Proof.
  destruct (@category_detection Fixtures.coupon_env _ _ coupon_constructed)
    as (core & before & after & A & B & _ & D).
  exists core, before, after. auto.
Defined.

Lemma template_properties_witness :
  Obj.get "formatVersion" (passProps Fixtures.coupon_pass) = Some (JNumber 1) /\
  Obj.get "barcodes" (passProps Fixtures.coupon_pass)
    = Some (JArray [JObject [("format", JString "PKBarcodeFormatQR");
                             ("message", JString "A1")]]) /\
  Obj.get "nfc" (passProps Fixtures.coupon_pass) = Some JUndefined /\
  Obj.get "coupon" (passProps Fixtures.coupon_pass) = None.
Proof.
  destruct (@template_properties Fixtures.coupon_env _ _ Fixtures.coupon_core
              coupon_constructed eq_refl) as (_ & G).
  split; [|split; [|split]].
  - apply (G "formatVersion"). reflexivity.
  - apply (G "barcodes"). reflexivity.
  - apply (G "nfc"). reflexivity.
  - apply (G "coupon"). reflexivity.
Defined.

Lemma properties_reach_metadata_witness :
  exists passJson passFile,
    Obj.get "pass.json" (bundle (void Fixtures.coupon_pass)) = Some passJson /\
    snd (patch_passFile (C := Fixtures.coupon_env) passJson
                        (void Fixtures.coupon_pass)) = Ok passFile /\
    Obj.get "voided" passFile = Some (JBool true).
Proof.
  destruct (@properties_reach_metadata Fixtures.coupon_env
              (void Fixtures.coupon_pass)
              Fixtures.coupon_core Fixtures.coupon_sub "voided" (JBool true))
    as (passJson & passFile & A & B & D & _).
  - split; [eexists; split; reflexivity | split; reflexivity].
  - reflexivity.
  - apply MergeFacts.distinct_NoDup. reflexivity.
  - reflexivity.
  - reflexivity.
  - eauto.
Defined.

Lemma template_value_survives_witness :
  Obj.get "foregroundColor" (passProps Fixtures.coupon_pass)
    = Some (JString "blue") /\
  exists passJson passFile,
    snd (patch_passFile (C := Fixtures.coupon_env) passJson
                        Fixtures.coupon_pass) = Ok passFile /\
    Obj.get "foregroundColor" passFile = Some (JString "blue") /\
    Obj.get "foregroundColor"
      (passProps (fst (patch_passFile (C := Fixtures.coupon_env) passJson
                                      Fixtures.coupon_pass))) = None.
Proof.
  split; [reflexivity|].
  destruct (@template_value_survives Fixtures.coupon_env Fixtures.coupon_pass
              Fixtures.coupon_core Fixtures.coupon_sub "foregroundColor"
              coupon_metadata eq_refl)
    as (passJson & passFile & _ & B & D & E).
  - discriminate.
  - reflexivity.
  - exists passJson, passFile. split; [exact B|]. split; [|exact E].
    rewrite D. reflexivity.
Defined.

Lemma category_fields_written_witness :
  exists passJson passFile sub',
    snd (patch_passFile (C := Fixtures.coupon_env) passJson
                        Fixtures.coupon_pass) = Ok passFile /\
    Obj.get "coupon" passFile = Some (JObject sub') /\
    Obj.get "primaryFields" sub'
      = Some (JArray [JObject [("key", JString "offer");
                               ("value", JString "10%")]]) /\
    Obj.get "backFields" sub' = Some (JArray []) /\
    Obj.get "note" sub' = Some (JString "kept").
Proof.
  destruct (@category_fields_written Fixtures.coupon_env Fixtures.coupon_pass
              Fixtures.coupon_core Fixtures.coupon_sub coupon_metadata eq_refl)
    as (passJson & passFile & sub' & _ & B & D & E & F).
  exists passJson, passFile, sub'. split; [exact B|]. split; [exact D|].
  split; [exact (E FieldsArray.primaryFields)|].
  split; [exact (E FieldsArray.backFields)|].
  rewrite F; [reflexivity|discriminate|].
  intros s. destruct s; discriminate.
Defined.

Lemma personalization_kept_with_nfc_witness :
  exists p' h' archive,
    generate (C := Sample.env1) Fixtures.nfc_storeCard Sample.store
      = (p', h', Ok archive) /\
    Obj.get "personalization.json" (bundle p') = Some "{}" /\
    In "personalizationLogo.png" (map fst archive).
Proof.
  destruct (generate (C := Sample.env1) Fixtures.nfc_storeCard Sample.store)
    as [[p' h'] [archive|e]] eqn:G; [|vm_compute in G; discriminate].
  exists p', h', archive. split; [reflexivity|].
  destruct (@personalization_kept_with_nfc Sample.env1 Fixtures.nfc_storeCard
              Sample.store p' h' archive eq_refl eq_refl G) as (_ & K & A).
  split.
  - rewrite K by discriminate. reflexivity.
  - apply A. vm_compute. tauto.
Defined.

Lemma generate_without_languages_witness :
  exists p' archive signatureBuffer,
    generate (C := Fixtures.coupon_env) Fixtures.coupon_pass Sample.store
      = (p', Sample.store, Ok archive) /\
    archive =
      (bundle p' ++
       [("signature", signatureBuffer);
        ("manifest.json",
         JSON_stringify (Collaborators := Fixtures.coupon_env)
           (manifest_json
              (map (digest_entry (C := Fixtures.coupon_env)) (bundle p'))))])%list /\
    Obj.keys (bundle p') = ["pass.json"; "icon.png"].
Proof.
  destruct (generate (C := Fixtures.coupon_env) Fixtures.coupon_pass
                     Sample.store)
    as [[p' h'] [archive|e]] eqn:G; [|vm_compute in G; discriminate].
  destruct (@generate_without_languages Fixtures.coupon_env
              Fixtures.coupon_pass Sample.store p' h' archive eq_refl)
    with (2 := G) as (H & _ & sg & _ & A).
  - apply MergeFacts.distinct_NoDup. reflexivity.
  - subst h'. exists p', archive, sg. split; [reflexivity|].
    split; [exact A|].
    vm_compute in G. inversion G; subst. reflexivity.
Defined.

Lemma generate_failure_state_witness :
  exists p',
    generate (C := Sample.env3) Sample.boarding_pass Sample.store
      = (p', Sample.store, Err TRSTYPE_REQUIRED) /\
    bundle p' = bundle Sample.boarding_pass.
Proof.
  destruct (generate (C := Sample.env3) Sample.boarding_pass Sample.store)
    as [[p' h'] [archive|e]] eqn:G; [vm_compute in G; discriminate|].
  assert (E : e = TRSTYPE_REQUIRED).
  { vm_compute in G. now inversion G. }
  subst e.
  destruct (@generate_failure_state Sample.env3 Sample.boarding_pass
              Sample.store p' h' TRSTYPE_REQUIRED G)
    as (_ & [X|H] & B & _); [discriminate|].
  subst h'. exists p'. split; [reflexivity|]. apply B. now right.
Defined.

Lemma idle_metadata :
  metadata_record (C := Sample.env2) Fixtures.idle_storeCard
                  Fixtures.storeCard_core Fixtures.storeCard_sub.
Proof. split; [eexists; split; reflexivity | split; reflexivity]. Qed.

Lemma generate_again_same_witness :
  exists p1 a1 files manifest,
    generate (C := Sample.env2) Fixtures.idle_storeCard Sample.store
      = (p1, Sample.store, Ok a1) /\
    (exists signature1,
        a1 = (files ++ [("signature", signature1);
                        ("manifest.json", manifest)])%list) /\
    generate (C := with_signer (C := Sample.env2) Fixtures.other_signer)
             p1 Sample.store
      = (p1, Sample.store,
         Ok (files ++ [("signature", "signed again");
                       ("manifest.json", manifest)])%list) /\
    In ("en.lproj/pass.strings", "OLD;") files.
Proof.
  destruct (generate (C := Sample.env2) Fixtures.idle_storeCard Sample.store)
    as [[p1 h1] [a1|e]] eqn:G; [|vm_compute in G; discriminate].
  destruct (@generate_again_same Sample.env2 Fixtures.idle_storeCard
              Sample.store p1 h1 a1
              Fixtures.storeCard_core Fixtures.storeCard_sub idle_metadata)
    with (4 := G) as (H & files & s1 & EA & Again).
  - apply MergeFacts.distinct_NoDup. reflexivity.
  - intros lang tr E.
    change (l10nTranslations Fixtures.idle_storeCard)
      with [("en", @nil (string * string))] in E.
    cbn [Obj.get] in E.
    destruct ("en" =? lang); [now inversion E|discriminate].
  - intros passJson passFile A B. vm_compute in A. inversion A; subst passJson.
    vm_compute in B. inversion B; subst passFile. vm_compute. reflexivity.
  - subst h1. exists p1, a1, files. eexists.
    split; [reflexivity|]. split; [exists s1; exact EA|].
    split; [exact (Again Fixtures.other_signer)|].
    assert (Ia : In ("en.lproj/pass.strings", "OLD;") a1).
    { vm_compute in G. inversion G; subst. vm_compute. tauto. }
    rewrite EA in Ia. apply in_app_or in Ia. destruct Ia as [Ia|Ia]; auto.
    exfalso. destruct Ia as [X|[X|[]]]; discriminate.
Defined.
Lemma barcode_selection_witness :
  exists qr pdf aztec code128,
    Obj.get "barcodes"
      (passProps (barcodes (C := Sample.env1) [JString "12345"]
                           Sample.storeCard_pass))
      = Some (JArray [qr; pdf; aztec; code128]) /\
    barcode (JString "AZTEC")
            (barcodes (C := Sample.env1) [JString "12345"]
                      Sample.storeCard_pass)
    = Ok (with_passProps
            (Obj.set "barcode" aztec
               (passProps (barcodes (C := Sample.env1) [JString "12345"]
                                    Sample.storeCard_pass)))
            (barcodes (C := Sample.env1) [JString "12345"]
                      Sample.storeCard_pass)) /\
    barcode (JString "")
            (barcodes (C := Sample.env1) [JString "12345"]
                      Sample.storeCard_pass)
    = Ok (with_passProps
            (Obj.set "barcode" qr
               (passProps (barcodes (C := Sample.env1) [JString "12345"]
                                    Sample.storeCard_pass)))
            (barcodes (C := Sample.env1) [JString "12345"]
                      Sample.storeCard_pass)).
Proof.
  set (p := barcodes (C := Sample.env1) [JString "12345"]
                     Sample.storeCard_pass).
  assert (G : exists qr pdf aztec code128,
             Obj.get "barcodes" (passProps p)
             = Some (JArray [qr; pdf; aztec; code128]) /\
             find (format_matches "AZTEC") [qr; pdf; aztec; code128]
             = Some aztec /\
             (forall b, In b [qr; pdf; aztec; code128] ->
                        exists f, JS.prop b "format" = Ok (JString f))).
  { do 4 eexists. split; [vm_compute; reflexivity|].
    split; [vm_compute; reflexivity|].
    intros b [<-|[<-|[<-|[<-|[]]]]]; eexists; reflexivity. }
  destruct G as (qr & pdf & aztec & c128 & G & F & H).
  exists qr, pdf, aztec, c128. split; [exact G|].
  destruct (barcode_selection "AZTEC" [qr; pdf; aztec; c128] p)
    as (S1 & _); [discriminate|exact G|exact H|].
  destruct (barcode_selection "" [qr; pdf; aztec; c128] p)
    as (S2 & _ & E2); [discriminate|exact G|exact H|].
  split.
  - rewrite S1, F. reflexivity.
  - rewrite S2, (E2 eq_refl). reflexivity.
Defined.

Lemma code128_guard_is_exact_witness :
  exists code128,
    Vocabulary.barcode_entry "PKBarcodeFormatCode128" "12345" code128 /\
    barcode (JString "pkbarcodeformatcode128")
            (barcodes (C := Sample.env1) [JString "12345"]
                      Sample.storeCard_pass)
    = Ok (with_passProps
            (Obj.set "barcode" code128
               (passProps (barcodes (C := Sample.env1) [JString "12345"]
                                    Sample.storeCard_pass)))
            (barcodes (C := Sample.env1) [JString "12345"]
                      Sample.storeCard_pass)).
Proof.
  apply (@code128_guard_is_exact Sample.env1 "pkbarcodeformatcode128" "12345"
           Sample.storeCard_pass).
  - discriminate.
  - reflexivity.
  - discriminate.
  - intros format I. simpl in I.
    destruct I as [<-|[<-|[<-|[<-|[]]]]];
      (eexists; split; [reflexivity | split; reflexivity]).
Defined.

Lemma relevance_entries_witness :
  beacons (C := Sample.env1) Fixtures.two_beacons Sample.storeCard_pass
  = Ok (with_passProps
          (Obj.set "beacons"
             (JArray [JObject [("proximityUUID", JString "F8F5")]])
             (passProps Sample.storeCard_pass))
          Sample.storeCard_pass) /\
  locations (C := Sample.env1) [JObject []; JUndefined] Sample.storeCard_pass
  = Err TypeError.
Proof.
  split.
  - destruct (@relevance_entries Sample.env1 Fixtures.two_beacons
                Sample.storeCard_pass) as (_ & K); [discriminate|].
    destruct (K eq_refl) as (B & _). exact B.
  - destruct (@relevance_entries Sample.env1 [JObject []; JUndefined]
                Sample.storeCard_pass) as (K & _); [discriminate|].
    destruct (K eq_refl) as (_ & L). exact L.
Defined.

Lemma reset_restores_template_witness :
  Obj.get "barcodes" (passProps Fixtures.coupon_pass)
    = Some (JArray [JObject [("format", JString "PKBarcodeFormatQR");
                             ("message", JString "A1")]]) /\
  Obj.get "barcodes"
    (passProps (barcodes (C := Fixtures.coupon_env) [JNull]
                         Fixtures.coupon_pass)) = None /\
  exists passJson passFile,
    snd (patch_passFile (C := Fixtures.coupon_env) passJson
           (barcodes (C := Fixtures.coupon_env) [JNull] Fixtures.coupon_pass))
      = Ok passFile /\
    Obj.get "barcodes" passFile
      = Some (JArray [JObject [("format", JString "PKBarcodeFormatQR");
                               ("message", JString "A1")];
                      JObject [];
                      JObject [("message", JString "no format")]]).
Proof.
  split; [reflexivity|].
  destruct (@reset_restores_template Fixtures.coupon_env nat Fixtures.no_date
              Fixtures.coupon_pass Fixtures.coupon_core Fixtures.coupon_sub
              "barcodes"
              (barcodes (C := Fixtures.coupon_env) [JNull] Fixtures.coupon_pass)
              coupon_metadata eq_refl eq_refl)
    as (A & passJson & passFile & _ & B & D).
  - left. split; reflexivity.
  - split; [exact A|]. exists passJson, passFile. split; [exact B|].
    rewrite D. reflexivity.
Defined.

Lemma model_check_outcome_witness :
  exists checked,
    checkModelContents (C := Sample.env1)
                       (Sample.bundle_of Sample.storeCard_json) = Ok checked /\
    Obj.get "icon.png" checked = Some "ICON" /\
    Obj.keys checked = ["pass.json"; "icon.png"].
Proof.
  destruct (checkModelContents (C := Sample.env1)
              (Sample.bundle_of Sample.storeCard_json)) as [checked|e] eqn:K;
    [|vm_compute in K; discriminate].
  exists checked. split; [reflexivity|].
  destruct (@model_check_outcome Sample.env1 _ _ K) as (Keep & _ & _).
  split.
  - rewrite Keep by reflexivity. reflexivity.
  - vm_compute in K. inversion K; subst. reflexivity.
Defined.

Lemma certificates_parsed_witness :
  exists pems,
    readCertificatesFromOptions Fixtures.as_certificate Fixtures.as_key
      (fun _ => true) Fixtures.is_path Fixtures.disk
      (Some Fixtures.three_certificates) = Done pems /\
    Obj.keys pems = ["wwdr"; "signerCert"; "signerKey"] /\
    Obj.get "wwdr" pems = Some "certificate of WWDR" /\
    Obj.get "signerKey" pems
      = Some "key of contents of key.pem under secret".
Proof.
  destruct (readCertificatesFromOptions Fixtures.as_certificate Fixtures.as_key
              (fun _ => true) Fixtures.is_path Fixtures.disk
              (Some Fixtures.three_certificates)) as [pems|e] eqn:R;
    [|vm_compute in R; discriminate].
  exists pems. split; [reflexivity|].
  destruct (@certificates_parsed string Fixtures.as_certificate Fixtures.as_key
              (fun _ => true) Fixtures.is_path Fixtures.disk
              Fixtures.three_certificates pems) as (_ & K & _ & _).
  - apply MergeFacts.distinct_NoDup. reflexivity.
  - exact R.
  - split; [exact K|]. vm_compute in R. inversion R; subst. split; reflexivity.
Defined.
Section ConstructorEdges.

Context {C : Collaborators}.
Import FieldsArray.

Lemma validatedPassKeys_null t core k s l keys acc :
  In k keys -> k <> t ->
  propsSchemaMap k = Some s ->
  Obj.get k core = Some (JArray l) ->
  existsb nullish l = true ->
  validatedPassKeys t core acc keys = Err TypeError.
Proof.
  intros I N PS G NL. revert acc I.
  induction keys as [|c r IH]; intros acc I; [destruct I|]. simpl.
  destruct (validate_key t core acc c) as [a1|e] eqn:V; cbn [bind].
  - destruct I as [->|I]; [|now apply IH].
    exfalso. unfold validate_key in V.
    destruct (String.eqb_spec t k); [congruence|].
    rewrite PS, G in V.
    apply (getValidInArray_throws s) in NL. destruct NL as [e E].
    rewrite E in V. discriminate.
  - apply validate_key_Err in V. now subst.
Qed.

(** X4. A null or undefined entry inside an
    array valued known property of pass.json (barcodes, beacons, locations)
    makes the constructor throw a TypeError: Object.keys is applied to each
    entry before it is validated. *)
Theorem null_entry_breaks_constructor options core t k s l :
  isValidPassInstance options = true ->
  template_metadata options = Some (JObject core) ->
  getValidatedOverrides (given_overrides options) <> None ->
  category_key (JObject core) = Some t ->
  In k (Obj.keys core) -> k <> t ->
  propsSchemaMap k = Some s ->
  Obj.get k core = Some (JArray l) ->
  existsb nullish l = true ->
  construct options = Err TypeError.
Proof.
  intros V M O T I N PS G NL. unfold construct.
  unfold template_metadata in M. unfold given_overrides in O.
  rewrite V. cbn [negb]. rewrite M.
  destruct (getValidatedOverrides _) as [vo|]; [|congruence].
  cbn [category_key] in T. rewrite T.
  now rewrite (validatedPassKeys_null t core k s l _ [] I N PS G NL).
Qed.

End ConstructorEdges.

Lemma null_entry_breaks_constructor_witness :
  construct (C := Fixtures.broken_env)
            (Sample.options Fixtures.broken_json None) = Err TypeError.
Proof.
  apply (@null_entry_breaks_constructor Fixtures.broken_env
           (Sample.options Fixtures.broken_json None)
           [("formatVersion", JNumber 1);
            ("beacons", JArray [JObject [("proximityUUID", JString "F8F5")];
                                JNull]);
            ("generic", JObject [])]
           "generic" "beacons" Beacon
           [JObject [("proximityUUID", JString "F8F5")]; JNull]);
    try reflexivity; try discriminate.
  simpl. tauto.
Defined.
